(** * Shift scheduling model (brain2.py): constraint-model assembly in Rocq

    The program builds a CP-SAT model (Boolean and integer variables, linear
    and Boolean constraints, a weighted objective) from a scheduling request
    and hands it to an external solver.  This development embeds

    - the Python helpers the program relies on ([range], list indexing,
      [str], [split], [int], [itertools.combinations], [list.index]);
    - the part of the CP-SAT modelling interface the program calls
      ([NewBoolVar], [NewIntVar], [Add], [OnlyEnforceIf], [AddBoolOr],
      [AddMaxEquality], [AddMinEquality]) as a state-and-error monad over an
      explicit model, with the semantics of each constraint kind;
    - [test_overlap], [in_nested_list], [negated_bounded_span],
      [add_soft_sequence_constraint], [add_soft_sum_constraint] and the model
      assembly of [solve_shift_scheduling];

    and proves properties of every feasible assignment of the assembled
    model.  Variable names (the last argument of [NewBoolVar]/[NewIntVar]),
    the [print] calls and the decoding of the solver's answer are not part of
    the model semantics and are left out. *)

From Stdlib Require Import ZArith List Lia Bool Ascii String Floats.
From stdpp Require Import base option list list_numbers gmap strings pretty.

Set Warnings "-inexact-float,-clear-no-such-hyp".

Local Open Scope Z_scope.

(** ** Python helpers *)

Module Py.

(** [range(lo, hi)]; [range(n)] is [range 0 n]. *)
Definition range (lo hi : Z) : list Z := seqZ lo (hi - lo).

(** [l[i]] on a list: negative indices count from the end, anything out of
    range raises [IndexError] (here [None]). *)
Definition index {A} (l : list A) (i : Z) : option A :=
  let n := Z.of_nat (length l) in
  if 0 <=? i then l !! Z.to_nat i
  else if - n <=? i then l !! Z.to_nat (n + i)
  else None.

(** [str(i)] for an integer. *)
Definition str (i : Z) : string := pretty i.

(** [x in l] for a list of integers (or of lists of integers). *)
Definition mem {A} `{EqDecision A} (x : A) (l : list A) : bool :=
  bool_decide (x ∈ l).

(** [l.index(x)]: position of the first occurrence, [ValueError] if none. *)
Fixpoint list_index {A} `{EqDecision A} (x : A) (l : list A) : option Z :=
  match l with
  | [] => None
  | y :: l' => if decide (x = y) then Some 0 else Z.succ <$> list_index x l'
  end.

(** [itertools.combinations(l, 2)]: the pairs [(l[i], l[j])], [i < j], in
    lexicographic order of positions. *)
Fixpoint combinations2 {A} (l : list A) : list (A * A) :=
  match l with
  | [] => []
  | x :: l' => map (pair x) l' ++ combinations2 l'
  end.

(** [s.split(sep)] for a one-character separator. *)
Fixpoint split (sep : ascii) (s : string) : list string :=
  match s with
  | EmptyString => [EmptyString]
  | String c r =>
      if Ascii.eqb c sep then EmptyString :: split sep r
      else match split sep r with
           | h :: t => String c h :: t
           | [] => [String c EmptyString]
           end
  end.

(** The characters [int] strips from both ends of a string, a character of
    code [n] standing for [chr(n)]: the ASCII white space 9 to 13 and 32,
    and NEL (133) and NBSP (160), the white space among the other code
    points below 256. The separators 28 to 31, which [str.strip] removes,
    are not among them: [int] raises on them. *)
Definition is_space (c : ascii) : bool :=
  let n := nat_of_ascii c in
  ((9 <=? n)%nat && (n <=? 13)%nat) || (n =? 32)%nat
  || (n =? 133)%nat || (n =? 160)%nat.

Fixpoint lstrip (s : string) : string :=
  match s with
  | String c r => if is_space c then lstrip r else s
  | EmptyString => s
  end.

Fixpoint all_space (s : string) : bool :=
  match s with
  | String c r => is_space c && all_space r
  | EmptyString => true
  end.

Definition digit_of (c : ascii) : option Z :=
  let n := nat_of_ascii c in
  if (48 <=? n)%nat && (n <=? 57)%nat then Some (Z.of_nat (n - 48)) else None.

(** Decimal digits, single underscores allowed between two digits, white
    space allowed after the last digit. [prev] tells whether the previous
    character was a digit. *)
Fixpoint int_digits (acc : Z) (prev : bool) (s : string) : option Z :=
  match s with
  | EmptyString => if prev then Some acc else None
  | String c r =>
      match digit_of c with
      | Some d => int_digits (10 * acc + d) true r
      | None =>
          if negb prev then None
          else if Ascii.eqb c "_" then int_digits acc false r
          else if is_space c && all_space r then Some acc
          else None
      end
  end.

(** Number of decimal digits in a string. *)
Fixpoint digit_count (s : string) : Z :=
  match s with
  | EmptyString => 0
  | String c r =>
      match digit_of c with Some _ => 1 | None => 0 end + digit_count r
  end.

(** The interpreter's limit on the number of digits [int] converts
    ([sys.get_int_max_str_digits()], 4300 unless configured otherwise). *)
Definition max_str_digits : Z := 4300.

(** [int(s)] for a string in base 10; [ValueError] is [None]. *)
Definition int (s : string) : option Z :=
  if max_str_digits <? digit_count s then None
  else match lstrip s with
       | String "-" r => Z.opp <$> int_digits 0 false r
       | String "+" r => int_digits 0 false r
       | r => int_digits 0 false r
       end.

(** [int(x)] for a float: truncation towards zero; [nan] and the
    infinities raise. *)
Definition int_of_float (x : float) : option Z :=
  match Prim2SF x with
  | S754_zero _ => Some 0
  | S754_finite sg m e =>
      let mag := if 0 <=? e then Z.pos m * 2 ^ e else Z.pos m / 2 ^ (- e) in
      Some (if sg then - mag else mag)
  | _ => None
  end.

(** [x / y] on floats: [ZeroDivisionError] when [y] is zero. *)
Definition truediv (x y : float) : option float :=
  if PrimFloat.eqb y 0%float then None else Some (PrimFloat.div x y).

End Py.

(** ** [test_overlap] *)

(** The nested helper [convert_to_minutes]: ['HH:MM'] to minutes. The
    unpacking [hours, minutes = t_str.split(':')] needs exactly two parts. *)
Definition convert_to_minutes (t_str : string) : option Z :=
  match Py.split ":" t_str with
  | [hours; minutes] =>
      h ← Py.int hours; m ← Py.int minutes; Some (60 * h + m)
  | _ => None
  end.

(** The decision of [test_overlap] once the four times are in minutes. *)
Definition overlap_minutes (t1_st t1_end t2_st t2_end : Z) : bool :=
  if t1_end <? t1_st then
    if t2_end <? t2_st then true
    else (t1_st <? t2_end) || (t2_st <? t1_end)
  else if t2_end <? t2_st then
    (t2_st <? t1_end) || (t1_st <? t2_end)
  else if (t1_st >=? t2_end) || (t2_st >=? t1_end) then false
  else true.

Definition test_overlap (t1_st t1_end t2_st t2_end : string) : option bool :=
  t1_st ← convert_to_minutes t1_st;
  t1_end ← convert_to_minutes t1_end;
  t2_st ← convert_to_minutes t2_st;
  t2_end ← convert_to_minutes t2_end;
  Some (overlap_minutes t1_st t1_end t2_st t2_end).

(** ** [in_nested_list] *)

(** The values [in_nested_list] is applied to: integers, strings and lists
    of such values, nested to any depth. *)
#[warnings="-register-all"] Inductive pyval :=
  | PInt (z : Z)
  | PStr (s : string)
  | PList (l : list pyval).

(** Python's [==] on these values. *)
Fixpoint pyval_eqb (x y : pyval) : bool :=
  match x, y with
  | PInt a, PInt b => a =? b
  | PStr a, PStr b => String.eqb a b
  | PList l, PList k =>
      (fix go (l k : list pyval) : bool :=
         match l, k with
         | [], [] => true
         | x :: l', y :: k' => pyval_eqb x y && go l' k'
         | _, _ => false
         end) l k
  | _, _ => false
  end.

(** [in_nested_list(my_list, item)]: [item in my_list], or else [any] over
    the elements of [my_list] that are lists. The recursion is on the nesting
    of the list, here on the value [PList my_list]. *)
Fixpoint in_nested (v : pyval) (item : pyval) : bool :=
  match v with
  | PList my_list =>
      if existsb (pyval_eqb item) my_list then true
      else (fix any (l : list pyval) : bool :=
              match l with
              | [] => false
              | (PList _ as sublist) :: l' => in_nested sublist item || any l'
              | _ :: l' => any l'
              end) my_list
  | _ => false
  end.

Definition in_nested_list (my_list : list pyval) (item : pyval) : bool :=
  in_nested (PList my_list) item.


(** ** The CP-SAT model *)

(** Variables are numbered in creation order. A literal is a Boolean
    variable or its negation ([x.Not()]). *)
Definition var := nat.

Inductive lit :=
  | Pos (v : var)
  | Neg (v : var).

Definition lit_not (l : lit) : lit :=
  match l with Pos v => Neg v | Neg v => Pos v end.

(** Integer expressions, as Python's overloaded [+], [-], [*] build them. *)
Inductive expr :=
  | Const (c : Z)
  | V (v : var)
  | Plus (a b : expr)
  | Minus (a b : expr)
  | Times (a : expr) (c : Z).

(** A literal used as a number: [x] or [1 - x]. *)
Definition lit_expr (l : lit) : expr :=
  match l with Pos v => V v | Neg v => Minus (Const 1) (V v) end.

(** Python's [sum(es)]: [0 + e1 + e2 + ...]. *)
Definition esum (es : list expr) : expr := fold_left Plus es (Const 0).

Inductive cmp := Le | Ge | Lt | Gt | Eq.

Inductive constraint :=
  (** [model.Add(lhs op rhs)], with the literals of [.OnlyEnforceIf(...)] *)
  | Linear (lhs : expr) (op : cmp) (rhs : expr) (enforce : list lit)
  (** [model.AddBoolOr(literals)] *)
  | BoolOr (literals : list lit)
  (** [model.AddMaxEquality(target, exprs)] *)
  | MaxEquality (target : expr) (exprs : list expr)
  (** [model.AddMinEquality(target, exprs)] *)
  | MinEquality (target : expr) (exprs : list expr).

Record CpModel := {
  variables : list (Z * Z);          (* domain [lb, ub] of each variable *)
  constraints : list constraint;
}.

(** *** Semantics *)

Definition assignment := var → Z.

Section Semantics.
Variable a : assignment.

Definition lit_true (l : lit) : bool :=
  match l with Pos v => negb (a v =? 0) | Neg v => a v =? 0 end.

Fixpoint eval (e : expr) : Z :=
  match e with
  | Const c => c
  | V v => a v
  | Plus x y => eval x + eval y
  | Minus x y => eval x - eval y
  | Times x c => eval x * c
  end.

Definition cmp_holds (op : cmp) (x y : Z) : bool :=
  match op with
  | Le => x <=? y
  | Ge => x >=? y
  | Lt => x <? y
  | Gt => x >? y
  | Eq => x =? y
  end.

Definition holds (c : constraint) : bool :=
  match c with
  | Linear lhs op rhs enforce =>
      if forallb lit_true enforce then cmp_holds op (eval lhs) (eval rhs)
      else true
  | BoolOr ls => existsb lit_true ls
  | MaxEquality t es =>
      match map eval es with
      | [] => false
      | x :: xs => eval t =? fold_left Z.max xs x
      end
  | MinEquality t es =>
      match map eval es with
      | [] => false
      | x :: xs => eval t =? fold_left Z.min xs x
      end
  end.

Definition in_domain (v : var) (dom : Z * Z) : bool :=
  (dom.1 <=? a v) && (a v <=? dom.2).

(** A feasible solution: every variable in its domain, every constraint
    satisfied. *)
Definition feasible (m : CpModel) : Prop :=
  (∀ v dom, variables m !! v = Some dom → in_domain v dom = true) ∧
  (∀ c, c ∈ constraints m → holds c = true).

(** The weighted sum the objective adds for one collection of terms. *)
Definition weighted_sum (es : list expr) (coeffs : list Z) : Z :=
  foldr Z.add 0 (zip_with (λ e c, eval e * c) es coeffs).
End Semantics.

(** Assignments given as the list of the variables' values. *)
Definition values (l : list Z) : assignment := λ v, default 0 (l !! v).

Definition feasibleb (m : CpModel) (l : list Z) : bool :=
  forallb (λ '(v, dom), in_domain (values l) v dom)
          (imap (λ v dom, (v, dom)) (variables m)) &&
  forallb (holds (values l)) (constraints m).

(** ** Building a model: state and errors *)

(** The state the program mutates while it assembles the model: the model
    itself and the four objective lists of [solve_shift_scheduling]. *)
Record State := {
  model : CpModel;
  obj_int_vars : list var;
  obj_int_coeffs : list Z;
  obj_bool_vars : list lit;
  obj_bool_coeffs : list Z;
}.

Definition init : State :=
  {| model := {| variables := []; constraints := [] |};
     obj_int_vars := []; obj_int_coeffs := [];
     obj_bool_vars := []; obj_bool_coeffs := [] |}.

(** A computation that may raise (a [KeyError], [IndexError], [ValueError],
    ...) and otherwise returns a value and the new state. *)
Definition M (A : Type) : Type := State → option (A * State).

Definition M_ret {A} (x : A) : M A := λ st, Some (x, st).
Definition M_bind {A B} (f : A → M B) (m : M A) : M B :=
  λ st, match m st with Some (x, st') => f x st' | None => None end.
(** A pure lookup that may raise. *)
Definition try {A} (o : option A) : M A :=
  λ st, match o with Some x => Some (x, st) | None => None end.

#[global] Instance M_mret : MRet M := @M_ret.
#[global] Instance M_mbind : MBind M := @M_bind.

(** [for x in l: body(x)] *)
Fixpoint for_ {A} (l : list A) (body : A → M unit) : M unit :=
  match l with
  | [] => mret ()
  | x :: l' => body x ;; for_ l' body
  end.

(** [when b: body] for an [if] without [else]. *)
Definition when (b : bool) (body : M unit) : M unit :=
  if b then body else mret ().

Definition update_model (f : CpModel → CpModel) : M unit :=
  λ st, Some ((), {| model := f (model st);
                     obj_int_vars := obj_int_vars st;
                     obj_int_coeffs := obj_int_coeffs st;
                     obj_bool_vars := obj_bool_vars st;
                     obj_bool_coeffs := obj_bool_coeffs st |}).

Definition NewIntVar (lb ub : Z) : M var :=
  λ st, let v := length (variables (model st)) in
        (update_model (λ m, {| variables := variables m ++ [(lb, ub)];
                               constraints := constraints m |}) ;; mret v) st.

Definition NewBoolVar : M var := NewIntVar 0 1.

Definition add_constraint (c : constraint) : M unit :=
  update_model (λ m, {| variables := variables m;
                        constraints := constraints m ++ [c] |}).

Definition Add (lhs : expr) (op : cmp) (rhs : expr) : M unit :=
  add_constraint (Linear lhs op rhs []).
Definition AddOnlyEnforceIf (lhs : expr) (op : cmp) (rhs : expr) (l : lit) : M unit :=
  add_constraint (Linear lhs op rhs [l]).
Definition AddBoolOr (ls : list lit) : M unit := add_constraint (BoolOr ls).
Definition AddMaxEquality (t : expr) (es : list expr) : M unit :=
  add_constraint (MaxEquality t es).
Definition AddMinEquality (t : expr) (es : list expr) : M unit :=
  add_constraint (MinEquality t es).

(** [obj_int_vars.append(v); obj_int_coeffs.append(c)] *)
Definition obj_int_append (v : var) (c : Z) : M unit :=
  λ st, Some ((), {| model := model st;
                     obj_int_vars := obj_int_vars st ++ [v];
                     obj_int_coeffs := obj_int_coeffs st ++ [c];
                     obj_bool_vars := obj_bool_vars st;
                     obj_bool_coeffs := obj_bool_coeffs st |}).

(** [obj_bool_vars.append(l); obj_bool_coeffs.append(c)] *)
Definition obj_bool_append (l : lit) (c : Z) : M unit :=
  λ st, Some ((), {| model := model st;
                     obj_int_vars := obj_int_vars st;
                     obj_int_coeffs := obj_int_coeffs st;
                     obj_bool_vars := obj_bool_vars st ++ [l];
                     obj_bool_coeffs := obj_bool_coeffs st ++ [c] |}).

(** The value [model.Minimize] is given, under an assignment. *)
Definition objective (a : assignment) (st : State) : Z :=
  weighted_sum a (lit_expr <$> obj_bool_vars st) (obj_bool_coeffs st)
  + weighted_sum a (V <$> obj_int_vars st) (obj_int_coeffs st).

(** A loop that also updates local Python lists, carried as [acc]. *)
Fixpoint fold_ {A B} (l : list A) (acc : B) (body : B → A → M B) : M B :=
  match l with
  | [] => mret acc
  | x :: l' => acc' ← body acc x; fold_ l' acc' body
  end.

(** ** The soft-bound primitives *)

Definition len {A} (l : list A) : Z := Z.of_nat (length l).

(** [negated_bounded_span(works, start, length)] *)
Definition negated_bounded_span (works : list lit) (start length : Z)
  : option (list lit) :=
  (* Left border (start of works, or works[start - 1]) *)
  left ← (if start >? 0 then x ← Py.index works (start - 1); Some [x]
          else Some []);
  span ← mapM (λ i, lit_not <$> Py.index works (start + i)) (Py.range 0 length);
  (* Right border (end of works or works[start + length]) *)
  right ← (if start + length <? len works
           then x ← Py.index works (start + length); Some [x]
           else Some []);
  Some (left ++ span ++ right).

(** [add_soft_sequence_constraint(model, works, hard_min, soft_min, min_cost,
    soft_max, hard_max, max_cost, prefix)]; returns
    [(cost_literals, cost_coefficients)]. *)
Definition add_soft_sequence_constraint (works : list lit)
    (hard_min soft_min min_cost soft_max hard_max max_cost : Z)
  : M (list lit * list Z) :=
  let costs : list lit * list Z := ([], []) in
  (* Forbid sequences that are too short. *)
  for_ (Py.range 1 hard_min) (λ length,
    for_ (Py.range 0 (len works - length + 1)) (λ start,
      span ← try (negated_bounded_span works start length);
      AddBoolOr span)) ;;
  (* Penalize sequences that are below the soft limit. *)
  costs ← (if min_cost >? 0 then
    fold_ (Py.range hard_min soft_min) costs (λ costs length,
      fold_ (Py.range 0 (len works - length + 1)) costs (λ costs start,
        span ← try (negated_bounded_span works start length);
        lit ← NewBoolVar;
        AddBoolOr (span ++ [Pos lit]) ;;
        mret (costs.1 ++ [Pos lit],
              costs.2 ++ [min_cost * (soft_min - length)])))
    else mret costs);
  (* Penalize sequences that are above the soft limit. *)
  costs ← (if max_cost >? 0 then
    fold_ (Py.range (soft_max + 1) (hard_max + 1)) costs (λ costs length,
      fold_ (Py.range 0 (len works - length + 1)) costs (λ costs start,
        span ← try (negated_bounded_span works start length);
        lit ← NewBoolVar;
        AddBoolOr (span ++ [Pos lit]) ;;
        mret (costs.1 ++ [Pos lit],
              costs.2 ++ [max_cost * (length - soft_max)])))
    else mret costs);
  (* Just forbid any sequence of true variables with length hard_max + 1 *)
  for_ (Py.range 0 (len works - hard_max)) (λ start,
    window ← try (mapM (λ i, lit_not <$> Py.index works i)
                       (Py.range start (start + hard_max + 1)));
    AddBoolOr window) ;;
  mret costs.

(** [add_soft_sum_constraint(model, works, hard_min, soft_min, min_cost,
    soft_max, hard_max, max_cost, prefix)]; returns
    [(cost_variables, cost_coefficients)]. *)
Definition add_soft_sum_constraint (works : list lit)
    (hard_min soft_min min_cost soft_max hard_max max_cost : Z)
  : M (list var * list Z) :=
  let costs : list var * list Z := ([], []) in
  sum_var ← NewIntVar hard_min hard_max;
  (* This adds the hard constraints on the sum. *)
  Add (V sum_var) Eq (esum (lit_expr <$> works)) ;;
  (* Penalize sums below the soft_min target. *)
  costs ← (if (soft_min >? hard_min) && (min_cost >? 0) then
    delta ← NewIntVar (- len works) (len works);
    Add (V delta) Eq (Minus (Const soft_min) (V sum_var)) ;;
    excess ← NewIntVar 0 7;
    AddMaxEquality (V excess) [V delta; Const 0] ;;
    mret (costs.1 ++ [excess], costs.2 ++ [min_cost])
    else mret costs);
  (* Penalize sums above the soft_max target. *)
  costs ← (if (soft_max <? hard_max) && (max_cost >? 0) then
    delta ← NewIntVar (-7) 7;
    Add (V delta) Eq (Minus (V sum_var) (Const soft_max)) ;;
    excess ← NewIntVar 0 7;
    AddMaxEquality (V excess) [V delta; Const 0] ;;
    mret (costs.1 ++ [excess], costs.2 ++ [max_cost])
    else mret costs);
  mret costs.

(** ** The scheduling request *)

(** The entries of [data.json] the model assembly reads, after
    [json.loads]. JSON integers are [Z]; the JSON numbers the program uses in
    floating-point arithmetic ([normtid], the weekly hours of
    [ansat_arbejdstid], the duration [funktioner_tider[s][2]] after [float])
    are binary64 floats; the JSON objects are maps keyed by strings. An entry
    of [funktioner_tider] is [[start, end, duration]], an entry of
    [ansat_arbejdstid] is [[employee, hours]], an entry of
    [funktioner_max_uge] is [[s, max]] with [max] after [int]; the values of
    [funktioner_varighed] are taken after [int]. *)
Record Data := {
  skills : list (Z * Z * Z);
  requests : list (Z * Z * Z * Z);
  cover_demands : list (list Z);
  funktioner_funktion_all : list string;
  funktioner_vagt_index_sleep : list Z;
  funktioner_vagt_night_index_sleep : list Z;
  equalfunctions : list Z;
  equalfunctionsansatte : list (Z * list string);
  ansatte : list string;
  offset : Z;
  period_length : Z;
  number_of_weeks : Z;
  fixed_assignments : list (Z * Z * Z);
  desired_shift_transitions : list (Z * Z * Z * Z * Z);
  desired_day_transistions : list (Z * Z * Z * Z * Z);
  ansat_arbejdstid : list (string * float);
  funktioner_tider : gmap string (string * string * float);
  funktioner_varighed : gmap string Z;
  normtid : float;
  funktioner_max_uge : list (Z * Z);
  allow_overlap : list Z;
  allow_combination : list Z;
  ansatte_number_of_weekends_worked_8weeks : gmap string (list Z);
}.

(** What the assembly leaves in local variables for the decoding: the
    decision cube and the weekend bookkeeping. *)
Record Locals := MkLocals {
  work : gmap (Z * Z * Z) var;
  weekenddays_worked : gmap (Z * Z) var;
  weekenddays_worked_int : gmap (Z * Z) var;
  weekends_in_month : gmap Z var;
  total_weekends : gmap Z var;
}.

(** [sum(f(x) for x in l)] where evaluating [f(x)] may raise. *)
Definition gen_sum {A} (f : A → option expr) (l : list A) : option expr :=
  esum <$> mapM f l.

(** The pairs a generator [for x in l1 for y in l2] runs through. *)
Definition pairs {A B} (l1 : list A) (l2 : list B) : list (A * B) :=
  flat_map (λ x, map (pair x) l2) l1.

(** The recurring pattern [v = model.NewBoolVar(..); lits.append(v);
    model.AddBoolOr(lits); obj_bool_vars.append(v);
    obj_bool_coeffs.append(cost)]. *)
Definition penalized_clause (lits : list lit) (cost : Z) : M unit :=
  v ← NewBoolVar;
  AddBoolOr (lits ++ [Pos v]) ;;
  obj_bool_append (Pos v) cost.

Section Assembly.
Variable D : Data.

Definition night_shifts : list Z := funktioner_vagt_night_index_sleep D.
Definition shifts : list string := funktioner_funktion_all D.
Definition funktioner_liste : list Z := Py.range 0 (len (funktioner_funktion_all D)).
Definition funktioner_no_overlap : list Z :=
  filter (λ shift, shift ∉ allow_overlap D) funktioner_liste.
Definition funktioner_no_combination : list Z :=
  filter (λ shift, shift ∉ allow_combination D) funktioner_liste.

Definition num_employees : Z := len (ansatte D).
Definition num_employees_dummy : Z := len (ansatte D ++ ["?"%string]).
Definition num_weeks : Z := number_of_weeks D.
Definition num_shifts : Z := len shifts.
Definition num_days : Z := period_length D.

(** The sequence-constraint table of the program is empty. *)
Definition shift_constraints : list (Z * Z * Z * Z * Z * Z * Z) := [].

(** [float(funktioner_tider[str(s)][2]) < 6] *)
Definition short_shift (s : Z) : option bool :=
  t ← funktioner_tider D !! Py.str s; Some (PrimFloat.ltb t.2 6%float).

(** [ansat_arbejdstid[e][1]] *)
Definition arbejdstid (e : Z) : option float :=
  snd <$> Py.index (ansat_arbejdstid D) e.

(** The look-ups the early [print] calls perform. *)
Definition printed_lookups : option unit :=
  _ ← funktioner_varighed D !! Py.str 1;
  _ ← funktioner_tider D !! "1"%string;
  h ← arbejdstid 0;
  _ ← Py.int_of_float h;
  Some ().

(** [cover_demands[d][s-1]]: the head count the request asks for shift [s]
    on day [d]. *)
Definition CoverDemand (d s : Z) : option Z :=
  row ← Py.index (cover_demands D) d; Py.index row (s - 1).

(** [work[e, s, d] = model.NewBoolVar(..)] for every employee (dummy
    included), shift and day. *)
Definition create_work : M (gmap (Z * Z * Z) var) :=
  fold_ (Py.range 0 num_employees_dummy) ∅ (λ work e,
    fold_ (Py.range 0 num_shifts) work (λ work s,
      fold_ (Py.range 0 num_days) work (λ work d,
        v ← NewBoolVar; mret (<[(e, s, d) := v]> work)))).

Section Blocks.
Variable work : gmap (Z * Z * Z) var.

(** [work[e, s, d]] as an expression and as a literal. *)
Definition W (e s d : Z) : option expr := V <$> work !! (e, s, d).
Definition L (e s d : Z) : option lit := Pos <$> work !! (e, s, d).

(** Max shift per e per day. *)
Definition max_shift_per_day : M unit :=
  for_ (Py.range 0 num_employees) (λ e,
    for_ (Py.range 0 num_days) (λ d,
      total ← try (gen_sum (λ s, W e s d) (Py.range 0 num_shifts));
      Add total Le (Const 2) ;;
      total ← try (gen_sum (λ s, W e s d) (Py.range 0 num_shifts));
      Add total Ge (Const 1) ;;
      nocomb ← try (gen_sum (λ s, W e s d) funktioner_no_combination);
      Add nocomb Le (Const 1) ;;
      (* if shift duration < 6 hours shift must be combined with another shift *)
      for_ (Py.range 1 num_shifts) (λ s,
        short ← try (short_shift s);
        when short (
          total ← try (gen_sum (λ s, W e s d) (Py.range 0 num_shifts));
          l ← try (L e s d);
          AddOnlyEnforceIf total Gt (Const 1) l)))).

(** constraint if one shift duration < 6 hours other shift same day is
    not free (0) *)
Definition short_shift_not_free : M unit :=
  for_ (Py.range 1 num_shifts) (λ s,
    short ← try (short_shift s);
    when short (
      for_ (Py.range 0 num_days) (λ d,
        for_ (Py.range 0 num_employees) (λ e,
          l1 ← try (L e s d); l2 ← try (L e 0 d);
          AddBoolOr [lit_not l1; lit_not l2])))).

(** dummy *)
Definition dummy_min_one : M unit :=
  for_ (Py.range 0 num_days) (λ d,
    total ← try (gen_sum (λ s, W (num_employees_dummy - 1) s d)
                         (Py.range 0 num_shifts));
    Add total Ge (Const 1)).

(** dummy penalty *)
Definition dummy_penalty : M unit :=
  num_dummy ← try (gen_sum (λ '(s, d), W (num_employees_dummy - 1) s d)
                     (pairs (Py.range 1 num_shifts)
                            (Py.range (offset D) num_days)));
  num_dummy_v ← NewIntVar 0 (num_days * num_shifts);
  Add (V num_dummy_v) Eq num_dummy ;;
  obj_int_append num_dummy_v 300.

(** [test_overlap] on the time windows of two shifts. *)
Definition shifts_overlap (s1 s2 : Z) : option bool :=
  t1 ← funktioner_tider D !! Py.str s1;
  t2 ← funktioner_tider D !! Py.str s2;
  test_overlap t1.1.1 t1.1.2 t2.1.1 t2.1.2.

(** constraint where 2 shifts are assigned to employee, these must not
    overlap *)
Definition no_overlap : M unit :=
  for_ (Py.combinations2 funktioner_no_overlap) (λ '(s1, s2),
    overlap ← try (shifts_overlap s1 s2);
    when overlap (
      for_ (Py.range 0 num_days) (λ d,
        for_ (Py.range 0 num_employees) (λ e,
          l1 ← try (L e s1 d); l2 ← try (L e s2 d);
          AddBoolOr [lit_not l1; lit_not l2])))).

(** constraint if overlap make sure 2. shift same day is not 0 to avoid
    e getting overlap when free *)
Definition overlap_not_free : M unit :=
  for_ (allow_overlap D) (λ s,
    for_ (Py.range 0 num_days) (λ d,
      for_ (Py.range 0 num_employees) (λ e,
        l1 ← try (L e s d); l2 ← try (L e 0 d);
        AddBoolOr [lit_not l1; lit_not l2]))).

(** Fixed assignments. *)
Definition fixed : M unit :=
  for_ (fixed_assignments D) (λ '(e, s, d),
    when (d >? offset D - 1) (
      w ← try (W e s d); Add w Eq (Const 1))).

(** Employee requests *)
Definition employee_requests : M unit :=
  for_ (requests D) (λ '(e, s, d, w),
    when (d >? offset D - 1) (
      if w =? 0 then x ← try (W e s d); Add x Eq (Const 1)
      else l ← try (L e s d); obj_bool_append l w)).

(** constraint workers needed = workers assigned *)
Definition cover : M unit :=
  for_ (Py.range 0 num_days) (λ d,
    for_ (Py.range 1 num_shifts) (λ s,
      needed ← try (CoverDemand d s);
      total ← try (gen_sum (λ e, W e s d) (Py.range 0 num_employees_dummy));
      Add total Eq (Const needed))).

(** rest after nightshift *)
Definition rest_after_night : M unit :=
  for_ night_shifts (λ night_shift,
    for_ (Py.range 0 num_employees) (λ e,
      for_ (Py.range 0 (num_days - 1)) (λ d,
        off ← try (W e 0 (d + 1));
        l ← try (L e night_shift d);
        AddOnlyEnforceIf off Eq (Const 1) l))).

(** max 1 nightshift indenfor 7 dage *)
Definition max_one_night_in_7_days : M unit :=
  for_ (Py.range 0 num_employees) (λ e,
    for_ (Py.range (offset D) (num_days - 7)) (λ d,
      nights ← try (gen_sum (λ '(s, x), W e s x)
                      (pairs night_shifts (Py.range d (d + 7))));
      Add nights Le (Const 1))).

(** max shifts *)
Definition max_shifts_per_week : M unit :=
  for_ (Py.range 0 num_employees) (λ e,
    for_ (funktioner_max_uge D) (λ '(s, max),
      for_ (Py.range 0 num_weeks) (λ w,
        shifts_worked_sevendays ←
          try (gen_sum (λ x, W e s x) (Py.range (w * 7) (w * 7 + 6)));
        let max_shifts := max in
        shifts_worked ← NewIntVar 0 7;
        Add (V shifts_worked) Eq shifts_worked_sevendays ;;
        let over_penalty_shifts := 4 in
        excess_shifts ← NewIntVar (-7) 7;
        Add (V excess_shifts) Eq (Minus (Const max_shifts) (V shifts_worked)) ;;
        obj_int_append excess_shifts over_penalty_shifts))).

(** [sum(work[e, s, d] * int(funktioner_varighed[str(s)]) for s in
    range(1, num_shifts) for d in range(offset, num_days))] *)
Definition hours_of (e : Z) : option expr :=
  gen_sum (λ '(s, d), w ← W e s d;
                      h ← funktioner_varighed D !! Py.str s;
                      Some (Times w h))
          (pairs (Py.range 1 num_shifts) (Py.range (offset D) num_days)).

(** fordel timer, max timer *)
Definition max_hours : M unit :=
  for_ (Py.range 0 num_employees) (λ e,
    num_hours_worked ← try (hours_of e);
    max_workhour ← try (h ← arbejdstid e;
                        q ← Py.truediv (PrimFloat.mul 37 (normtid D)) h;
                        Py.int_of_float q);
    hours_worked ← NewIntVar 0 max_workhour;
    Add (V hours_worked) Eq num_hours_worked ;;
    let penalty := -10 in
    excess_workhours ← NewIntVar 0 (num_days * 24);
    Add (V excess_workhours) Eq (Minus (Const max_workhour) (V hours_worked)) ;;
    obj_int_append excess_workhours penalty).

(** [sum(weekenddays_worked[e, w] for w in range(number_of_weeks))] *)
Definition weekends_sum (ww : gmap (Z * Z) var) (e : Z) : option expr :=
  gen_sum (λ w, V <$> ww !! (e, w)) (Py.range 0 (number_of_weeks D)).

(** One pass of the loop over the weeks of employee [e]: the Boolean
    [weekenddays_worked[e, w]] and the count [weekenddays_worked_int[e, w]]
    of week [w]. *)
Definition weekend_of_week (e : Z) (loc : Locals) (w : Z) : M Locals :=
  b ← NewBoolVar;
  ww ← NewBoolVar;
  wwi ← NewIntVar 0 (number_of_weeks D * 3);
  _ ← NewIntVar 0 (number_of_weeks D);
  satsun ← try (gen_sum (λ s, sat ← W e s (w * 7 + 5);
                              sun ← W e s (w * 7 + 6);
                              Some (Plus sat sun))
                  (Py.range 1 num_shifts));
  fri ← try (gen_sum (λ friday, W e friday (w * 7 + 4)) night_shifts);
  Add (V wwi) Eq (Plus satsun fri) ;;
  AddOnlyEnforceIf (V wwi) Gt (Const 0) (Pos b) ;;
  AddOnlyEnforceIf (V wwi) Eq (Const 0) (Neg b) ;;
  AddOnlyEnforceIf (V ww) Eq (Const 1) (Pos b) ;;
  AddOnlyEnforceIf (V ww) Eq (Const 0) (Neg b) ;;
  mret (MkLocals work
          (<[(e, w) := ww]> (weekenddays_worked loc))
          (<[(e, w) := wwi]> (weekenddays_worked_int loc))
          (weekends_in_month loc)
          (total_weekends loc)).

(** One pass of the loop over the employees. *)
Definition weekends_of_employee (loc : Locals) (e : Z) : M Locals :=
  let hist := ansatte_number_of_weekends_worked_8weeks D in
  loc ← fold_ (Py.range 0 (number_of_weeks D)) loc (weekend_of_week e);
  (* avoid two weekends in a row *)
  let cost := 8 in
  for_ (Py.range 0 (number_of_weeks D - 1)) (λ wc,
    w1 ← try (weekenddays_worked loc !! (e, wc));
    w2 ← try (weekenddays_worked loc !! (e, wc + 1));
    penalized_clause [Neg w1; Neg w2] cost) ;;
  (* max 2 weekends per month *)
  wim ← NewIntVar 0 2;
  total ← try (weekends_sum (weekenddays_worked loc) e);
  Add (V wim) Eq (Minus total (Const 1)) ;;
  let penalty := 2 in
  obj_int_append wim penalty ;;
  tw ← NewIntVar 0 (number_of_weeks D + 8);
  carried ← try (name ← Py.index (ansatte D) e;
                 counts ← hist !! name; Py.index counts 0);
  total ← try (weekends_sum (weekenddays_worked loc) e);
  Add (V tw) Eq (Plus (Const carried) total) ;;
  mret (MkLocals work
          (weekenddays_worked loc)
          (weekenddays_worked_int loc)
          (<[e := wim]> (weekends_in_month loc))
          (<[e := tw]> (total_weekends loc))).

(** equalize number of weekends worked inc friday night *)
Definition weekends : M Locals :=
  loc ← fold_ (Py.range 0 num_employees) (MkLocals work ∅ ∅ ∅ ∅)
              weekends_of_employee;
  (* equalize number of weekends with work over 12 weeks *)
  min_fair_weekends_12weeks ← NewIntVar 0 (number_of_weeks D + 8);
  max_fair_weekends_12weeks ← NewIntVar 0 (number_of_weeks D + 8);
  totals ← try (mapM (λ e, V <$> total_weekends loc !! e)
                     (Py.range 0 num_employees));
  AddMinEquality (V min_fair_weekends_12weeks) totals ;;
  totals ← try (mapM (λ e, V <$> total_weekends loc !! e)
                     (Py.range 0 num_employees));
  AddMaxEquality (V max_fair_weekends_12weeks) totals ;;
  weekends_diff_12weeks ← NewIntVar 0 (number_of_weeks D + 8);
  Add (V weekends_diff_12weeks) Eq
      (Minus (V max_fair_weekends_12weeks) (V min_fair_weekends_12weeks)) ;;
  let penalty := 4 in
  obj_int_append weekends_diff_12weeks penalty ;;
  mret loc.

(** [sum(work[e, s, d] for s in ss for d in range(offset, num_days))] *)
Definition count_of (e : Z) (ss : list Z) : option expr :=
  gen_sum (λ '(s, d), W e s d) (pairs ss (Py.range (offset D) num_days)).

(** fordel nattevagter via equality for alle nattevagter og fordel
    weekender; night_shifts distrubuted equally across all nightshifts;
    equalfunctionsansatte *)
Definition fairness : M unit :=
  '(sum_of_shifts, sum_of_equalfunctions) ←
    fold_ (Py.range 0 num_employees)
          ((∅, ∅) : gmap Z var * gmap Z var) (λ '(sos, soe) e,
      (* nigt_shifts *)
      v ← NewIntVar 0 num_days;
      c ← try (count_of e night_shifts);
      Add (V v) Eq c ;;
      (* equalfunctions *)
      u ← NewIntVar 0 num_days;
      c ← try (count_of e (equalfunctions D));
      Add (V u) Eq c ;;
      mret (<[e := v]> sos, <[e := u]> soe));
  (* night_shifts distrubuted equally across all nightshifts: *)
  sum_of_shifts_night ←
    fold_ (Py.range 0 num_employees) (∅ : gmap Z var) (λ sosn e,
      v ← NewIntVar 0 num_days;
      c ← try (count_of e night_shifts);
      Add (V v) Eq c ;;
      mret (<[e := v]> sosn));
  for_ night_shifts (λ s,
    min_fair_shift_night ← NewIntVar 0 num_days;
    max_fair_shift_night ← NewIntVar 0 num_days;
    mins ← try (mapM (λ e, V <$> sum_of_shifts_night !! e)
                     (Py.range 0 num_employees));
    AddMinEquality (V min_fair_shift_night) mins ;;
    maxs ← try (mapM (λ e, V <$> sum_of_shifts !! e)
                     (Py.range 0 num_employees));
    AddMaxEquality (V max_fair_shift_night) maxs ;;
    nightshift_diff ← NewIntVar 0 num_days;
    Add (V nightshift_diff) Eq
        (Minus (V max_fair_shift_night) (V min_fair_shift_night)) ;;
    let penalty := 4 in
    obj_int_append nightshift_diff penalty) ;;
  (* equalfunctionsansatte *)
  _ ← fold_ (equalfunctionsansatte D) sum_of_shifts
    (λ sum_of_shifts '(s, ansatte_in_shift),
      sum_of_shifts ← fold_ ansatte_in_shift sum_of_shifts (λ sos e,
        i ← try (Py.list_index e (ansatte D));
        v ← NewIntVar 0 num_days;
        c ← try (gen_sum (λ d, W i s d) (Py.range (offset D) num_days));
        Add (V v) Eq c ;;
        mret (<[i := v]> sos));
      min_fair_equalfunctions ← NewIntVar 0 num_days;
      max_fair_equalfunctions ← NewIntVar 0 num_days;
      mins ← try (mapM (λ e, i ← Py.list_index e (ansatte D);
                             V <$> sum_of_equalfunctions !! i)
                       ansatte_in_shift);
      AddMinEquality (V min_fair_equalfunctions) mins ;;
      maxs ← try (mapM (λ e, i ← Py.list_index e (ansatte D);
                             V <$> sum_of_equalfunctions !! i)
                       ansatte_in_shift);
      AddMaxEquality (V max_fair_equalfunctions) maxs ;;
      equalfunctions_diff ← NewIntVar 0 num_days;
      Add (V equalfunctions_diff) Eq
          (Minus (V max_fair_equalfunctions) (V min_fair_equalfunctions)) ;;
      let penalty := 12 in
      obj_int_append equalfunctions_diff penalty ;;
      mret sum_of_shifts);
  mret ().

(** [int(normtid * c * ansat_arbejdstid[e][1] / 37)] *)
Definition month_bound (c : float) (e : Z) : option Z :=
  h ← arbejdstid e;
  Py.int_of_float
    (PrimFloat.div (PrimFloat.mul (PrimFloat.mul (normtid D) c) h) 37).

(** limit workhours *)
Definition limit_workhours : M unit :=
  month_end_hours ←
    fold_ (Py.range 0 num_employees) (∅ : gmap Z var) (λ meh e,
      lo ← try (month_bound 0.01 e);
      hi ← try (month_bound 1.2 e);
      v ← NewIntVar lo hi;
      mret (<[e := v]> meh));
  for_ (Py.range 0 num_employees) (λ e,
    tmp ← try (hours_of e);
    v ← try (month_end_hours !! e);
    Add (V v) Eq tmp).

(** skills *)
Definition skill_rules : M unit :=
  for_ (skills D) (λ '(e, s, k),
    when (k =? 0) (
      (* avoid conflicts by skillschange with month change *)
      for_ (Py.range (offset D) num_days) (λ d,
        (* avoid fixed assignment conflicts *)
        when (negb (Py.mem (e, s, d) (fixed_assignments D))) (
          w ← try (W e s d); Add w Eq (Const 0))))).

(** A transition [first -> second]: a hard implication when [cost] is
    zero, a clause with a rewarded literal otherwise. *)
Definition transition (first second : Z * Z * Z) (cost : Z) : M unit :=
  let '(e1, s1, d1) := first in
  let '(e2, s2, d2) := second in
  l1 ← try (L e1 s1 d1);
  l2 ← try (L e2 s2 d2);
  if cost =? 0 then
    AddOnlyEnforceIf (lit_expr l2) Eq (Const 1) l1
  else
    v ← NewBoolVar;
    AddBoolOr [lit_not l1; l2; Pos v] ;;
    obj_bool_append (Pos v) (-1 * cost).

(** favor desired_day_transistions *)
Definition day_transitions : M unit :=
  for_ (desired_day_transistions D)
    (λ '(first_shift, first_weekday, second_shift, second_weekday, cost),
      for_ (Py.range 0 num_employees) (λ e,
        for_ (Py.range 0 num_weeks) (λ w,
          transition (e, first_shift, 7 * w + first_weekday)
                     (e, second_shift, 7 * w + second_weekday) cost))).

(** rewarded - desired_shift_transitions *)
Definition shift_transitions : M unit :=
  for_ (desired_shift_transitions D)
    (λ '(first_shift, first_day, next_shift, next_day, cost),
      for_ (Py.range 0 num_employees) (λ e,
        for_ (Py.range 0 (num_days - next_day)) (λ d,
          transition (e, first_shift, d + first_day)
                     (e, next_shift, d + next_day) cost))).

(** One penalized pair [not work[e, s, d1] or work[e, 0, d2] or v]. *)
Definition avoid (e s d1 d2 cost : Z) : M unit :=
  l1 ← try (L e s d1);
  l2 ← try (L e 0 d2);
  penalized_clause [lit_not l1; l2] cost.

(** avoid 2 consecutive weekends *)
Definition avoid_consecutive_weekends : M unit :=
  for_ (Py.range 0 num_employees) (λ e,
    for_ (Py.range 0 (num_weeks - 2)) (λ w,
      (* sat+sun *)
      for_ (funktioner_vagt_index_sleep D) (λ s,
        let cost := 8 in
        avoid e s (w * 7 + 5) (w * 7 + 12) cost ;;
        avoid e s (w * 7 + 6) (w * 7 + 13) cost ;;
        avoid e s (w * 7 + 5) (w * 7 + 13) cost ;;
        avoid e s (w * 7 + 6) (w * 7 + 12) cost) ;;
      (* friday lateshifts *)
      for_ night_shifts (λ s,
        let cost := 8 in
        avoid e s (w * 7 + 4) (w * 7 + 11) cost ;;
        avoid e s (w * 7 + 4) (w * 7 + 12) cost ;;
        avoid e s (w * 7 + 4) (w * 7 + 13) cost))).

(** Shift constraints *)
Definition shift_sequences : M unit :=
  for_ shift_constraints
    (λ '(shift, hard_min, soft_min, min_cost, soft_max, hard_max, max_cost),
      for_ (Py.range 0 num_employees) (λ e,
        works ← try (mapM (λ d, L e shift d) (Py.range 0 num_days));
        '(variables, coeffs) ←
          add_soft_sequence_constraint works hard_min soft_min min_cost
                                       soft_max hard_max max_cost;
        for_ (zip variables coeffs) (λ '(l, c), obj_bool_append l c))).
End Blocks.

(** The model assembly of [solve_shift_scheduling], up to
    [model.Minimize]. *)
Definition solve_shift_scheduling : M Locals :=
  try printed_lookups ;;
  work ← create_work;
  max_shift_per_day work ;;
  short_shift_not_free work ;;
  dummy_min_one work ;;
  dummy_penalty work ;;
  no_overlap work ;;
  overlap_not_free work ;;
  fixed work ;;
  employee_requests work ;;
  cover work ;;
  rest_after_night work ;;
  max_one_night_in_7_days work ;;
  max_shifts_per_week work ;;
  max_hours work ;;
  loc ← weekends work;
  fairness work ;;
  limit_workhours work ;;
  skill_rules work ;;
  day_transitions work ;;
  shift_transitions work ;;
  avoid_consecutive_weekends work ;;
  shift_sequences work ;;
  mret loc.
End Assembly.

(** * Vocabulary of the specification and of the proofs *)

(** Appending constraints is all that the clause-emitting loops do to the
    state. *)
Definition append_constraints (cs : list constraint) (st : State) : State :=
  {| model := {| variables := variables (model st);
                 constraints := constraints (model st) ++ cs |};
     obj_int_vars := obj_int_vars st;
     obj_int_coeffs := obj_int_coeffs st;
     obj_bool_vars := obj_bool_vars st;
     obj_bool_coeffs := obj_bool_coeffs st |}.

(** The two pairs of objective lists stay parallel. *)
Definition parallel (st : State) : Prop :=
  length (obj_int_vars st) = length (obj_int_coeffs st) ∧
  length (obj_bool_vars st) = length (obj_bool_coeffs st).

(** [extends st st']: [st'] has everything [st] has, at the same places. *)
Record extends (st st' : State) : Prop := {
  ext_constraints : ∀ c, c ∈ constraints (model st) → c ∈ constraints (model st');
  ext_variables : ∀ v dom,
    variables (model st) !! v = Some dom → variables (model st') !! v = Some dom;
  ext_obj_int_vars : ∀ i v,
    obj_int_vars st !! i = Some v → obj_int_vars st' !! i = Some v;
  ext_obj_int_coeffs : ∀ i c,
    obj_int_coeffs st !! i = Some c → obj_int_coeffs st' !! i = Some c;
  ext_parallel : parallel st → parallel st';
}.

(** A computation is monotone when it only ever extends the state. *)
Definition mono {A} (m : M A) : Prop :=
  ∀ st x st', m st = Some (x, st') → extends st st'.

(** [ran m x st]: at some point on the way to the final state [st], the
    computation [m] was run and returned [x]. *)
Definition ran {A} (m : M A) (x : A) (st : State) : Prop :=
  ∃ st1 st2, parallel st1 ∧ m st1 = Some (x, st2) ∧ extends st2 st.

Fixpoint sumZ (l : list Z) : Z :=
  match l with
  | [] => 0
  | x :: l' => x + sumZ l'
  end.

(** The value of [work[e, s, d]] in an assignment (0 where the cube has no
    such variable). *)
Definition worked (w : gmap (Z * Z * Z) var) (a : assignment) (e s d : Z) : Z :=
  from_option a 0 (w !! (e, s, d)).

(** The cube: every key in [P] has a variable, and every variable of the
    cube is Boolean. *)
Definition cube_inv (P : Z * Z * Z → Prop) (w : gmap (Z * Z * Z) var)
    (st : State) : Prop :=
  (∀ k, P k → is_Some (w !! k)) ∧
  (∀ k v, w !! k = Some v → variables (model st) !! v = Some (0, 1)).

Record assembled (D : Data) (loc : Locals) (st : State) : Prop := {
  asm_create_work : ran (create_work D) (work loc) st;
  asm_max_shift_per_day : ran (max_shift_per_day D (work loc)) () st;
  asm_no_overlap : ran (no_overlap D (work loc)) () st;
  asm_overlap_not_free : ran (overlap_not_free D (work loc)) () st;
  asm_cover : ran (cover D (work loc)) () st;
  asm_rest_after_night : ran (rest_after_night D (work loc)) () st;
  asm_max_one_night : ran (max_one_night_in_7_days D (work loc)) () st;
  asm_weekends : ran (weekends D (work loc)) loc st;
  asm_skill_rules : ran (skill_rules D (work loc)) () st;
}.

(** Number of employees among [0 .. n-1] assigned shift [s] on day [d]. *)
Definition headcount (w : gmap (Z * Z * Z) var) (a : assignment)
    (s d n : Z) : Z :=
  sumZ ((λ e, worked w a e s d) <$> Py.range 0 n).

(** The shift types of [ss] that employee [e] is assigned on day [d]. *)
Definition assigned_shifts (w : gmap (Z * Z * Z) var) (a : assignment)
    (e d : Z) (ss : list Z) : list Z :=
  filter (λ s, worked w a e s d = 1) ss.

(** What the code does guarantee about nights per week: the windows that
    start at [offset <= d < num_days - 7]. *)
Definition nights_in_window (D : Data) (w : gmap (Z * Z * Z) var)
    (a : assignment) (e d : Z) : Z :=
  sumZ ((λ '(s, x), worked w a e s x) <$> pairs (night_shifts D) (Py.range d (d + 7))).

(** A maximal contiguous run of [true]: [length] values from position
    [start], bounded on each side by [false] or by the end of the
    sequence. *)
Definition maximal_run (bs : list bool) (start length : nat) : Prop :=
  (0 < length)%nat ∧ (start + length ≤ List.length bs)%nat ∧
  (∀ i, (start ≤ i < start + length)%nat → bs !! i = Some true) ∧
  (start = 0%nat ∨ bs !! (start - 1)%nat = Some false) ∧
  ((start + length)%nat = List.length bs ∨ bs !! (start + length)%nat = Some false).

(** The clause a successfully built list of literals contributes. *)
Definition clause_of (o : option (list lit)) : list constraint :=
  from_option (λ ls, [BoolOr ls]) [] o.

(** The truth values of a sequence of literals. *)
Definition truth (works : list lit) (a : assignment) : list bool :=
  lit_true a <$> works.

(** The number of true literals of [works] (their sum as integers). *)
Definition works_sum (a : assignment) (works : list lit) : Z :=
  sumZ (eval a <$> (lit_expr <$> works)).

(** The objective contribution of the excess variables a primitive
    returns. *)
Definition contribution (a : assignment) (res : list var * list Z) : Z :=
  weighted_sum a (V <$> res.1) res.2.

(** The weekend duties of employee [e] in week [wk]: non-off shifts on
    Saturday and Sunday, night-classified shifts on Friday. *)
Definition weekend_duties (D : Data) (w : gmap (Z * Z * Z) var)
    (a : assignment) (e wk : Z) : Z :=
  sumZ ((λ s, worked w a e s (wk * 7 + 5) + worked w a e s (wk * 7 + 6))
          <$> Py.range 1 (num_shifts D))
  + sumZ ((λ friday, worked w a e friday (wk * 7 + 4)) <$> night_shifts D).

(** 1 when [e] worked the weekend of week [wk], 0 otherwise. *)
Definition worked_weekend (D : Data) (w : gmap (Z * Z * Z) var)
    (a : assignment) (e wk : Z) : Z :=
  if 0 <? weekend_duties D w a e wk then 1 else 0.

(** Number of weeks among [wks] whose weekend [e] worked. *)
Definition weekends_worked (D : Data) (w : gmap (Z * Z * Z) var)
    (a : assignment) (e : Z) (wks : list Z) : Z :=
  sumZ (worked_weekend D w a e <$> wks).

(** What is known of the weekend Booleans of the pairs in [P] and of the
    [weekends_in_month] variables of the employees in [Q]. *)
Definition ww_inv (D : Data) (w : gmap (Z * Z * Z) var) (P : Z * Z → Prop)
    (loc : Locals) (st : State) : Prop :=
  ∀ e wk, P (e, wk) →
    ∃ x, weekenddays_worked loc !! (e, wk) = Some x ∧
         ∀ a, feasible a (model st) → a x = worked_weekend D w a e wk.

Definition wim_inv (D : Data) (w : gmap (Z * Z * Z) var) (Q : Z → Prop)
    (loc : Locals) (st : State) : Prop :=
  ∀ e, Q e →
    ∃ x, weekends_in_month loc !! e = Some x ∧
         variables (model st) !! x = Some (0, 2) ∧
         (∃ i, obj_int_vars st !! i = Some x ∧ obj_int_coeffs st !! i = Some 2) ∧
         ∀ a, feasible a (model st) →
              a x = weekends_worked D w a e (Py.range 0 (number_of_weeks D)) - 1.

Definition wk_inv (D : Data) (w : gmap (Z * Z * Z) var) (P : Z * Z → Prop)
    (Q : Z → Prop) (loc : Locals) (st : State) : Prop :=
  parallel st ∧ ww_inv D w P loc st ∧ wim_inv D w Q loc st.

(** ** Vocabulary of the further properties *)

(** The lists found at any depth of a value, the value itself included
    when it is a list. *)
Fixpoint lists_of (v : pyval) : list (list pyval) :=
  match v with
  | PList l => l :: flat_map lists_of l
  | _ => []
  end.

(** The minutes of the day a time window covers: [st, en) when it does not
    wrap past midnight, [st, 24:00) and [00:00, en) when it does. *)
Definition in_window (st en m : Z) : Prop :=
  if en <? st then st ≤ m ∨ m < en else st ≤ m < en.

(** Number of occurrences of a character in a string. *)
Fixpoint count_char (c : ascii) (s : string) : nat :=
  match s with
  | EmptyString => 0
  | String x r => (if Ascii.eqb x c then 1 else 0) + count_char c r
  end.

(** The character of a decimal digit. *)
Definition digit_char (n : Z) : ascii := ascii_of_nat (48 + Z.to_nat n).

(** The string ['HH:MM'] of four digits. *)
Definition hh_mm (h1 h2 m1 m2 : Z) : string :=
  String (digit_char h1) (String (digit_char h2) (String ":"
    (String (digit_char m1) (String (digit_char m2) EmptyString)))).

(** What is known of the penalty literals a soft-bound loop has created so
    far: the two returned lists are parallel, every coefficient is positive,
    and for every [(length, start, c)] in [P] the clause of the span with its
    penalty literal is in the model and the literal is returned with
    coefficient [c]. *)
Definition pen_inv (works : list lit) (P : Z → Z → Z → Prop)
    (costs : list lit * list Z) (st : State) : Prop :=
  length costs.1 = length costs.2 ∧
  Forall (λ c, 0 < c) costs.2 ∧
  ∀ length start c, P length start c →
    ∃ span v i, negated_bounded_span works start length = Some span ∧
                costs.1 !! i = Some (Pos v) ∧ costs.2 !! i = Some c ∧
                BoolOr (span ++ [Pos v]) ∈ constraints (model st).

(** The spans [add_soft_sequence_constraint] penalizes, with their
    coefficients. *)
Definition penalized_spans (works : list lit)
    (hard_min soft_min min_cost soft_max hard_max max_cost : Z)
    (length start c : Z) : Prop :=
  (0 < min_cost ∧ hard_min ≤ length < soft_min ∧
   0 ≤ start < len works - length + 1 ∧ c = min_cost * (soft_min - length)) ∨
  (0 < max_cost ∧ soft_max + 1 ≤ length < hard_max + 1 ∧
   0 ≤ start < len works - length + 1 ∧ c = max_cost * (length - soft_max)).

(** Whether [add_soft_sum_constraint] penalizes sums below [soft_min], and
    sums above [soft_max]. *)
Definition lower_active (hard_min soft_min min_cost : Z) : bool :=
  (soft_min >? hard_min) && (min_cost >? 0).

Definition upper_active (soft_max hard_max max_cost : Z) : bool :=
  (soft_max <? hard_max) && (max_cost >? 0).

(** [keeps_bool st st']: the Boolean objective terms of [st] are still in
    [st'], at the same places. *)
Record keeps_bool (st st' : State) : Prop := {
  kb_vars : ∀ i l,
    obj_bool_vars st !! i = Some l → obj_bool_vars st' !! i = Some l;
  kb_coeffs : ∀ i c,
    obj_bool_coeffs st !! i = Some c → obj_bool_coeffs st' !! i = Some c;
}.

(** A computation is steady when it only ever appends to the Boolean
    objective lists. *)
Definition steady {A} (m : M A) : Prop :=
  ∀ st x st', m st = Some (x, st') → keeps_bool st st'.

(** [ran] that also keeps track of the Boolean objective terms. *)
Definition ranb {A} (m : M A) (x : A) (st : State) : Prop :=
  ∃ st1 st2, parallel st1 ∧ m st1 = Some (x, st2) ∧
             extends st2 st ∧ keeps_bool st2 st.

(** The objective holds the integer term [c * x], the Boolean term
    [c * l]. *)
Definition int_term (st : State) (x : var) (c : Z) : Prop :=
  ∃ i, obj_int_vars st !! i = Some x ∧ obj_int_coeffs st !! i = Some c.

Definition bool_term (st : State) (l : lit) (c : Z) : Prop :=
  ∃ i, obj_bool_vars st !! i = Some l ∧ obj_bool_coeffs st !! i = Some c.

(** The blocks of the assembly that [assembled] does not list. *)
Record assembled_rest (D : Data) (loc : Locals) (st : State) : Prop := {
  asm_short_shift_not_free : ranb (short_shift_not_free D (work loc)) () st;
  asm_dummy_min_one : ranb (dummy_min_one D (work loc)) () st;
  asm_dummy_penalty : ranb (dummy_penalty D (work loc)) () st;
  asm_fixed : ranb (fixed D (work loc)) () st;
  asm_employee_requests : ranb (employee_requests D (work loc)) () st;
  asm_max_shifts_per_week : ranb (max_shifts_per_week D (work loc)) () st;
  asm_max_hours : ranb (max_hours D (work loc)) () st;
  asm_weekends_bool : ranb (weekends D (work loc)) loc st;
  asm_fairness : ranb (fairness D (work loc)) () st;
  asm_limit_workhours : ranb (limit_workhours D (work loc)) () st;
  asm_day_transitions : ranb (day_transitions D (work loc)) () st;
  asm_shift_transitions : ranb (shift_transitions D (work loc)) () st;
  asm_avoid_consecutive_weekends :
    ranb (avoid_consecutive_weekends D (work loc)) () st;
}.

(** The keys of the cube lie in [P], every variable of the cube exists, and
    two keys never share a variable. *)
Definition cube_keys (P : Z * Z * Z → Prop) (w : gmap (Z * Z * Z) var)
    (st : State) : Prop :=
  (∀ k v, w !! k = Some v →
          P k ∧ (v < length (variables (model st)))%nat) ∧
  (∀ k1 k2 v, w !! k1 = Some v → w !! k2 = Some v → k1 = k2).

(** The hours employee [e] works from [offset] on: the sum of the
    durations of the assigned non-off shifts. *)
Definition hours_worked_by (D : Data) (w : gmap (Z * Z * Z) var)
    (a : assignment) (e : Z) : Z :=
  sumZ ((λ '(s, d), worked w a e s d
                    * default 0 (funktioner_varighed D !! Py.str s))
          <$> pairs (Py.range 1 (num_shifts D))
                    (Py.range (offset D) (num_days D))).

(** [int(37 * normtid / ansat_arbejdstid[e][1])] *)
Definition workhour_ceiling (D : Data) (e : Z) : option Z :=
  h ← arbejdstid D e;
  q ← Py.truediv (PrimFloat.mul 37 (normtid D)) h;
  Py.int_of_float q.

(** The non-off assignments of the dummy employee from [offset] on. *)
Definition dummy_assignments (D : Data) (w : gmap (Z * Z * Z) var)
    (a : assignment) : Z :=
  sumZ ((λ '(s, d), worked w a (num_employees_dummy D - 1) s d)
          <$> pairs (Py.range 1 (num_shifts D))
                    (Py.range (offset D) (num_days D))).

(** The days of week [wk] the weekly cap counts for shift [s]: the first
    six. *)
Definition counted_in_week (w : gmap (Z * Z * Z) var) (a : assignment)
    (e s wk : Z) : Z :=
  sumZ ((λ x, worked w a e s x) <$> Py.range (wk * 7) (wk * 7 + 6)).

(** Python's [max] and [min] of a list (0 on the empty list, which no
    feasible model takes them of). *)
Definition max_of (l : list Z) : Z :=
  match l with [] => 0 | x :: xs => fold_left Z.max xs x end.

Definition min_of (l : list Z) : Z :=
  match l with [] => 0 | x :: xs => fold_left Z.min xs x end.

(** [ansatte_number_of_weekends_worked_8weeks[ansatte[e]][0]]: the
    weekends employee [e] worked in the eight weeks before the horizon. *)
Definition carried_in (D : Data) (e : Z) : option Z :=
  name ← Py.index (ansatte D) e;
  counts ← ansatte_number_of_weekends_worked_8weeks D !! name;
  Py.index counts 0.

(** The weekends [e] worked over the lookback and the horizon. *)
Definition weekends_with_lookback (D : Data) (w : gmap (Z * Z * Z) var)
    (a : assignment) (e : Z) : Z :=
  default 0 (carried_in D e)
  + weekends_worked D w a e (Py.range 0 (number_of_weeks D)).

(** The night-classified shifts [e] works from [offset] on. *)
Definition night_count (D : Data) (w : gmap (Z * Z * Z) var)
    (a : assignment) (e : Z) : Z :=
  sumZ ((λ '(s, d), worked w a e s d)
          <$> pairs (night_shifts D) (Py.range (offset D) (num_days D))).

(** A dictionary of per-employee counters: for every employee in [P] it
    holds a variable that equals [f a e] in every feasible assignment. *)
Definition tally_inv (f : assignment → Z → Z) (P : Z → Prop)
    (m : gmap Z var) (st : State) : Prop :=
  ∀ e, P e → ∃ v, m !! e = Some v ∧
                  ∀ a, feasible a (model st) → a v = f a e.

(** What is known of the penalties for two worked weekends in a row of the
    employees in [Q]. *)
Definition row_inv (D : Data) (w : gmap (Z * Z * Z) var) (Q : Z → Prop)
    (st : State) : Prop :=
  ∀ e wc, Q e → 0 ≤ wc < number_of_weeks D - 1 →
    ∃ v, bool_term st (Pos v) 8 ∧
         ∀ a, feasible a (model st) →
              worked_weekend D w a e wc = 1 →
              worked_weekend D w a e (wc + 1) = 1 → a v = 1.

(** The shifts of [equalfunctions] that [e] works from [offset] on. *)
Definition equal_count (D : Data) (w : gmap (Z * Z * Z) var)
    (a : assignment) (e : Z) : Z :=
  sumZ ((λ '(s, d), worked w a e s d)
          <$> pairs (equalfunctions D) (Py.range (offset D) (num_days D))).

(** [ansatte.index(name)] (0 when the name is not listed, in which case
    the assembly raises). *)
Definition index_of (D : Data) (name : string) : Z :=
  default 0 (Py.list_index name (ansatte D)).

(** * Worked instances *)

(** A day row of the cube: 1 on the listed days, 0 elsewhere. *)
Definition row (n : Z) (days : list Z) : list Z :=
  (λ d, if bool_decide (d ∈ days) then 1 else 0) <$> Py.range 0 n.

Definition locals_of (r : option (Locals * State)) : Locals :=
  match r with Some (loc, _) => loc | None => MkLocals ∅ ∅ ∅ ∅ ∅ end.

Definition state_of {A} (r : option (A * State)) : State :=
  match r with Some (_, st) => st | None => init end.

(** One employee A and the dummy, two weeks of which the second is the
    current period ([offset = 7]). Shift 1 (08:00-16:00) may overlap and
    combine, shift 2 (10:00-18:00) may not, shift 3 (22:00-06:00) is the
    night shift; A is not eligible for shift 1. *)
Definition ex1 : Data := {|
  skills := [(0, 1, 0)];
  requests := [];
  cover_demands := (λ d, if bool_decide (d = 0) then [1; 1; 0]
                         else if bool_decide (d ∈ [9; 11]) then [0; 0; 1]
                         else [0; 0; 0]) <$> Py.range 0 14;
  funktioner_funktion_all := ["Sove"; "D1"; "D2"; "NV"]%string;
  funktioner_vagt_index_sleep := [];
  funktioner_vagt_night_index_sleep := [3];
  equalfunctions := [];
  equalfunctionsansatte := [];
  ansatte := ["A"%string];
  offset := 7;
  period_length := 14;
  number_of_weeks := 2;
  fixed_assignments := [];
  desired_shift_transitions := [];
  desired_day_transistions := [];
  ansat_arbejdstid := [("A"%string, 37%float)];
  funktioner_tider := list_to_map
    [("0", ("00:00", "00:00", 0%float)); ("1", ("08:00", "16:00", 8%float));
     ("2", ("10:00", "18:00", 8%float)); ("3", ("22:00", "06:00", 8%float))]%string;
  funktioner_varighed := list_to_map [("1", 8); ("2", 8); ("3", 8)]%string;
  normtid := 37%float;
  funktioner_max_uge := [];
  allow_overlap := [1];
  allow_combination := [1];
  ansatte_number_of_weekends_worked_8weeks := list_to_map [("A"%string, [2])];
|}.

(** A works shifts 1 and 2 on day 0 and the night shift on days 9 and 11,
    and is off otherwise; the dummy is always off. *)
Definition ex1_values : list Z :=
  (* employee A: off, shift 1, shift 2, night *)
  row 14 [1; 2; 3; 4; 5; 6; 7; 8; 10; 12; 13] ++ row 14 [0] ++ row 14 [0]
    ++ row 14 [9; 11] ++
  (* dummy *)
  row 14 (Py.range 0 14) ++ row 14 [] ++ row 14 [] ++ row 14 [] ++
  [ 0;            (* num_dummies *)
    16; 21;       (* hours_worked, excess_workhours *)
    0; 0; 0; 0;   (* week 0: b, weekenddays_worked, .._int, weekends *)
    1; 1; 1; 0;   (* week 1 *)
    0;            (* trans_avoid_2weekends *)
    0; 3;         (* weekends_in_month, total_weekends *)
    3; 3; 0;      (* min, max, difference over 12 weeks *)
    2; 0;         (* sum_of_shifts, sum_of_equalfunctions *)
    2;            (* sum_of_shifts_night *)
    2; 2; 0;      (* min, max, difference of night shifts *)
    16 ].         (* month_end_hours *)

Definition ex1_loc : Locals := locals_of (solve_shift_scheduling ex1 init).

Definition ex1_st : State := state_of (solve_shift_scheduling ex1 init).

(** One employee A and the dummy, four weeks, one day shift; A works the
    Saturdays of weeks 0 and 2. *)
Definition ex2 : Data := {|
  skills := [];
  requests := [];
  cover_demands :=
    (λ d, if bool_decide (d ∈ [5; 19]) then [1] else [0]) <$> Py.range 0 28;
  funktioner_funktion_all := ["Sove"; "DV"]%string;
  funktioner_vagt_index_sleep := [];
  funktioner_vagt_night_index_sleep := [];
  equalfunctions := [];
  equalfunctionsansatte := [];
  ansatte := ["A"%string];
  offset := 0;
  period_length := 28;
  number_of_weeks := 4;
  fixed_assignments := [];
  desired_shift_transitions := [];
  desired_day_transistions := [];
  ansat_arbejdstid := [("A"%string, 37%float)];
  funktioner_tider := list_to_map
    [("0", ("00:00", "00:00", 0%float)); ("1", ("08:00", "16:00", 8%float))]%string;
  funktioner_varighed := list_to_map [("1", 8)]%string;
  normtid := 37%float;
  funktioner_max_uge := [];
  allow_overlap := [];
  allow_combination := [];
  ansatte_number_of_weekends_worked_8weeks := list_to_map [("A"%string, [0])];
|}.

Definition ex2_values : list Z :=
  (* employee A: off, day shift *)
  row 28 (filter (λ d, d ∉ [5; 19]) (Py.range 0 28)) ++ row 28 [5; 19] ++
  (* dummy *)
  row 28 (Py.range 0 28) ++ row 28 [] ++
  [ 0;            (* num_dummies *)
    16; 21;       (* hours_worked, excess_workhours *)
    1; 1; 1; 0;   (* week 0: b, weekenddays_worked, .._int, weekends *)
    0; 0; 0; 0;   (* week 1 *)
    1; 1; 1; 0;   (* week 2 *)
    0; 0; 0; 0;   (* week 3 *)
    0; 0; 0;      (* trans_avoid_2weekends *)
    1; 2;         (* weekends_in_month, total_weekends *)
    2; 2; 0;      (* min, max, difference over 12 weeks *)
    0; 0;         (* sum_of_shifts, sum_of_equalfunctions *)
    0;            (* sum_of_shifts_night *)
    16 ].         (* month_end_hours *)

Definition ex2_loc : Locals := locals_of (solve_shift_scheduling ex2 init).

Definition ex2_st : State := state_of (solve_shift_scheduling ex2 init).

(** Eight Boolean variables, numbered 0 to 7. *)
Definition ex8_st : State :=
  {| model := {| variables := replicate 8 (0, 1); constraints := [] |};
     obj_int_vars := []; obj_int_coeffs := [];
     obj_bool_vars := []; obj_bool_coeffs := [] |}.

Definition ex8_works : list lit := Pos <$> seq 0 8.

Definition ex8_res : list var * list Z :=
  match add_soft_sum_constraint ex8_works 2 4 3 6 8 2 ex8_st with
  | Some (res, _) => res
  | None => ([], [])
  end.

Definition ex8_st' : State :=
  state_of (add_soft_sum_constraint ex8_works 2 4 3 6 8 2 ex8_st).

(** The values of the eight literals, then of [sum_var], the lower [delta]
    and [excess], the upper [delta] and [excess]. *)
Definition ex8_sum3 : list Z := [1; 1; 1; 0; 0; 0; 0; 0; 3; 1; 1; -3; 0].

Definition ex8_sum5 : list Z := [1; 1; 1; 1; 1; 0; 0; 0; 5; -1; 0; -1; 0].

Definition ex8_sum7 : list Z := [1; 1; 1; 1; 1; 1; 1; 0; 7; -3; 0; 1; 1].

(** Ten Boolean variables and the run-length constraint with bound [k]. *)
Definition ex10_st : State :=
  {| model := {| variables := replicate 10 (0, 1); constraints := [] |};
     obj_int_vars := []; obj_int_coeffs := [];
     obj_bool_vars := []; obj_bool_coeffs := [] |}.

Definition ex10_works : list lit := Pos <$> seq 0 10.

Definition ex10_accepts (k : Z) (l : list Z) : bool :=
  feasibleb (model (state_of
    (add_soft_sequence_constraint ex10_works k k 0 k k 0 ex10_st))) l.

(** ** Further instances *)

(** One employee A and the dummy, three weeks from [offset = 0]. Shift 1
    (08:00-16:00), the short shift 2 (16:00-20:00, combinable), the night
    shift 3. A is fixed on shift 1 on day 0, asks for it on days 1 (weight 0)
    and 2 (weight -2); shift 1 on a Monday forces shift 1 on the Tuesday. *)
Definition ex3 : Data := {|
  skills := [];
  requests := [(0, 1, 1, 0); (0, 1, 2, -2)];
  cover_demands :=
    (λ d, if bool_decide (d ∈ [0; 1; 5]) then [1; 0; 0]
          else if bool_decide (d = 2) then [1; 1; 0]
          else [0; 0; 0]) <$> Py.range 0 21;
  funktioner_funktion_all := ["Sove"; "DV"; "KV"; "NV"]%string;
  funktioner_vagt_index_sleep := [1];
  funktioner_vagt_night_index_sleep := [3];
  equalfunctions := [1];
  equalfunctionsansatte := [(1, ["A"%string])];
  ansatte := ["A"%string];
  offset := 0;
  period_length := 21;
  number_of_weeks := 3;
  fixed_assignments := [(0, 1, 0)];
  desired_shift_transitions := [(1, 0, 1, 1, 3)];
  desired_day_transistions := [(1, 0, 1, 1, 0); (1, 2, 1, 3, 5)];
  ansat_arbejdstid := [("A"%string, 37%float)];
  funktioner_tider := list_to_map
    [("0", ("00:00", "00:00", 0%float)); ("1", ("08:00", "16:00", 8%float));
     ("2", ("16:00", "20:00", 4%float)); ("3", ("22:00", "06:00", 8%float))]%string;
  funktioner_varighed := list_to_map [("1", 8); ("2", 4); ("3", 8)]%string;
  normtid := 148%float;
  funktioner_max_uge := [(1, 5)];
  allow_overlap := [];
  allow_combination := [2];
  ansatte_number_of_weekends_worked_8weeks := list_to_map [("A"%string, [1])];
|}.

(** A works shift 1 on days 0, 1, 2 and 5 (a Saturday), the short shift 2
    on day 2 as well, and is off otherwise; the dummy is always off. *)
Definition ex3_values : list Z :=
  (* employee A: off, shift 1, shift 2, night *)
  row 21 [3; 4; 6; 7; 8; 9; 10; 11; 12; 13; 14; 15; 16; 17; 18; 19; 20]
    ++ row 21 [0; 1; 2; 5] ++ row 21 [2] ++ row 21 [] ++
  (* dummy *)
  row 21 (Py.range 0 21) ++ row 21 [] ++ row 21 [] ++ row 21 [] ++
  [ 0;                      (* num_dummies *)
    4; 1; 0; 5; 0; 5;       (* shifts_worked, excess_shifts of weeks 0, 1, 2 *)
    36; 112;                (* hours_worked, excess_workhours *)
    1; 1; 1; 0;             (* week 0: b, weekenddays_worked, .._int, weekends *)
    0; 0; 0; 0;             (* week 1 *)
    0; 0; 0; 0;             (* week 2 *)
    0; 0;                   (* trans_avoid_2weekends *)
    0; 2;                   (* weekends_in_month, total_weekends *)
    2; 2; 0;                (* min, max, difference over 12 weeks *)
    0; 4;                   (* sum_of_shifts, sum_of_equalfunctions *)
    0;                      (* sum_of_shifts_night *)
    0; 0; 0;                (* min, max, difference of night shifts *)
    4;                      (* sum_of_shifts of A for function 1 *)
    4; 4; 0;                (* min, max, difference of equal functions *)
    36;                     (* month_end_hours *)
    1; 0; 0 ] ++            (* desired_day_transition, weeks 0, 1, 2 *)
  row 20 [2; 5] ++          (* desired_shift_transition, days 0 .. 19 *)
  [ 0; 0; 0; 0; 0; 0; 0 ].  (* two consecutive weekends *)

Definition ex3_loc : Locals := locals_of (solve_shift_scheduling ex3 init).

Definition ex3_st : State := state_of (solve_shift_scheduling ex3 init).

(** Two employees A and B and the dummy, two weeks from [offset = 0], the
    day shift 1 (08:00-16:00) and the night shift 2 (22:00-06:00). A and B
    share function 1; A worked one weekend in the eight weeks before the
    horizon, B none. *)
Definition ex4 : Data := {|
  skills := [];
  requests := [];
  cover_demands :=
    (λ d, if bool_decide (d ∈ [0; 1; 2; 5; 6; 12]) then [1; 0]
          else if bool_decide (d = 8) then [0; 1]
          else [0; 0]) <$> Py.range 0 14;
  funktioner_funktion_all := ["Sove"; "DV"; "NV"]%string;
  funktioner_vagt_index_sleep := [1];
  funktioner_vagt_night_index_sleep := [2];
  equalfunctions := [1];
  equalfunctionsansatte := [(1, ["A"; "B"]%string)];
  ansatte := ["A"; "B"]%string;
  offset := 0;
  period_length := 14;
  number_of_weeks := 2;
  fixed_assignments := [];
  desired_shift_transitions := [];
  desired_day_transistions := [];
  ansat_arbejdstid := [("A"%string, 37%float); ("B"%string, 37%float)];
  funktioner_tider := list_to_map
    [("0", ("00:00", "00:00", 0%float)); ("1", ("08:00", "16:00", 8%float));
     ("2", ("22:00", "06:00", 8%float))]%string;
  funktioner_varighed := list_to_map [("1", 8); ("2", 8)]%string;
  normtid := 148%float;
  funktioner_max_uge := [];
  allow_overlap := [];
  allow_combination := [];
  ansatte_number_of_weekends_worked_8weeks :=
    list_to_map [("A"%string, [1]); ("B"%string, [0])];
|}.

(** A works the day shift on days 0, 1, 5 and 12 (both Saturdays) and the
    night shift on day 8; B works the day shift on days 2 and 6 (the first
    Sunday); the dummy is always off. *)
Definition ex4_values : list Z :=
  (* employee A: off, day shift, night shift *)
  row 14 [2; 3; 4; 6; 7; 9; 10; 11; 13] ++ row 14 [0; 1; 5; 12]
    ++ row 14 [8] ++
  (* employee B *)
  row 14 [0; 1; 3; 4; 5; 7; 8; 9; 10; 11; 12; 13] ++ row 14 [2; 6]
    ++ row 14 [] ++
  (* dummy *)
  row 14 (Py.range 0 14) ++ row 14 [] ++ row 14 [] ++
  [ 0;                      (* num_dummies *)
    40; 108;                (* A: hours_worked, excess_workhours *)
    16; 132;                (* B *)
    1; 1; 1; 0;             (* A, week 0: b, weekenddays_worked, .._int,
                               weekends *)
    1; 1; 1; 0;             (* A, week 1 *)
    1;                      (* A: trans_avoid_2weekends *)
    1; 3;                   (* A: weekends_in_month, total_weekends *)
    1; 1; 1; 0;             (* B, week 0 *)
    0; 0; 0; 0;             (* B, week 1 *)
    0;                      (* B: trans_avoid_2weekends *)
    0; 1;                   (* B: weekends_in_month, total_weekends *)
    1; 3; 2;                (* min, max, difference over 12 weeks *)
    1; 4;                   (* A: sum_of_shifts, sum_of_equalfunctions *)
    0; 2;                   (* B *)
    1; 0;                   (* sum_of_shifts_night of A, of B *)
    0; 1; 1;                (* min, max, difference of night shifts *)
    4; 2;                   (* sum_of_shifts of A, of B for function 1 *)
    2; 4; 2;                (* min, max, difference of equal functions *)
    40; 16 ].               (* month_end_hours of A, of B *)

Definition ex4_loc : Locals := locals_of (solve_shift_scheduling ex4 init).

Definition ex4_st : State := state_of (solve_shift_scheduling ex4 init).

(** [ex2] with a fixed assignment on day 28, one past the horizon. *)
Definition ex2_fixed_past_horizon : Data := {|
  skills := skills ex2;
  requests := requests ex2;
  cover_demands := cover_demands ex2;
  funktioner_funktion_all := funktioner_funktion_all ex2;
  funktioner_vagt_index_sleep := funktioner_vagt_index_sleep ex2;
  funktioner_vagt_night_index_sleep := funktioner_vagt_night_index_sleep ex2;
  equalfunctions := equalfunctions ex2;
  equalfunctionsansatte := equalfunctionsansatte ex2;
  ansatte := ansatte ex2;
  offset := offset ex2;
  period_length := period_length ex2;
  number_of_weeks := number_of_weeks ex2;
  fixed_assignments := [(0, 1, 28)];
  desired_shift_transitions := desired_shift_transitions ex2;
  desired_day_transistions := desired_day_transistions ex2;
  ansat_arbejdstid := ansat_arbejdstid ex2;
  funktioner_tider := funktioner_tider ex2;
  funktioner_varighed := funktioner_varighed ex2;
  normtid := normtid ex2;
  funktioner_max_uge := funktioner_max_uge ex2;
  allow_overlap := allow_overlap ex2;
  allow_combination := allow_combination ex2;
  ansatte_number_of_weekends_worked_8weeks :=
    ansatte_number_of_weekends_worked_8weeks ex2;
|}.

(** The run-length primitive on ten Booleans with hard bounds 1 and 5,
    soft bounds 3 and 4, costs 2 and 3. *)
Definition ex10_soft_res : list lit * list Z :=
  match add_soft_sequence_constraint ex10_works 1 3 2 4 5 3 ex10_st with
  | Some (res, _) => res
  | None => ([], [])
  end.

Definition ex10_soft_st : State :=
  state_of (add_soft_sequence_constraint ex10_works 1 3 2 4 5 3 ex10_st).

(** A run of two and a run of five; every penalty literal set. *)
Definition ex10_runs : list Z :=
  [1; 1; 0; 0; 1; 1; 1; 1; 1; 0] ++ replicate 25 1.

(** * The claims that do not hold as they are worded *)

(** C2 as worded: one or two shift types a day, and exactly one as soon as
    one of them is non-combinable. *)
Definition single_shift_when_non_combinable (D : Data) : Prop :=
  ∀ loc st a e d,
    solve_shift_scheduling D init = Some (loc, st) →
    feasible a (model st) →
    0 ≤ e < num_employees D → 0 ≤ d < num_days D →
    let sh := assigned_shifts (work loc) a e d (Py.range 0 (num_shifts D)) in
    (1 ≤ length sh ≤ 2)%nat ∧
    ((∃ s, s ∈ sh ∧ s ∈ funktioner_no_combination D) → length sh = 1%nat).

(** C5 as worded: two overlapping shift types on one day only when both
    are overlap-allowed. *)
Definition overlap_only_when_both_allowed (D : Data) : Prop :=
  ∀ loc st a e d,
    solve_shift_scheduling D init = Some (loc, st) →
    feasible a (model st) →
    0 ≤ e < num_employees D → 0 ≤ d < num_days D →
    (∀ s1 s2, 0 ≤ s1 < num_shifts D → 0 ≤ s2 < num_shifts D → s1 ≠ s2 →
              shifts_overlap D s1 s2 = Some true →
              ¬ (s1 ∈ allow_overlap D ∧ s2 ∈ allow_overlap D) →
              ¬ (worked (work loc) a e s1 d = 1 ∧ worked (work loc) a e s2 d = 1)) ∧
    (∀ s, s ∈ allow_overlap D →
          ¬ (worked (work loc) a e s d = 1 ∧ worked (work loc) a e 0 d = 1)).

(** C6 as worded: an ineligible assignment is excluded on every day of the
    horizon. *)
Definition ineligible_on_every_day (D : Data) : Prop :=
  ∀ loc st a e s d,
    solve_shift_scheduling D init = Some (loc, st) →
    feasible a (model st) →
    (e, s, 0) ∈ skills D → 0 ≤ d < num_days D →
    (e, s, d) ∉ fixed_assignments D →
    worked (work loc) a e s d = 0.

(** C9 as worded: the penalized quantity is the excess over 2 of the number
    of worked weekends in each window of four consecutive weeks. *)
Definition penalty_is_excess_over_two_per_window (D : Data) : Prop :=
  ∀ loc st a e w0,
    solve_shift_scheduling D init = Some (loc, st) →
    feasible a (model st) →
    0 ≤ e < num_employees D → 0 ≤ w0 ∧ w0 + 4 ≤ number_of_weeks D →
    ∃ x, weekends_in_month loc !! e = Some x ∧
         a x = Z.max 0 (weekends_worked D (work loc) a e (Py.range w0 (w0 + 4)) - 2).

(** * Reasoning about model-building computations *)

Lemma extends_refl st : extends st st.
Proof. by constructor. Qed.

Lemma extends_trans st1 st2 st3 :
  extends st1 st2 → extends st2 st3 → extends st1 st3.
Proof. intros [] []. constructor; auto. Qed.

Lemma bind_inv {A B} (m : M A) (f : A → M B) st y st' :
  (m ≫= f) st = Some (y, st') →
  ∃ x st1, m st = Some (x, st1) ∧ f x st1 = Some (y, st').
Proof.
  unfold mbind, M_mbind, M_bind. destruct (m st) as [[x st1]|]; [|done].
  intros Hf. by exists x, st1.
Qed.

Lemma try_inv {A} (o : option A) st x st' :
  try o st = Some (x, st') → o = Some x ∧ st' = st.
Proof. unfold try. destruct o; naive_solver. Qed.

Lemma mono_ret {A} (x : A) : mono (mret x : M A).
Proof. intros st y st' [= _ <-]. apply extends_refl. Qed.

Lemma mono_bind {A B} (m : M A) (f : A → M B) :
  mono m → (∀ x, mono (f x)) → mono (m ≫= f).
Proof.
  intros Hm Hf st y st' (x & st1 & H1 & H2)%bind_inv.
  eapply extends_trans; [by eapply Hm | by eapply Hf].
Qed.

Lemma mono_try {A} (o : option A) : mono (try o).
Proof. intros st x st' [_ ->]%try_inv. apply extends_refl. Qed.

Lemma mono_when b (m : M unit) : mono m → mono (when b m).
Proof. destruct b; [done|]. intros _. apply mono_ret. Qed.

Lemma mono_for {A} (l : list A) (body : A → M unit) :
  (∀ x, mono (body x)) → mono (for_ l body).
Proof.
  intros Hb. induction l as [|x l IH]; simpl; [apply mono_ret|].
  apply mono_bind; auto.
Qed.

Lemma mono_fold {A B} (l : list A) (acc : B) (body : B → A → M B) :
  (∀ acc x, mono (body acc x)) → mono (fold_ l acc body).
Proof.
  intros Hb. revert acc. induction l as [|x l IH]; intros acc; simpl;
    [apply mono_ret|].
  apply mono_bind; auto.
Qed.

Lemma mono_NewIntVar lb ub : mono (NewIntVar lb ub).
Proof.
  intros st v st' [= _ <-]. constructor; simpl; auto.
  intros v' dom Hv. by apply lookup_app_l_Some.
Qed.

Lemma mono_add_constraint c : mono (add_constraint c).
Proof.
  intros st v st' [= _ <-]. constructor; simpl; auto.
  intros c' Hc. apply elem_of_app. by left.
Qed.

Lemma mono_obj_int_append v c : mono (obj_int_append v c).
Proof.
  intros st u st' [= _ <-]. constructor; simpl; auto.
  - intros i v' Hv. by apply lookup_app_l_Some.
  - intros i v' Hv. by apply lookup_app_l_Some.
  - intros [H1 H2]. split; simpl; [|done]. rewrite !length_app. simpl. lia.
Qed.

Lemma mono_obj_bool_append l c : mono (obj_bool_append l c).
Proof.
  intros st u st' [= _ <-]. constructor; simpl; auto.
  intros [H1 H2]. split; simpl; [done|]. rewrite !length_app. simpl. lia.
Qed.

Create HintDb mono.
#[global] Hint Resolve mono_NewIntVar mono_add_constraint mono_obj_int_append
  mono_obj_bool_append : mono.

(** Monotonicity of a program follows its syntax. *)
Ltac mono_step :=
  cbv beta zeta;
  lazymatch goal with
  | |- mono (mret _) => apply mono_ret
  | |- mono (_ ≫= _) => apply mono_bind; [|intros ?]
  | |- mono (try _) => apply mono_try
  | |- mono (when _ _) => apply mono_when
  | |- mono (for_ _ _) => apply mono_for; intros ?
  | |- mono (fold_ _ _ _) => apply mono_fold; intros ? ?
  | |- mono (match ?x with _ => _ end) => destruct x
  | |- mono ((match ?x with _ => _ end) _) => destruct x
  | |- mono NewBoolVar => apply mono_NewIntVar
  | |- mono (Add _ _ _) => apply mono_add_constraint
  | |- mono (AddOnlyEnforceIf _ _ _ _) => apply mono_add_constraint
  | |- mono (AddBoolOr _) => apply mono_add_constraint
  | |- mono (AddMaxEquality _ _) => apply mono_add_constraint
  | |- mono (AddMinEquality _ _) => apply mono_add_constraint
  | |- mono _ => solve [auto with mono]
  end.
Ltac mono_solve := repeat mono_step.

Lemma mono_penalized_clause lits cost : mono (penalized_clause lits cost).
Proof. unfold penalized_clause. mono_solve. Qed.
#[global] Hint Resolve mono_penalized_clause : mono.

Lemma mono_add_soft_sequence_constraint works hmin smin cmin smax hmax cmax :
  mono (add_soft_sequence_constraint works hmin smin cmin smax hmax cmax).
Proof. unfold add_soft_sequence_constraint. mono_solve. Qed.

Lemma mono_add_soft_sum_constraint works hmin smin cmin smax hmax cmax :
  mono (add_soft_sum_constraint works hmin smin cmin smax hmax cmax).
Proof. unfold add_soft_sum_constraint. mono_solve. Qed.
#[global] Hint Resolve mono_add_soft_sequence_constraint
  mono_add_soft_sum_constraint : mono.

Lemma ran_bind {A B} (m : M A) (f : A → M B) y st :
  mono m → (∀ x, mono (f x)) →
  ran (m ≫= f) y st → ∃ x, ran m x st ∧ ran (f x) y st.
Proof.
  intros Hm Hf (st1 & st2 & Hp & (x & sta & H1 & H2)%bind_inv & Hext).
  exists x. split.
  - exists st1, sta. split_and!; [done..|].
    eapply extends_trans; [by eapply Hf | done].
  - exists sta, st2. split_and!; [|done..].
    by eapply ext_parallel; [eapply Hm|].
Qed.

Lemma ran_try {A B} (o : option A) (f : A → M B) y st :
  ran (try o ≫= f) y st → ∃ x, o = Some x ∧ ran (f x) y st.
Proof.
  intros (st1 & st2 & Hp & (x & sta & [-> ->]%try_inv & H2)%bind_inv & Hext).
  exists x. split; [done|]. by exists st1, st2.
Qed.

Lemma ran_ret {A} (x y : A) st : ran (mret x) y st → y = x.
Proof. by intros (st1 & st2 & _ & [= -> _] & _). Qed.

Lemma ran_for {A} (l : list A) (body : A → M unit) x st :
  (∀ y, mono (body y)) → ran (for_ l body) () st → x ∈ l → ran (body x) () st.
Proof.
  intros Hb. induction l as [|y l IH]; intros Hran Hx.
  { by apply elem_of_nil in Hx. }
  simpl in Hran. apply ran_bind in Hran as ([] & Hhd & Htl);
    [|done|intros _; by apply mono_for].
  apply elem_of_cons in Hx as [->|Hx]; auto.
Qed.

Lemma ran_add_constraint c u st :
  ran (add_constraint c) u st → c ∈ constraints (model st).
Proof.
  intros (st1 & st2 & _ & [= _ <-] & Hext). apply Hext. simpl.
  apply elem_of_app. right. by apply list_elem_of_singleton.
Qed.

(** Taking a [ran] hypothesis apart along the program text. *)
Ltac ran_bind H x H1 H2 :=
  apply ran_bind in H as (x & H1 & H2); [|mono_solve|intros ?; mono_solve].
Ltac ran_skip H :=
  let x := fresh in let H1 := fresh in
  apply ran_bind in H as (x & H1 & H); [clear H1|mono_solve|intros ?; mono_solve].
Ltac ran_take H :=
  let x := fresh in let H2 := fresh in
  apply ran_bind in H as (x & H & H2); [clear H2|mono_solve|intros ?; mono_solve].
Ltac ran_for H Hin :=
  eapply ran_for in H; [|intros ?; mono_solve|exact Hin]; cbv beta in H.
Ltac ran_try H x Hx :=
  apply ran_try in H as (x & Hx & H).

(** ** The assembly blocks are monotone *)

Section AssemblyMono.
Variable D : Data.
Variable w : gmap (Z * Z * Z) var.

Lemma mono_transition f s c : mono (transition w f s c).
Proof. unfold transition. mono_solve. Qed.
Lemma mono_avoid e s d1 d2 c : mono (avoid w e s d1 d2 c).
Proof. unfold avoid. mono_solve. Qed.
Hint Resolve mono_transition mono_avoid : mono.

Lemma mono_create_work : mono (create_work D).
Proof. unfold create_work. mono_solve. Qed.
Lemma mono_max_shift_per_day : mono (max_shift_per_day D w).
Proof. unfold max_shift_per_day. mono_solve. Qed.
Lemma mono_short_shift_not_free : mono (short_shift_not_free D w).
Proof. unfold short_shift_not_free. mono_solve. Qed.
Lemma mono_dummy_min_one : mono (dummy_min_one D w).
Proof. unfold dummy_min_one. mono_solve. Qed.
Lemma mono_dummy_penalty : mono (dummy_penalty D w).
Proof. unfold dummy_penalty. mono_solve. Qed.
Lemma mono_no_overlap : mono (no_overlap D w).
Proof. unfold no_overlap. mono_solve. Qed.
Lemma mono_overlap_not_free : mono (overlap_not_free D w).
Proof. unfold overlap_not_free. mono_solve. Qed.
Lemma mono_fixed : mono (fixed D w).
Proof. unfold fixed. mono_solve. Qed.
Lemma mono_employee_requests : mono (employee_requests D w).
Proof. unfold employee_requests. mono_solve. Qed.
Lemma mono_cover : mono (cover D w).
Proof. unfold cover. mono_solve. Qed.
Lemma mono_rest_after_night : mono (rest_after_night D w).
Proof. unfold rest_after_night. mono_solve. Qed.
Lemma mono_max_one_night_in_7_days : mono (max_one_night_in_7_days D w).
Proof. unfold max_one_night_in_7_days. mono_solve. Qed.
Lemma mono_max_shifts_per_week : mono (max_shifts_per_week D w).
Proof. unfold max_shifts_per_week. mono_solve. Qed.
Lemma mono_max_hours : mono (max_hours D w).
Proof. unfold max_hours. mono_solve. Qed.
Lemma mono_weekend_of_week e loc wk : mono (weekend_of_week D w e loc wk).
Proof. unfold weekend_of_week. mono_solve. Qed.
Hint Resolve mono_weekend_of_week : mono.
Lemma mono_weekends_of_employee loc e : mono (weekends_of_employee D w loc e).
Proof. unfold weekends_of_employee. mono_solve. Qed.
Hint Resolve mono_weekends_of_employee : mono.
Lemma mono_weekends : mono (weekends D w).
Proof. unfold weekends. mono_solve. Qed.
Lemma mono_fairness : mono (fairness D w).
Proof. unfold fairness. mono_solve. Qed.
Lemma mono_limit_workhours : mono (limit_workhours D w).
Proof. unfold limit_workhours. mono_solve. Qed.
Lemma mono_skill_rules : mono (skill_rules D w).
Proof. unfold skill_rules. mono_solve. Qed.
Lemma mono_day_transitions : mono (day_transitions D w).
Proof. unfold day_transitions. mono_solve. Qed.
Lemma mono_shift_transitions : mono (shift_transitions D w).
Proof. unfold shift_transitions. mono_solve. Qed.
Lemma mono_avoid_consecutive_weekends : mono (avoid_consecutive_weekends D w).
Proof. unfold avoid_consecutive_weekends. mono_solve. Qed.
Lemma mono_shift_sequences : mono (shift_sequences D w).
Proof. unfold shift_sequences. mono_solve. Qed.
End AssemblyMono.

#[global] Hint Resolve mono_weekend_of_week mono_weekends_of_employee
  mono_create_work mono_max_shift_per_day
  mono_short_shift_not_free mono_dummy_min_one mono_dummy_penalty
  mono_no_overlap mono_overlap_not_free mono_fixed mono_employee_requests
  mono_cover mono_rest_after_night mono_max_one_night_in_7_days
  mono_max_shifts_per_week mono_max_hours mono_weekends mono_fairness
  mono_limit_workhours mono_skill_rules mono_day_transitions
  mono_shift_transitions mono_avoid_consecutive_weekends
  mono_shift_sequences : mono.

(** * Semantics of the emitted constraints *)

Lemma eval_fold_Plus a es e0 :
  eval a (fold_left Plus es e0) = eval a e0 + sumZ (eval a <$> es).
Proof.
  revert e0. induction es as [|e es IH]; intros e0; simpl; [lia|].
  rewrite IH. simpl. by rewrite Z.add_assoc.
Qed.

Lemma eval_esum a es : eval a (esum es) = sumZ (eval a <$> es).
Proof. unfold esum. by rewrite eval_fold_Plus. Qed.

Lemma gen_sum_eval {A} (f : A → option expr) (g : A → Z) a l e :
  (∀ x e', x ∈ l → f x = Some e' → eval a e' = g x) →
  gen_sum f l = Some e → eval a e = sumZ (g <$> l).
Proof.
  unfold gen_sum. intros Hfg (es & Hes & ->)%fmap_Some.
  rewrite eval_esum. apply mapM_Some in Hes.
  induction Hes as [|x e' l es Hx Hes IH]; [done|].
  rewrite !fmap_cons. cbn [sumZ].
  rewrite IH; [|intros; apply Hfg; [by right|done]].
  f_equal. apply Hfg; [by left|done].
Qed.

Lemma W_eval w a e s d x : W w e s d = Some x → eval a x = worked w a e s d.
Proof. unfold W, worked. by intros (v & -> & ->)%fmap_Some. Qed.

Lemma L_true w a e s d l :
  L w e s d = Some l → lit_true a l = negb (worked w a e s d =? 0).
Proof. unfold L, worked. by intros (v & -> & ->)%fmap_Some. Qed.

Lemma lit_true_not a l : lit_true a (lit_not l) = negb (lit_true a l).
Proof. destruct l; simpl; [|done]. by rewrite negb_involutive. Qed.

Lemma range_elem lo hi x : x ∈ Py.range lo hi ↔ lo ≤ x < hi.
Proof. unfold Py.range. rewrite elem_of_seqZ. lia. Qed.

(** ** Loop invariants *)

Lemma fold_invariant {A B} (I : list A → B → State → Prop)
    (l : list A) (body : B → A → M B) acc st acc' st' :
  I [] acc st →
  (∀ pre x acc st acc1 st1,
     I pre acc st → body acc x st = Some (acc1, st1) → I (pre ++ [x]) acc1 st1) →
  fold_ l acc body st = Some (acc', st') → I l acc' st'.
Proof.
  intros H0 Hstep.
  cut (∀ pre acc st, I pre acc st → fold_ l acc body st = Some (acc', st') →
                     I (pre ++ l) acc' st').
  { intros Haux Hrun. by apply (Haux [] acc st). }
  clear H0. induction l as [|x l IH]; intros pre acc0 st0 Hpre Hrun.
  - injection Hrun as <- <-. by rewrite app_nil_r.
  - simpl in Hrun. apply bind_inv in Hrun as (acc1 & st1 & Hx & Hrun).
    rewrite cons_middle, app_assoc. eapply IH; [|exact Hrun].
    eapply Hstep; eauto.
Qed.

Lemma cube_inv_weaken (P P' : Z * Z * Z → Prop) w st :
  (∀ k, P' k → P k) → cube_inv P w st → cube_inv P' w st.
Proof. intros HP [Hk Hb]. split; auto. Qed.

Lemma cube_step P e s d w st w' st' :
  cube_inv P w st →
  (NewBoolVar ≫= λ v, mret (<[(e, s, d) := v]> w)) st = Some (w', st') →
  cube_inv (λ k, P k ∨ k = (e, s, d)) w' st'.
Proof.
  intros [Hk Hb] (v & sta & [= <- <-] & [= <- <-])%bind_inv. split; simpl.
  - intros k [HP| ->]; [|rewrite lookup_insert_eq; eauto].
    destruct (decide (k = (e, s, d))) as [->|Hne].
    + rewrite lookup_insert_eq. eauto.
    + rewrite lookup_insert_ne by done. auto.
  - intros k v. destruct (decide (k = (e, s, d))) as [->|Hne].
    + rewrite lookup_insert_eq. intros [= <-].
      by rewrite lookup_app_r, Nat.sub_diag.
    + rewrite lookup_insert_ne by done. intros Hv.
      apply lookup_app_l_Some. eauto.
Qed.

Lemma cube_days P e s ds w st w' st' :
  cube_inv P w st →
  fold_ ds w (λ work d, v ← NewBoolVar; mret (<[(e, s, d) := v]> work)) st
    = Some (w', st') →
  cube_inv (λ k, P k ∨ ∃ d, d ∈ ds ∧ k = (e, s, d)) w' st'.
Proof.
  intros Hinv Hrun.
  apply (fold_invariant (λ ds w st,
    cube_inv (λ k, P k ∨ ∃ d, d ∈ ds ∧ k = (e, s, d)) w st)) in Hrun; [done|..].
  - eapply cube_inv_weaken; [|done].
    by intros k [HP|(d & []%elem_of_nil & _)].
  - clear. intros pre d w st w1 st1 Hinv Hstep.
    eapply cube_inv_weaken; [|by eapply cube_step].
    intros k [HP|(d' & [Hd'| ->%list_elem_of_singleton]%elem_of_app & ->)];
      [by left; left|left; right; eauto|by right].
Qed.

Lemma cube_shifts P e ss ds w st w' st' :
  cube_inv P w st →
  fold_ ss w (λ work s,
    fold_ ds work (λ work d, v ← NewBoolVar; mret (<[(e, s, d) := v]> work))) st
    = Some (w', st') →
  cube_inv (λ k, P k ∨ ∃ s d, s ∈ ss ∧ d ∈ ds ∧ k = (e, s, d)) w' st'.
Proof.
  intros Hinv Hrun.
  apply (fold_invariant (λ ss w st,
    cube_inv (λ k, P k ∨ ∃ s d, s ∈ ss ∧ d ∈ ds ∧ k = (e, s, d)) w st))
    in Hrun; [done|..].
  - eapply cube_inv_weaken; [|done].
    by intros k [HP|(s & d & []%elem_of_nil & _)].
  - clear. intros pre s w st w1 st1 Hinv Hstep.
    eapply cube_inv_weaken; [|by eapply cube_days].
    intros k [HP|(s' & d & [Hs'| ->%list_elem_of_singleton]%elem_of_app & Hd & ->)];
      [by left; left|left; right; eauto|right; eauto].
Qed.

Lemma create_work_spec D st w st' :
  create_work D st = Some (w, st') →
  (∀ e s d, 0 ≤ e < num_employees_dummy D → 0 ≤ s < num_shifts D →
            0 ≤ d < num_days D → is_Some (w !! (e, s, d))) ∧
  (∀ k v, w !! k = Some v → variables (model st') !! v = Some (0, 1)).
Proof.
  unfold create_work. intros Hrun.
  apply (fold_invariant (λ es w st,
    cube_inv (λ k, ∃ e s d, e ∈ es ∧ s ∈ Py.range 0 (num_shifts D) ∧
                            d ∈ Py.range 0 (num_days D) ∧ k = (e, s, d)) w st))
    in Hrun.
  - destruct Hrun as [Hk Hb]. split; [|done].
    intros e s d He Hs Hd. apply Hk. exists e, s, d.
    by rewrite !range_elem.
  - split; [|intros k v; by rewrite lookup_empty].
    by intros k (e & s & d & []%elem_of_nil & _).
  - clear. intros pre e w st w1 st1 Hinv Hstep.
    eapply cube_inv_weaken; [|by eapply cube_shifts].
    intros k (e' & s & d & [He'| ->%list_elem_of_singleton]%elem_of_app
              & Hs & Hd & ->); [left|right]; eauto 10.
Qed.

(** ** Feasible assignments *)

Lemma feasibleb_sound m l : feasibleb m l = true → feasible (values l) m.
Proof.
  unfold feasibleb. intros [Hdom Hcs]%andb_prop. split.
  - intros v dom Hv. rewrite forallb_forall in Hdom.
    apply (Hdom (v, dom)). apply list_elem_of_In, elem_of_lookup_imap. eauto.
  - intros c Hc. rewrite forallb_forall in Hcs. by apply Hcs, list_elem_of_In.
Qed.

Lemma feasible_extends a st st' :
  extends st st' → feasible a (model st') → feasible a (model st).
Proof. intros Hext [Hdom Hcs]. split; intros; [apply Hdom|apply Hcs]; by apply Hext. Qed.

Lemma feasible_bool a m v :
  feasible a m → variables m !! v = Some (0, 1) → a v = 0 ∨ a v = 1.
Proof.
  intros [Hdom _] Hv. apply Hdom in Hv. unfold in_domain in Hv. simpl in Hv.
  apply andb_prop in Hv as [?%Z.leb_le ?%Z.leb_le]. lia.
Qed.

Lemma feasible_ran_add a st c u :
  feasible a (model st) → ran (add_constraint c) u st → holds a c = true.
Proof. intros [_ Hcs] Hran. by apply Hcs, ran_add_constraint with u. Qed.

(** ** What a successful assembly ran *)

Lemma weekends_work D w loc st :
  ran (weekends D w) loc st → work loc = w.
Proof.
  intros (st1 & st2 & _ & Hrun & _). unfold weekends in Hrun.
  cbv zeta in Hrun. apply bind_inv in Hrun as (loc0 & sta & Hfold & Hrest).
  repeat (apply bind_inv in Hrest as (? & ? & _ & Hrest)).
  injection Hrest as <- _.
  apply (fold_invariant (λ _ loc _, work loc = w)) in Hfold; [done|done|].
  clear. intros _ e loc st loc1 st1 Hloc Hrun. unfold weekends_of_employee in Hrun.
  cbv zeta in Hrun. apply bind_inv in Hrun as (loc0 & sta & Hfold & Hrest).
  repeat (apply bind_inv in Hrest as (? & ? & _ & Hrest)).
  by injection Hrest as <- _.
Qed.

Lemma solve_assembled D loc st :
  solve_shift_scheduling D init = Some (loc, st) → assembled D loc st.
Proof.
  intros Hrun.
  assert (H : ran (solve_shift_scheduling D) loc st).
  { exists init, st. split_and!; [done|done|apply extends_refl]. }
  clear Hrun. unfold solve_shift_scheduling in H.
  apply ran_try in H as ([] & _ & H).
  ran_bind H w Hw H.
  ran_bind H u1 H1 H. ran_skip H. ran_skip H. ran_skip H.
  ran_bind H u5 H5 H. ran_bind H u6 H6 H. ran_skip H. ran_skip H.
  ran_bind H u9 H9 H. ran_bind H u10 H10 H. ran_bind H u11 H11 H.
  ran_skip H. ran_skip H.
  ran_bind H loc' H14 H. ran_skip H. ran_skip H.
  ran_bind H u17 H17 H. ran_skip H. ran_skip H. ran_skip H. ran_skip H.
  apply ran_ret in H as ->.
  destruct u1, u5, u6, u9, u10, u11, u17.
  pose proof (weekends_work _ _ _ _ H14) as Hwork. subst w.
  by constructor.
Qed.

(** Every variable of the cube takes the value 0 or 1. *)
Lemma worked_bool D loc st a e s d :
  assembled D loc st → feasible a (model st) →
  worked (work loc) a e s d = 0 ∨ worked (work loc) a e s d = 1.
Proof.
  intros [(st1 & st2 & _ & Hrun & Hext) _ _ _ _ _ _ _ _] Hfeas.
  unfold worked. destruct (work loc !! (e, s, d)) as [v|] eqn:Hv; [|by left].
  simpl. eapply feasible_bool; [done|]. apply Hext.
  by eapply create_work_spec.
Qed.

(** Every in-range key of the cube has its variable. *)
Lemma work_defined D loc st e s d :
  assembled D loc st →
  0 ≤ e < num_employees_dummy D → 0 ≤ s < num_shifts D → 0 ≤ d < num_days D →
  is_Some (work loc !! (e, s, d)).
Proof.
  intros [(st1 & st2 & _ & Hrun & Hext) _ _ _ _ _ _ _ _].
  by eapply create_work_spec.
Qed.

(** * Properties of every feasible solution *)

(** C1. In every feasible solution of the assembled model, for every day
    [d] of the horizon and every non-zero shift type [s], the number of
    employees assigned to [s] on [d], the dummy employee included, equals the
    demand [CoverDemand d s] (stored at [cover_demands[d][s-1]]) exactly. *)
Theorem cover_demand_met_exactly D loc st a d s :
  solve_shift_scheduling D init = Some (loc, st) →
  feasible a (model st) →
  0 ≤ d < num_days D → 1 ≤ s < num_shifts D →
  ∃ needed, CoverDemand D d s = Some needed ∧
            headcount (work loc) a s d (num_employees_dummy D) = needed.
Proof.
  intros Hasm%solve_assembled Hfeas Hd%range_elem Hs%range_elem.
  destruct Hasm as [_ _ _ _ H _ _ _ _]. unfold cover in H.
  ran_for H Hd. ran_for H Hs.
  ran_try H needed Hneeded. ran_try H tot Htot.
  exists needed. split; [done|].
  eapply feasible_ran_add in H; [|done]. simpl in H.
  apply Z.eqb_eq in H. rewrite <-H. unfold headcount. symmetry.
  eapply gen_sum_eval; [|done]. intros e x _. apply W_eval.
Qed.

(** C3. In every feasible solution, a real employee who works a
    night-classified shift on day [d < num_days - 1] is off (shift 0) on day
    [d + 1]. *)
Theorem rest_day_after_night_shift D loc st a e s d :
  solve_shift_scheduling D init = Some (loc, st) →
  feasible a (model st) →
  0 ≤ e < num_employees D → s ∈ night_shifts D → 0 ≤ d < num_days D - 1 →
  worked (work loc) a e s d = 1 →
  worked (work loc) a e 0 (d + 1) = 1.
Proof.
  intros Hasm%solve_assembled Hfeas He%range_elem Hs Hd%range_elem Hnight.
  destruct Hasm as [_ _ _ _ _ H _ _ _]. unfold rest_after_night in H.
  ran_for H Hs. ran_for H He. ran_for H Hd.
  ran_try H off Hoff. ran_try H l Hl.
  eapply feasible_ran_add in H; [|done]. simpl in H.
  rewrite (L_true _ _ _ _ _ _ Hl), Hnight in H. simpl in H.
  apply Z.eqb_eq in H. by rewrite <-(W_eval _ a _ _ _ _ Hoff).
Qed.

Lemma sum_assigned w a e d ss :
  (∀ s, worked w a e s d = 0 ∨ worked w a e s d = 1) →
  sumZ ((λ s, worked w a e s d) <$> ss)
  = Z.of_nat (length (assigned_shifts w a e d ss)).
Proof.
  intros Hbool. unfold assigned_shifts.
  induction ss as [|s ss IH]; [done|].
  rewrite fmap_cons, filter_cons. cbn [sumZ]. rewrite IH.
  destruct (decide (worked w a e s d = 1)) as [->|Hne]; simpl length.
  - lia.
  - destruct (Hbool s); lia.
Qed.

(** C2, as the code has it. In every feasible solution, every real employee
    is assigned at least one and at most two shift types on every day, and
    at most one of them is a non-combinable shift type. *)
Theorem one_or_two_shifts_per_day D loc st a e d :
  solve_shift_scheduling D init = Some (loc, st) →
  feasible a (model st) →
  0 ≤ e < num_employees D → 0 ≤ d < num_days D →
  (1 ≤ length (assigned_shifts (work loc) a e d (Py.range 0 (num_shifts D))) ≤ 2)%nat ∧
  (length (assigned_shifts (work loc) a e d (funktioner_no_combination D)) ≤ 1)%nat.
Proof.
  intros Hasm%solve_assembled Hfeas He%range_elem Hd%range_elem.
  pose proof (λ s, worked_bool D loc st a e s d Hasm Hfeas) as Hbool.
  destruct Hasm as [_ H _ _ _ _ _ _ _]. unfold max_shift_per_day in H.
  ran_for H He. ran_for H Hd.
  ran_try H t1 Ht1. ran_bind H u1 H1 H.
  ran_try H t2 Ht2. ran_bind H u2 H2 H.
  ran_try H t3 Ht3. ran_take H.
  apply (feasible_ran_add a) in H1; [|done].
  apply (feasible_ran_add a) in H2; [|done].
  apply (feasible_ran_add a) in H; [|done].
  simpl in H1, H2, H. apply Z.leb_le in H1, H. apply Z.geb_le in H2.
  pose proof (λ ss t, gen_sum_eval (λ s, W (work loc) e s d)
    (λ s, worked (work loc) a e s d) a ss t
    (λ s x _, W_eval (work loc) a e s d x)) as Hsum.
  rewrite (Hsum _ _ Ht1) in H1. rewrite (Hsum _ _ Ht2) in H2.
  rewrite (Hsum _ _ Ht3) in H.
  rewrite sum_assigned in H1, H2, H by done. lia.
Qed.

(** [test_overlap] does not depend on the order of the two windows. *)
Lemma overlap_minutes_sym a b c d :
  overlap_minutes a b c d = overlap_minutes c d a b.
Proof.
  unfold overlap_minutes.
  repeat (case_match; try lia); rewrite ?orb_true_iff, ?orb_false_iff in *;
    try reflexivity; try (apply orb_comm); lia.
Qed.

Lemma shifts_overlap_sym D s1 s2 : shifts_overlap D s1 s2 = shifts_overlap D s2 s1.
Proof.
  unfold shifts_overlap, test_overlap.
  destruct (funktioner_tider D !! Py.str s1) as [[[a1 b1] ?]|],
    (funktioner_tider D !! Py.str s2) as [[[a2 b2] ?]|]; simpl; try done.
  destruct (convert_to_minutes a1), (convert_to_minutes b1),
    (convert_to_minutes a2), (convert_to_minutes b2); simpl; try done.
  by rewrite overlap_minutes_sym.
Qed.

Lemma combinations2_elem {A} (l : list A) x y :
  x ∈ l → y ∈ l → x ≠ y →
  (x, y) ∈ Py.combinations2 l ∨ (y, x) ∈ Py.combinations2 l.
Proof.
  induction l as [|z l IH]; intros Hx Hy Hne; [by apply elem_of_nil in Hx|].
  simpl. rewrite !elem_of_app.
  apply elem_of_cons in Hx as [->|Hx], Hy as [->|Hy]; [done|..].
  - left; left. by apply (list_elem_of_fmap_2 (pair z)).
  - right; left. by apply (list_elem_of_fmap_2 (pair z)).
  - destruct IH as [?|?]; auto.
Qed.

(** Two literals of the cube that a clause [not l1 or not l2] mentions are
    not both true. *)
Lemma not_both w a e s1 s2 d l1 l2 :
  L w e s1 d = Some l1 → L w e s2 d = Some l2 →
  holds a (BoolOr [lit_not l1; lit_not l2]) = true →
  ¬ (worked w a e s1 d = 1 ∧ worked w a e s2 d = 1).
Proof.
  intros Hl1 Hl2 Hc [H1 H2]. simpl in Hc.
  rewrite !lit_true_not, (L_true _ _ _ _ _ _ Hl1), (L_true _ _ _ _ _ _ Hl2),
    H1, H2 in Hc.
  done.
Qed.

(** C5, as the code has it. In every feasible solution, no real employee is
    assigned on one day two distinct shift types whose time windows overlap
    when neither of the two is flagged overlap-allowed; and an
    overlap-allowed shift type is never assigned together with the off shift
    (type 0). *)
Theorem no_overlapping_shifts D loc st a e d :
  solve_shift_scheduling D init = Some (loc, st) →
  feasible a (model st) →
  0 ≤ e < num_employees D → 0 ≤ d < num_days D →
  (∀ s1 s2, s1 ∈ funktioner_no_overlap D → s2 ∈ funktioner_no_overlap D →
            s1 ≠ s2 → shifts_overlap D s1 s2 = Some true →
            ¬ (worked (work loc) a e s1 d = 1 ∧ worked (work loc) a e s2 d = 1)) ∧
  (∀ s, s ∈ allow_overlap D →
        ¬ (worked (work loc) a e s d = 1 ∧ worked (work loc) a e 0 d = 1)).
Proof.
  intros Hasm%solve_assembled Hfeas He%range_elem Hd%range_elem.
  destruct Hasm as [_ _ Hno Hfree _ _ _ _ _]. split.
  - intros s1 s2 Hs1 Hs2 Hne Hov.
    assert (Hpair : ∀ x y, (x, y) ∈ Py.combinations2 (funktioner_no_overlap D) →
      shifts_overlap D x y = Some true →
      ¬ (worked (work loc) a e x d = 1 ∧ worked (work loc) a e y d = 1)).
    { clear s1 s2 Hs1 Hs2 Hne Hov. intros x y Hxy Hov.
      unfold no_overlap in Hno. ran_for Hno Hxy.
      ran_try Hno ov Hov'. rewrite Hov in Hov'. injection Hov' as <-.
      simpl in Hno. ran_for Hno Hd. ran_for Hno He.
      ran_try Hno l1 Hl1. ran_try Hno l2 Hl2.
      eapply feasible_ran_add in Hno; [|done]. by eapply not_both. }
    destruct (combinations2_elem _ _ _ Hs1 Hs2 Hne) as [Hc|Hc].
    + by apply Hpair.
    + rewrite shifts_overlap_sym in Hov. intros [H1 H2].
      by apply (Hpair _ _ Hc Hov).
  - intros s Hs. unfold overlap_not_free in Hfree.
    ran_for Hfree Hs. ran_for Hfree Hd. ran_for Hfree He.
    ran_try Hfree l1 Hl1. ran_try Hfree l2 Hl2.
    eapply feasible_ran_add in Hfree; [|done]. by eapply not_both.
Qed.

(** C6, as the code has it. In every feasible solution, for every
    skill-eligibility entry [(e, s, 0)] and every day [d] of the current
    period ([offset <= d < num_days]), [work[e, s, d]] is false unless
    [(e, s, d)] is a fixed assignment. *)
Theorem ineligible_not_assigned D loc st a e s d :
  solve_shift_scheduling D init = Some (loc, st) →
  feasible a (model st) →
  (e, s, 0) ∈ skills D → offset D ≤ d < num_days D →
  (e, s, d) ∉ fixed_assignments D →
  worked (work loc) a e s d = 0.
Proof.
  intros Hasm%solve_assembled Hfeas Hsk Hd%range_elem Hfix.
  destruct Hasm as [_ _ _ _ _ _ _ _ H]. unfold skill_rules in H.
  ran_for H Hsk. simpl in H. ran_for H Hd.
  unfold Py.mem in H. rewrite bool_decide_eq_false_2 in H by done. simpl in H.
  ran_try H x Hx.
  eapply feasible_ran_add in H; [|done]. simpl in H.
  apply Z.eqb_eq in H. by rewrite <-(W_eval _ a _ _ _ _ Hx).
Qed.

(** X29. What the code does enforce about nights: for every real employee
    and every window start [d] with [offset <= d < num_days - 7], at most one
    night-classified shift is worked in the seven days from [d]. *)
Lemma one_night_in_constrained_windows D loc st a e d :
  solve_shift_scheduling D init = Some (loc, st) →
  feasible a (model st) →
  0 ≤ e < num_employees D → offset D ≤ d < num_days D - 7 →
  nights_in_window D (work loc) a e d ≤ 1.
Proof.
  intros Hasm%solve_assembled Hfeas He%range_elem Hd%range_elem.
  destruct Hasm as [_ _ _ _ _ _ H _ _]. unfold max_one_night_in_7_days in H.
  ran_for H He. ran_for H Hd. ran_try H nights Hn.
  eapply feasible_ran_add in H; [|done]. simpl in H. apply Z.leb_le in H.
  unfold nights_in_window. erewrite <-gen_sum_eval; [done| |done].
  intros [s x] ? _. apply W_eval.
Qed.

(** C10. [test_overlap] is symmetric in its two time windows, whether or
    not they wrap past midnight (and it raises for one order exactly when it
    raises for the other). *)
Theorem test_overlap_symmetric t1_st t1_end t2_st t2_end :
  test_overlap t1_st t1_end t2_st t2_end = test_overlap t2_st t2_end t1_st t1_end.
Proof.
  unfold test_overlap.
  destruct (convert_to_minutes t1_st) as [a|], (convert_to_minutes t1_end) as [b|],
    (convert_to_minutes t2_st) as [c|], (convert_to_minutes t2_end) as [d|];
    simpl; try reflexivity.
  f_equal. apply overlap_minutes_sym.
Qed.

(** * The bounded-run-length primitive with [hard_min = hard_max] *)

Lemma append_constraints_nil st : append_constraints [] st = st.
Proof. destruct st as [[vs cs] ? ? ? ?]. unfold append_constraints. simpl. by rewrite app_nil_r. Qed.

Lemma append_constraints_app cs1 cs2 st :
  append_constraints cs2 (append_constraints cs1 st) = append_constraints (cs1 ++ cs2) st.
Proof. unfold append_constraints. simpl. by rewrite app_assoc. Qed.

Lemma for_emits {A} (l : list A) (body : A → M unit) (g : A → list constraint) :
  (∀ x st, x ∈ l → body x st = Some ((), append_constraints (g x) st)) →
  ∀ st, for_ l body st = Some ((), append_constraints (flat_map g l) st).
Proof.
  induction l as [|x l IH]; intros Hbody st; simpl.
  - by rewrite append_constraints_nil.
  - unfold mbind, M_mbind, M_bind. rewrite Hbody by left.
    rewrite IH by (intros; apply Hbody; by right).
    by rewrite append_constraints_app.
Qed.

Lemma clause_emits (o : option (list lit)) st :
  is_Some o →
  (span ← try o; AddBoolOr span) st = Some ((), append_constraints (clause_of o) st).
Proof. by intros [ls ->]. Qed.

Lemma index_nat {A} (l : list A) (i : nat) : Py.index l (Z.of_nat i) = l !! i.
Proof.
  unfold Py.index. rewrite (proj2 (Z.leb_le 0 (Z.of_nat i))) by lia.
  by rewrite Nat2Z.id.
Qed.

Lemma mapM_existsb_false {A} (f : A → option lit) a l k :
  mapM f l = Some k →
  existsb (lit_true a) k = false ↔
  ∀ x y, x ∈ l → f x = Some y → lit_true a y = false.
Proof.
  intros Hk%mapM_Some. induction Hk as [|x y l k Hxy Hk IH]; simpl.
  - split; [|done]. by intros _ x y []%elem_of_nil.
  - rewrite orb_false_iff, IH. split.
    + intros [Hy Hl] x' y' [->|Hx']%elem_of_cons Hf; [|by eapply Hl].
      by rewrite Hxy in Hf; injection Hf as <-.
    + intros H. split; [apply (H x); [by left|done]|].
      intros x' y' Hx'. apply H. by right.
Qed.

Section Runs.
Variable works : list lit.
Variable a : assignment.

Lemma truth_lookup i b :
  truth works a !! i = Some b ↔ ∃ l, works !! i = Some l ∧ lit_true a l = b.
Proof. unfold truth. rewrite list_lookup_fmap, fmap_Some. naive_solver. Qed.

Lemma negated_bounded_span_spec (start length : nat) :
  (start + length ≤ List.length works)%nat →
  ∃ span, negated_bounded_span works (Z.of_nat start) (Z.of_nat length) = Some span ∧
    (existsb (lit_true a) span = false ↔
     (start = 0%nat ∨ truth works a !! (start - 1)%nat = Some false) ∧
     (∀ i, (start ≤ i < start + length)%nat → truth works a !! i = Some true) ∧
     ((start + length)%nat = List.length works ∨
      truth works a !! (start + length)%nat = Some false)).
Proof.
  intros Hlen. unfold negated_bounded_span.
  (* left border *)
  assert (∃ lft, (if Z.of_nat start >? 0
                  then x ← Py.index works (Z.of_nat start - 1); Some [x]
                  else Some []) = Some lft ∧
            (existsb (lit_true a) lft = false ↔
             start = 0%nat ∨ truth works a !! (start - 1)%nat = Some false))
    as (lft & -> & Hlft).
  { destruct start as [|s0].
    - exists []. split; [done|]. simpl. naive_solver.
    - rewrite (proj2 (Z.gtb_gt _ _)) by lia.
      replace (Z.of_nat (S s0) - 1) with (Z.of_nat s0) by lia.
      rewrite index_nat. replace (S s0 - 1)%nat with s0 by lia.
      destruct (lookup_lt_is_Some_2 works s0) as [x Hx]; [lia|].
      rewrite Hx. exists [x]. split; [done|]. simpl. rewrite orb_false_r.
      rewrite truth_lookup. naive_solver. }
  (* the span itself *)
  assert (∃ mid, mapM (λ i, lit_not <$> Py.index works (Z.of_nat start + i))
                      (Py.range 0 (Z.of_nat length)) = Some mid ∧
            (existsb (lit_true a) mid = false ↔
             ∀ i, (start ≤ i < start + length)%nat → truth works a !! i = Some true))
    as (mid & -> & Hmid).
  { destruct (mapM _ _) as [mid|] eqn:Hm.
    - exists mid. split; [done|]. rewrite (mapM_existsb_false _ _ _ _ Hm). split.
      + intros H i Hi.
        destruct (lookup_lt_is_Some_2 works i) as [x Hx]; [lia|].
        apply truth_lookup. exists x. split; [done|].
        specialize (H (Z.of_nat (i - start)) (lit_not x)).
        rewrite lit_true_not in H. apply negb_false_iff, H.
        * apply range_elem. lia.
        * replace (Z.of_nat start + Z.of_nat (i - start)) with (Z.of_nat i) by lia.
          by rewrite index_nat, Hx.
      + intros H i y [Hi0 Hi1]%range_elem Hy.
        replace (Z.of_nat start + i) with (Z.of_nat (start + Z.to_nat i)) in Hy by lia.
        rewrite index_nat in Hy. apply fmap_Some in Hy as (x & Hx & ->).
        rewrite lit_true_not. apply negb_false_iff.
        specialize (H (start + Z.to_nat i)%nat).
        rewrite truth_lookup in H. destruct H as (x' & Hx' & Ht); [lia|].
        by rewrite Hx in Hx'; injection Hx' as <-.
    - apply mapM_None in Hm. apply Exists_exists in Hm as (i & Hi & Hnone).
      apply range_elem in Hi.
      replace (Z.of_nat start + i) with (Z.of_nat (start + Z.to_nat i)) in Hnone by lia.
      rewrite index_nat in Hnone. apply fmap_None in Hnone.
      apply lookup_ge_None in Hnone. lia. }
  (* right border *)
  assert (∃ rgt, (if Z.of_nat start + Z.of_nat length <? len works
                  then x ← Py.index works (Z.of_nat start + Z.of_nat length); Some [x]
                  else Some []) = Some rgt ∧
            (existsb (lit_true a) rgt = false ↔
             (start + length)%nat = List.length works ∨
             truth works a !! (start + length)%nat = Some false))
    as (rgt & -> & Hrgt).
  { unfold len. destruct (decide (start + length = List.length works)%nat) as [Heq|Hne].
    - rewrite (proj2 (Z.ltb_ge _ _)) by lia. exists []. split; [done|]. naive_solver.
    - rewrite (proj2 (Z.ltb_lt _ _)) by lia.
      replace (Z.of_nat start + Z.of_nat length) with (Z.of_nat (start + length)) by lia.
      rewrite index_nat.
      destruct (lookup_lt_is_Some_2 works (start + length)) as [x Hx]; [lia|].
      rewrite Hx. exists [x]. split; [done|]. simpl. rewrite orb_false_r.
      rewrite truth_lookup. naive_solver. }
  eexists. split; [done|].
  rewrite !existsb_app, !orb_false_iff. tauto.
Qed.

Lemma window_spec (start k : nat) :
  (start + k + 1 ≤ List.length works)%nat →
  ∃ ws, mapM (λ i, lit_not <$> Py.index works i)
             (Py.range (Z.of_nat start) (Z.of_nat start + Z.of_nat k + 1)) = Some ws ∧
    (existsb (lit_true a) ws = false ↔
     ∀ i, (start ≤ i < start + k + 1)%nat → truth works a !! i = Some true).
Proof.
  intros Hlen. destruct (mapM _ _) as [ws|] eqn:Hm.
  - exists ws. split; [done|]. rewrite (mapM_existsb_false _ _ _ _ Hm). split.
    + intros H i Hi.
      destruct (lookup_lt_is_Some_2 works i) as [x Hx]; [lia|].
      apply truth_lookup. exists x. split; [done|].
      specialize (H (Z.of_nat i) (lit_not x)).
      rewrite lit_true_not in H. apply negb_false_iff, H.
      * apply range_elem. lia.
      * by rewrite index_nat, Hx.
    + intros H i y [Hi0 Hi1]%range_elem Hy.
      replace i with (Z.of_nat (Z.to_nat i)) in Hy by lia.
      rewrite index_nat in Hy. apply fmap_Some in Hy as (x & Hx & ->).
      rewrite lit_true_not. apply negb_false_iff.
      specialize (H (Z.to_nat i)).
      rewrite truth_lookup in H. destruct H as (x' & Hx' & Ht); [lia|].
      by rewrite Hx in Hx'; injection Hx' as <-.
  - apply mapM_None in Hm. apply Exists_exists in Hm as (i & Hi & Hnone).
    apply range_elem in Hi.
    replace i with (Z.of_nat (Z.to_nat i)) in Hnone by lia.
    rewrite index_nat in Hnone. apply fmap_None in Hnone.
    apply lookup_ge_None in Hnone. lia.
Qed.
End Runs.

(** Every block of consecutive [true] values lies inside a maximal run. *)
Lemma extend_left (bs : list bool) (s l : nat) :
  (s + l ≤ List.length bs)%nat →
  (∀ i, (s ≤ i < s + l)%nat → bs !! i = Some true) →
  ∃ s', (s' ≤ s)%nat ∧
        (∀ i, (s' ≤ i < s + l)%nat → bs !! i = Some true) ∧
        (s' = 0%nat ∨ bs !! (s' - 1)%nat = Some false).
Proof.
  revert l. induction s as [|s IH]; intros l Hlen Hrun.
  - exists 0%nat. auto.
  - destruct (lookup_lt_is_Some_2 bs s) as [[|] Hb]; [lia| |].
    + destruct (IH (S l)) as (s' & Hle & Htrue & Hleft); [lia| |].
      * intros i Hi. destruct (decide (i = s)) as [->|]; [done|].
        apply Hrun. lia.
      * exists s'. split_and!; [lia| |done].
        intros i Hi. apply Htrue. lia.
    + exists (S s). split_and!; [lia|done|]. right.
      by replace (S s - 1)%nat with s by lia.
Qed.

Lemma extend_right (bs : list bool) (s l : nat) :
  (s + l ≤ List.length bs)%nat →
  (∀ i, (s ≤ i < s + l)%nat → bs !! i = Some true) →
  ∃ l', (l ≤ l')%nat ∧ (s + l' ≤ List.length bs)%nat ∧
        (∀ i, (s ≤ i < s + l')%nat → bs !! i = Some true) ∧
        ((s + l')%nat = List.length bs ∨ bs !! (s + l')%nat = Some false).
Proof.
  remember (List.length bs - (s + l))%nat as gap eqn:Hgap.
  revert l Hgap. induction gap as [|gap IH]; intros l Hgap Hlen Hrun.
  - exists l. split_and!; [lia|done|done|]. left. lia.
  - destruct (lookup_lt_is_Some_2 bs (s + l)) as [[|] Hb]; [lia| |].
    + destruct (IH (S l)) as (l' & Hle & Hlen' & Htrue & Hright); [lia|lia| |].
      * intros i Hi. destruct (decide (i = s + l)%nat) as [->|]; [done|].
        apply Hrun. lia.
      * exists l'. split_and!; [lia|done..].
    + exists l. split_and!; [lia|done|done|]. by right.
Qed.

Lemma extend_run (bs : list bool) (s l : nat) :
  (0 < l)%nat → (s + l ≤ List.length bs)%nat →
  (∀ i, (s ≤ i < s + l)%nat → bs !! i = Some true) →
  ∃ s' l', maximal_run bs s' l' ∧ (l ≤ l')%nat.
Proof.
  intros Hl Hlen Hrun.
  destruct (extend_left bs s l Hlen Hrun) as (s' & Hle & Htrue & Hleft).
  destruct (extend_right bs s' (s + l - s')) as (l' & Hle' & Hlen' & Htrue' & Hright).
  { lia. }
  { intros i Hi. apply Htrue. lia. }
  exists s', l'. split; [|lia].
  split_and!; [lia|done..].
Qed.

(** C7. With [hard_min = hard_max = k] and [min_cost = max_cost = 0] the
    bounded-run-length primitive succeeds, creates no penalty literal, and
    adds constraints that an assignment satisfies exactly when every maximal
    contiguous run of [true] values of the sequence has length [k]: every run
    of another length is forbidden, every assignment whose runs all have
    length [k] is allowed. (Here for any sequence and any [k]; a sequence of
    length 10 with [k] in 2, 3, 5 is an instance.) *)
Theorem exact_run_length (works : list lit) (k : nat) (soft_min soft_max : Z)
    (st : State) :
  ∃ new,
    add_soft_sequence_constraint works (Z.of_nat k) soft_min 0 soft_max (Z.of_nat k) 0 st
      = Some (([], []), append_constraints new st) ∧
    ∀ a, (∀ c, c ∈ new → holds a c = true) ↔
         (∀ start length, maximal_run (truth works a) start length → length = k).
Proof.
  set (n := List.length works).
  set (short := λ length : Z, flat_map (λ start,
         clause_of (negated_bounded_span works start length))
         (Py.range 0 (len works - length + 1))).
  set (long := λ start : Z,
         clause_of (mapM (λ i, lit_not <$> Py.index works i)
                         (Py.range start (start + Z.of_nat k + 1)))).
  exists (flat_map short (Py.range 1 (Z.of_nat k))
          ++ flat_map long (Py.range 0 (len works - Z.of_nat k))).
  split.
  - unfold add_soft_sequence_constraint. cbv zeta.
    change (0 >? 0) with false. cbv iota.
    unfold mbind at 1, M_mbind, M_bind.
    rewrite (for_emits _ _ short); last first.
    { intros length st' [Hl0 Hl1]%range_elem.
      apply for_emits. intros start st'' [Hs0 Hs1]%range_elem.
      apply clause_emits. unfold len in Hs1.
      destruct (negated_bounded_span_spec works (λ _, 0)
                  (Z.to_nat start) (Z.to_nat length)) as (span & Hspan & _); [lia|].
      rewrite !Z2Nat.id in Hspan by lia. by rewrite Hspan. }
    unfold mret, M_mret, M_ret, mbind, M_mbind, M_bind. cbv beta iota.
    rewrite (for_emits _ _ long); last first.
    { intros start st' [Hs0 Hs1]%range_elem. apply clause_emits. unfold len in Hs1.
      destruct (window_spec works (λ _, 0) (Z.to_nat start) k)
        as (ws & Hws & _); [lia|].
      rewrite !Z2Nat.id in Hws by lia. by rewrite Hws. }
    by rewrite append_constraints_app.
  - intros a. split.
    + intros Hall start length Hrun.
      destruct Hrun as (Hpos & Hlen & Htrue & Hleft & Hright).
      unfold truth in Hlen. rewrite length_fmap in Hlen.
      destruct (Nat.lt_trichotomy length k) as [Hlt|[Heq|Hgt]]; [|done|]; exfalso.
      * destruct (negated_bounded_span_spec works a start length)
          as (span & Hspan & Hsem); [done|].
        assert (Hin : BoolOr span ∈ flat_map short (Py.range 1 (Z.of_nat k))).
        { apply list_elem_of_In, in_flat_map. exists (Z.of_nat length). split.
          - apply list_elem_of_In, range_elem. lia.
          - apply in_flat_map. exists (Z.of_nat start). split.
            + apply list_elem_of_In, range_elem. unfold len. lia.
            + rewrite Hspan. by left. }
        specialize (Hall (BoolOr span)). simpl in Hall.
        rewrite (proj2 Hsem) in Hall.
        { discriminate Hall. apply elem_of_app. by left. }
        unfold truth in Hright at 1. by rewrite length_fmap in Hright.
      * destruct (window_spec works a start k) as (ws & Hws & Hsem); [lia|].
        assert (Hin : BoolOr ws ∈ flat_map long (Py.range 0 (len works - Z.of_nat k))).
        { apply list_elem_of_In, in_flat_map. exists (Z.of_nat start). split.
          - apply list_elem_of_In, range_elem. unfold len. lia.
          - unfold long. rewrite Hws. by left. }
        specialize (Hall (BoolOr ws)). simpl in Hall.
        rewrite (proj2 Hsem) in Hall.
        { discriminate Hall. apply elem_of_app. by right. }
        intros i Hi. apply Htrue. lia.
    + intros Hruns c [Hc|Hc]%elem_of_app.
      * apply list_elem_of_In, in_flat_map in Hc as (length & Hl & Hc).
        apply list_elem_of_In, range_elem in Hl.
        apply in_flat_map in Hc as (start & Hs & Hc).
        apply list_elem_of_In, range_elem in Hs. unfold len in Hs.
        destruct (negated_bounded_span_spec works a
                    (Z.to_nat start) (Z.to_nat length)) as (span & Hspan & Hsem); [lia|].
        rewrite !Z2Nat.id in Hspan by lia. rewrite Hspan in Hc.
        destruct Hc as [<-|[]]. simpl.
        destruct (existsb (lit_true a) span) eqn:Hex; [done|]. exfalso.
        destruct (proj1 Hsem eq_refl) as (Hleft & Htrue & Hright).
        assert (Z.to_nat length = k); [|lia].
        apply (Hruns (Z.to_nat start)). unfold maximal_run, truth.
        rewrite length_fmap. split_and!; [lia|lia|done..].
      * apply list_elem_of_In, in_flat_map in Hc as (start & Hs & Hc).
        apply list_elem_of_In, range_elem in Hs. unfold len in Hs.
        destruct (window_spec works a (Z.to_nat start) k) as (ws & Hws & Hsem); [lia|].
        rewrite !Z2Nat.id in Hws by lia. unfold long in Hc. rewrite Hws in Hc.
        destruct Hc as [<-|[]]. simpl.
        destruct (existsb (lit_true a) ws) eqn:Hex; [done|]. exfalso.
        pose proof (proj1 Hsem eq_refl) as Htrue.
        destruct (extend_run (truth works a) (Z.to_nat start) (k + 1))
          as (s' & l' & Hrun & Hle); [lia| |intros i Hi; apply Htrue; lia|].
        { unfold truth. rewrite length_fmap. lia. }
        apply Hruns in Hrun. lia.
Qed.

(** * The bounded-total primitive *)

Lemma NewIntVar_spec lb ub st v st' :
  NewIntVar lb ub st = Some (v, st') → variables (model st') !! v = Some (lb, ub).
Proof. intros [= <- <-]. simpl. by rewrite lookup_app_r, Nat.sub_diag. Qed.

Lemma add_constraint_spec c st u st' :
  add_constraint c st = Some (u, st') → c ∈ constraints (model st').
Proof.
  intros [= _ <-]. simpl. apply elem_of_app. right. by apply list_elem_of_singleton.
Qed.

(** [extends] between the state a remaining program starts from and the
    state it ends in. *)
Ltac ext_of H E :=
  cbv beta in H;
  lazymatch type of H with
  | ?m ?s = Some (_, ?s') =>
      assert (E : extends s s')
        by (cut (mono m); [intros Hm; exact (Hm _ _ _ H)|mono_solve])
  end.

Lemma feasible_domain a m v lb ub :
  feasible a m → variables m !! v = Some (lb, ub) → lb ≤ a v ≤ ub.
Proof.
  intros [Hdom _] Hv. apply Hdom in Hv. unfold in_domain in Hv. simpl in Hv.
  apply andb_prop in Hv as [?%Z.leb_le ?%Z.leb_le]. lia.
Qed.

(** The bounded-total primitive when both soft bounds are active: the sum
    is kept within the hard bounds and the two excess variables measure the
    distance to the soft bounds. *)
Lemma soft_sum_general (works : list lit)
    (hard_min soft_min min_cost soft_max hard_max max_cost : Z)
    (st st' : State) (res : list var * list Z) (a : assignment) :
  (soft_min >? hard_min) && (min_cost >? 0) = true →
  (soft_max <? hard_max) && (max_cost >? 0) = true →
  add_soft_sum_constraint works hard_min soft_min min_cost
                          soft_max hard_max max_cost st = Some (res, st') →
  feasible a (model st') →
  hard_min ≤ works_sum a works ≤ hard_max ∧
  contribution a res
  = Z.max 0 (soft_min - works_sum a works) * min_cost
    + Z.max 0 (works_sum a works - soft_max) * max_cost.
Proof.
  intros Hb1 Hb2 H Hfeas. unfold add_soft_sum_constraint in H. cbv zeta in H.
  rewrite Hb1, Hb2 in H.
  apply bind_inv in H as (sum_var & s1 & Hv1%NewIntVar_spec & H). ext_of H E1.
  apply bind_inv in H as (u1 & s2 & Hc1%add_constraint_spec & H). ext_of H E2.
  apply bind_inv in H as (costs1 & s3 & H' & H). ext_of H E3.
  apply bind_inv in H' as (delta1 & s4 & Hv2%NewIntVar_spec & H').
  apply bind_inv in H' as (u2 & s5 & Hc2%add_constraint_spec & H'). ext_of H' E5.
  apply bind_inv in H' as (excess1 & s6 & Hv3%NewIntVar_spec & H').
  apply bind_inv in H' as (u3 & s7 & Hc3%add_constraint_spec & H').
  injection H' as <- <-.
  apply bind_inv in H as (costs2 & s8 & H' & H).
  injection H as <- <-.
  apply bind_inv in H' as (delta2 & s9 & Hv4%NewIntVar_spec & H').
  apply bind_inv in H' as (u4 & s10 & Hc4%add_constraint_spec & H'). ext_of H' E10.
  apply bind_inv in H' as (excess2 & s11 & Hv5%NewIntVar_spec & H').
  apply bind_inv in H' as (u5 & s12 & Hc5%add_constraint_spec & H').
  injection H' as <- <-.
  pose proof (feasible_domain a _ _ _ _ Hfeas (ext_variables _ _ E1 _ _ Hv1))
    as Hdom.
  destruct Hfeas as [_ Hcs].
  assert (Hin : ∀ s c, extends s s12 → c ∈ constraints (model s) →
                       holds a c = true).
  { intros s c Hs Hc. apply Hcs. by apply Hs. }
  apply (Hin s2) in Hc1; [|done].
  apply (Hin s5) in Hc2; [|by eapply extends_trans].
  apply (Hin s7) in Hc3; [|done].
  apply (Hin s10) in Hc4; [|done].
  apply (Hin s12) in Hc5; [|apply extends_refl].
  cbn [holds forallb cmp_holds eval map fold_left] in Hc1, Hc2, Hc3, Hc4, Hc5.
  apply Z.eqb_eq in Hc1, Hc2, Hc3, Hc4, Hc5.
  rewrite eval_esum in Hc1. fold (works_sum a works) in Hc1.
  unfold contribution, weighted_sum.
  cbn [fst snd app fmap list_fmap zip_with foldr eval].
  rewrite Hc3, Hc5, Hc2, Hc4, Hc1. rewrite <-Hc1. lia.
Qed.

(** C8. With [hard_min = 2], [soft_min = 4], [min_cost = 3],
    [soft_max = 6], [hard_max = 8], [max_cost = 2], in every feasible
    assignment the sum [n] of [works] lies in [2, 8] and the excess variables
    the bounded-total primitive returns contribute exactly
    [3 * max(0, 4 - n) + 2 * max(0, n - 6)] to the objective: 3 for [n = 3],
    2 for [n = 7], 0 for [n = 5]. *)
Theorem soft_sum_contribution (works : list lit) (st st' : State)
    (res : list var * list Z) (a : assignment) :
  add_soft_sum_constraint works 2 4 3 6 8 2 st = Some (res, st') →
  feasible a (model st') →
  2 ≤ works_sum a works ≤ 8 ∧
  contribution a res
  = 3 * Z.max 0 (4 - works_sum a works) + 2 * Z.max 0 (works_sum a works - 6) ∧
  (works_sum a works = 3 → contribution a res = 3) ∧
  (works_sum a works = 7 → contribution a res = 2) ∧
  (works_sum a works = 5 → contribution a res = 0).
Proof.
  intros H Hfeas.
  destruct (soft_sum_general works 2 4 3 6 8 2 st st' res a eq_refl eq_refl
              H Hfeas) as [Hn Hc].
  generalize dependent (works_sum a works). intros n Hn Hc.
  generalize dependent (contribution a res). intros c Hc.
  lia.
Qed.

(** * Worked weekends *)

Section Weekends.
Variable D : Data.
Variable w : gmap (Z * Z * Z) var.

Lemma wk_inv_extends P Q loc st st' :
  extends st st' → wk_inv D w P Q loc st → wk_inv D w P Q loc st'.
Proof.
  intros Hext (Hp & Hww & Hwim). split_and!.
  - by apply Hext.
  - intros e wk HP. destruct (Hww e wk HP) as (x & Hx & Hsem).
    exists x. split; [done|]. intros a Hfeas. by eapply Hsem, feasible_extends.
  - intros e HQ. destruct (Hwim e HQ) as (x & Hx & Hdom & (i & Hi1 & Hi2) & Hsem).
    exists x. split_and!; [done|by apply Hext| |].
    + exists i. split; by apply Hext.
    + intros a Hfeas. by eapply Hsem, feasible_extends.
Qed.

Lemma wk_inv_weaken (P P' : Z * Z → Prop) (Q Q' : Z → Prop) loc st :
  (∀ k, P' k → P k) → (∀ e, Q' e → Q e) → wk_inv D w P Q loc st → wk_inv D w P' Q' loc st.
Proof.
  intros HP HQ (Hp & Hww & Hwim). split_and!; [done|..].
  - intros e wk ?. by apply Hww, HP.
  - intros e ?. by apply Hwim, HQ.
Qed.

Lemma satsun_eval a e wk s x :
  (sat ← W w e s (wk * 7 + 5); sun ← W w e s (wk * 7 + 6); Some (Plus sat sun))
    = Some x →
  eval a x = worked w a e s (wk * 7 + 5) + worked w a e s (wk * 7 + 6).
Proof.
  intros (sat & Hsat & (sun & Hsun & [= <-])%bind_Some)%bind_Some. simpl.
  by rewrite (W_eval _ _ _ _ _ _ Hsat), (W_eval _ _ _ _ _ _ Hsun).
Qed.

Lemma weekend_of_week_step P Q e loc wk st loc1 st1 :
  wk_inv D w P Q loc st →
  weekend_of_week D w e loc wk st = Some (loc1, st1) →
  wk_inv D w (λ k, P k ∨ k = (e, wk)) Q loc1 st1.
Proof.
  intros Hinv H.
  assert (Hext : extends st st1) by (by eapply mono_weekend_of_week).
  apply (wk_inv_extends _ _ _ _ _ Hext) in Hinv as (Hp & Hww & Hwim).
  unfold weekend_of_week in H.
  apply bind_inv in H as (b & ? & _ & H).
  apply bind_inv in H as (ww & ? & _ & H).
  apply bind_inv in H as (wwi & ? & _ & H).
  apply bind_inv in H as (? & ? & _ & H).
  apply bind_inv in H as (satsun & ? & [Hsatsun ->]%try_inv & H).
  apply bind_inv in H as (fri & ? & [Hfri ->]%try_inv & H).
  apply bind_inv in H as (? & ? & Hc1%add_constraint_spec & H). ext_of H E1.
  apply bind_inv in H as (? & ? & Hc2%add_constraint_spec & H). ext_of H E2.
  apply bind_inv in H as (? & ? & Hc3%add_constraint_spec & H). ext_of H E3.
  apply bind_inv in H as (? & ? & Hc4%add_constraint_spec & H). ext_of H E4.
  apply bind_inv in H as (? & ? & Hc5%add_constraint_spec & H).
  injection H as <- ->.
  apply E1 in Hc1. apply E2 in Hc2. apply E3 in Hc3. apply E4 in Hc4.
  assert (Hsem : ∀ a, feasible a (model st1) → a ww = worked_weekend D w a e wk).
  { intros a [_ Hcs]. apply Hcs in Hc1, Hc2, Hc3, Hc4, Hc5.
    simpl in Hc1, Hc2, Hc3, Hc4, Hc5. apply Z.eqb_eq in Hc1.
    rewrite (gen_sum_eval _ (λ s, worked w a e s (wk * 7 + 5)
                                  + worked w a e s (wk * 7 + 6)) a _ _
               (λ s0 ex _, satsun_eval a e wk s0 ex) Hsatsun) in Hc1.
    rewrite (gen_sum_eval _ (λ f, worked w a e f (wk * 7 + 4)) a _ _
               (λ f ex _, W_eval w a e f _ ex) Hfri) in Hc1.
    unfold worked_weekend, weekend_duties. rewrite <-Hc1.
    destruct (a b =? 0) eqn:Hb; simpl in *.
    + apply Z.eqb_eq in Hc3, Hc5. by rewrite Hc3, Hc5.
    + apply Z.eqb_eq in Hc4. apply Z.gtb_gt in Hc2. rewrite Hc4.
      by rewrite (proj2 (Z.ltb_lt _ _)) by lia. }
  split_and!; [done| |done].
  intros e' wk' HP; simpl.
  destruct (decide ((e', wk') = (e, wk))) as [[= -> ->]|Hne].
  - rewrite lookup_insert_eq. by exists ww.
  - rewrite lookup_insert_ne by done. destruct HP as [HP|?]; [by apply Hww|done].
Qed.
Lemma weekend_weeks P Q e wks loc st loc1 st1 :
  wk_inv D w P Q loc st →
  fold_ wks loc (weekend_of_week D w e) st = Some (loc1, st1) →
  wk_inv D w (λ k, P k ∨ ∃ wk, wk ∈ wks ∧ k = (e, wk)) Q loc1 st1 ∧
  weekends_in_month loc1 = weekends_in_month loc.
Proof.
  intros Hinv Hrun.
  apply (fold_invariant (λ wks loc' st',
    wk_inv D w (λ k, P k ∨ ∃ wk, wk ∈ wks ∧ k = (e, wk)) Q loc' st' ∧
    weekends_in_month loc' = weekends_in_month loc)) in Hrun; [done|..].
  - split; [|done]. eapply wk_inv_weaken; [| |done]; [|done].
    by intros k [HP|(wk & []%elem_of_nil & _)].
  - clear. intros pre wk loc' st' loc1 st1 [Hinv Heq] Hstep. split.
    + eapply wk_inv_weaken; [| |by eapply weekend_of_week_step]; [|done].
      intros k [HP|(wk' & [Hwk'| ->%list_elem_of_singleton]%elem_of_app & ->)];
        [by left; left|left; right; eauto|by right].
    + rewrite <-Heq. unfold weekend_of_week in Hstep.
      repeat (apply bind_inv in Hstep as (? & ? & _ & Hstep)).
      by injection Hstep as <- _.
Qed.

Lemma weekends_sum_eval loc st e tot a :
  ww_inv D w (λ k, ∃ wk, wk ∈ Py.range 0 (number_of_weeks D) ∧ k = (e, wk)) loc st →
  weekends_sum D (weekenddays_worked loc) e = Some tot →
  feasible a (model st) →
  eval a tot = weekends_worked D w a e (Py.range 0 (number_of_weeks D)).
Proof.
  intros Hww Htot Hfeas. unfold weekends_worked.
  eapply gen_sum_eval; [|exact Htot].
  intros wk x Hwk (v & Hv & ->)%fmap_Some.
  destruct (Hww e wk) as (v' & Hv' & Hsem); [by exists wk|].
  rewrite Hv in Hv'. injection Hv' as <-. simpl. by apply Hsem.
Qed.

Lemma weekends_of_employee_step P Q loc e st loc1 st1 :
  wk_inv D w P Q loc st →
  weekends_of_employee D w loc e st = Some (loc1, st1) →
  wk_inv D w (λ k, P k ∨ ∃ wk, wk ∈ Py.range 0 (number_of_weeks D) ∧ k = (e, wk))
         (λ e', Q e' ∨ e' = e) loc1 st1.
Proof.
  intros Hinv H. unfold weekends_of_employee in H. cbv zeta in H.
  apply bind_inv in H as (loc' & s0 & Hweeks & H).
  apply (weekend_weeks _ _ _ _ _ _ _ _ Hinv) in Hweeks as [Hinv' Hwim_eq].
  clear Hinv. ext_of H E0.
  apply bind_inv in H as (? & s1 & Hfor & H).
  apply bind_inv in H as (wim & s2 & Hnew & H). ext_of H E2.
  apply bind_inv in H as (tot & ? & [Htot ->]%try_inv & H).
  apply bind_inv in H as (? & s3 & Hadd & H). ext_of H E3.
  apply bind_inv in H as (? & s4 & Hobj & H). ext_of H E4.
  apply bind_inv in H as (tw & s5 & _ & H).
  apply bind_inv in H as (carried & ? & _ & H).
  apply bind_inv in H as (tot' & ? & _ & H).
  apply bind_inv in H as (? & s6 & _ & H).
  injection H as <- ->.
  assert (Hp3 : parallel s3).
  { destruct Hinv' as [Hp0 _].
    eapply ext_parallel; [by eapply mono_add_constraint|].
    eapply ext_parallel; [by eapply mono_NewIntVar|].
    eapply ext_parallel; [|exact Hp0].
    eapply mono_for; [|exact Hfor]. intros ?. mono_solve. }
  pose proof (wk_inv_extends _ _ _ _ _ E0 Hinv') as (Hp & Hww & Hwim).
  split_and!; [done|done|].
  intros e' HQ. simpl.
  destruct (decide (e' = e)) as [->|Hne].
  - rewrite lookup_insert_eq. exists wim. split_and!; [done| | |].
    + apply NewIntVar_spec in Hnew. by apply E2.
    + destruct Hp3 as [Hp3 _]. injection Hobj as _ <-.
      exists (length (obj_int_vars s3)). split.
      * apply E4. simpl. by rewrite lookup_app_r, Nat.sub_diag.
      * apply E4. simpl. rewrite Hp3. by rewrite lookup_app_r, Nat.sub_diag.
    + intros a Hfeas. apply add_constraint_spec in Hadd. apply E3 in Hadd.
      pose proof (proj2 Hfeas _ Hadd) as Hh. simpl in Hh. apply Z.eqb_eq in Hh.
      rewrite Hh. f_equal.
      eapply weekends_sum_eval; [|exact Htot|exact Hfeas].
      intros e' wk HP. apply Hww. by right.
  - rewrite lookup_insert_ne by done.
    destruct HQ as [HQ|?]; [by apply Hwim|done].
Qed.

Lemma weekends_spec st loc st' :
  parallel st →
  weekends D w st = Some (loc, st') →
  wk_inv D w (λ k, ∃ e wk, e ∈ Py.range 0 (num_employees D) ∧
                       wk ∈ Py.range 0 (number_of_weeks D) ∧ k = (e, wk))
         (λ e, e ∈ Py.range 0 (num_employees D)) loc st'.
Proof.
  intros Hp H. unfold weekends in H.
  apply bind_inv in H as (loc' & s0 & Hfold & H). ext_of H E0.
  repeat (apply bind_inv in H as (? & ? & _ & H)).
  injection H as <- _.
  apply (wk_inv_extends _ _ _ _ _ E0).
  apply (fold_invariant (λ es loc st,
    wk_inv D w (λ k, ∃ e wk, e ∈ es ∧ wk ∈ Py.range 0 (number_of_weeks D) ∧ k = (e, wk))
           (λ e, e ∈ es) loc st)) in Hfold.
  - done.
  - split_and!; [done|..].
    + by intros e wk (e' & wk' & []%elem_of_nil & _).
    + by intros e []%elem_of_nil.
  - clear. intros pre e loc st loc1 st1 Hinv Hstep.
    eapply wk_inv_weaken; [| |by eapply weekends_of_employee_step].
    + intros k (e' & wk & [He'| ->%list_elem_of_singleton]%elem_of_app & Hwk & ->);
        [left|right]; eauto.
    + intros e' [He'| ->%list_elem_of_singleton]%elem_of_app; [by left|by right].
Qed.
End Weekends.

(** C9, as the code has it. For every real employee [e], the objective
    carries with coefficient 2 the variable [weekends_in_month[e]], which in
    every feasible solution equals the number of weeks of the whole horizon
    in which [e] worked a weekend, minus one: every worked weekend beyond the
    first is penalized. There is no rolling four-week window. *)
Theorem weekends_beyond_first_penalized D loc st a e :
  solve_shift_scheduling D init = Some (loc, st) →
  feasible a (model st) →
  0 ≤ e < num_employees D →
  ∃ x, weekends_in_month loc !! e = Some x ∧
       (∃ i, obj_int_vars st !! i = Some x ∧ obj_int_coeffs st !! i = Some 2) ∧
       a x = weekends_worked D (work loc) a e (Py.range 0 (number_of_weeks D)) - 1.
Proof.
  intros Hasm%solve_assembled Hfeas He%range_elem.
  destruct Hasm as [_ _ _ _ _ _ _ (st1 & st2 & Hp & Hrun & Hext) _].
  apply (weekends_spec _ _ _ _ _ Hp) in Hrun.
  apply (wk_inv_extends _ _ _ _ _ _ _ Hext) in Hrun as (_ & _ & Hwim).
  destruct (Hwim e He) as (x & Hx & Hdom & Hobj & Hsem).
  exists x. split_and!; [done|done|by apply Hsem].
Qed.

(** X30. The domain [0, 2] of [weekends_in_month[e]] also bounds the number
    of worked weekends of the horizon: at least 1 and at most 3. *)
Lemma worked_weekends_between_1_and_3 D loc st a e :
  solve_shift_scheduling D init = Some (loc, st) →
  feasible a (model st) →
  0 ≤ e < num_employees D →
  1 ≤ weekends_worked D (work loc) a e (Py.range 0 (number_of_weeks D)) ≤ 3.
Proof.
  intros Hasm%solve_assembled Hfeas He%range_elem.
  destruct Hasm as [_ _ _ _ _ _ _ (st1 & st2 & Hp & Hrun & Hext) _].
  apply (weekends_spec _ _ _ _ _ Hp) in Hrun.
  apply (wk_inv_extends _ _ _ _ _ _ _ Hext) in Hrun as (_ & _ & Hwim).
  destruct (Hwim e He) as (x & Hx & Hdom & Hobj & Hsem).
  pose proof (feasible_domain _ _ _ _ _ Hfeas Hdom) as Hb.
  rewrite (Hsem a Hfeas) in Hb. lia.
Qed.

(** * The instances, evaluated *)

Lemma ex1_solved : solve_shift_scheduling ex1 init = Some (ex1_loc, ex1_st).
Proof. vm_compute. reflexivity. Qed.

Lemma ex1_feasible : feasible (values ex1_values) (model ex1_st).
Proof. apply feasibleb_sound. vm_compute. reflexivity. Qed.

Lemma ex2_solved : solve_shift_scheduling ex2 init = Some (ex2_loc, ex2_st).
Proof. vm_compute. reflexivity. Qed.

Lemma ex2_feasible : feasible (values ex2_values) (model ex2_st).
Proof. apply feasibleb_sound. vm_compute. reflexivity. Qed.

(** Closed decidable side conditions, by evaluation. *)
Ltac evaluate :=
  lazymatch goal with
  | |- _ ∈ _ => apply (bool_decide_unpack _); vm_compute; exact I
  | |- _ ∉ _ => apply (bool_decide_unpack _); vm_compute; exact I
  | |- _ ≠ _ => vm_compute; discriminate
  | |- _ ≤ _ < _ => vm_compute; split; [discriminate|reflexivity]
  | |- _ = _ => vm_compute; reflexivity
  | |- ¬ _ => apply (bool_decide_unpack _); vm_compute; exact I
  end.

Lemma cover_demand_met_exactly_witness :
  ∃ needed, CoverDemand ex1 9 3 = Some needed ∧
            headcount (work ex1_loc) (values ex1_values) 3 9
                      (num_employees_dummy ex1) = needed.
Proof.
  apply (cover_demand_met_exactly ex1 ex1_loc ex1_st (values ex1_values) 9 3
           ex1_solved ex1_feasible); evaluate.
Defined.

Lemma rest_day_after_night_shift_witness :
  worked (work ex1_loc) (values ex1_values) 0 0 (9 + 1) = 1.
Proof.
  apply (rest_day_after_night_shift ex1 ex1_loc ex1_st (values ex1_values) 0 3 9
           ex1_solved ex1_feasible); evaluate.
Defined.

Lemma one_or_two_shifts_per_day_witness :
  (1 ≤ length (assigned_shifts (work ex1_loc) (values ex1_values) 0 0
                 (Py.range 0 (num_shifts ex1))) ≤ 2)%nat ∧
  (length (assigned_shifts (work ex1_loc) (values ex1_values) 0 0
             (funktioner_no_combination ex1)) ≤ 1)%nat.
Proof.
  apply (one_or_two_shifts_per_day ex1 ex1_loc ex1_st (values ex1_values) 0 0
           ex1_solved ex1_feasible); evaluate.
Defined.

Lemma no_overlapping_shifts_witness :
  (∀ s1 s2, s1 ∈ funktioner_no_overlap ex1 → s2 ∈ funktioner_no_overlap ex1 →
            s1 ≠ s2 → shifts_overlap ex1 s1 s2 = Some true →
            ¬ (worked (work ex1_loc) (values ex1_values) 0 s1 9 = 1 ∧
               worked (work ex1_loc) (values ex1_values) 0 s2 9 = 1)) ∧
  (∀ s, s ∈ allow_overlap ex1 →
        ¬ (worked (work ex1_loc) (values ex1_values) 0 s 9 = 1 ∧
           worked (work ex1_loc) (values ex1_values) 0 0 9 = 1)).
Proof.
  apply (no_overlapping_shifts ex1 ex1_loc ex1_st (values ex1_values) 0 9
           ex1_solved ex1_feasible); evaluate.
Defined.

Lemma ineligible_not_assigned_witness :
  worked (work ex1_loc) (values ex1_values) 0 1 7 = 0.
Proof.
  apply (ineligible_not_assigned ex1 ex1_loc ex1_st (values ex1_values) 0 1 7
           ex1_solved ex1_feasible); evaluate.
Defined.

Lemma weekends_beyond_first_penalized_witness :
  ∃ x, weekends_in_month ex2_loc !! 0 = Some x ∧
       (∃ i, obj_int_vars ex2_st !! i = Some x ∧
             obj_int_coeffs ex2_st !! i = Some 2) ∧
       values ex2_values x
       = weekends_worked ex2 (work ex2_loc) (values ex2_values) 0
           (Py.range 0 (number_of_weeks ex2)) - 1.
Proof.
  apply (weekends_beyond_first_penalized ex2 ex2_loc ex2_st (values ex2_values) 0
           ex2_solved ex2_feasible); evaluate.
Defined.

(** ** Counterexamples to the claims as they are worded *)

(** C2 as worded fails: on day 0 of [ex1], A works the non-combinable shift 2 together with
    shift 1. *)
Lemma non_combinable_with_second_shift : ¬ single_shift_when_non_combinable ex1.
Proof.
  intros H.
  destruct (H ex1_loc ex1_st (values ex1_values) 0 0 ex1_solved ex1_feasible)
    as [_ Hone]; [evaluate..|].
  assert (Hlen : length (assigned_shifts (work ex1_loc) (values ex1_values) 0 0
                           (Py.range 0 (num_shifts ex1))) = 1%nat).
  { apply Hone. exists 2. split; evaluate. }
  vm_compute in Hlen. discriminate Hlen.
Qed.

(** C5 as worded fails: on day 0 of [ex1], A works shift 1 (08:00-16:00, overlap-allowed) and
    shift 2 (10:00-18:00, not overlap-allowed). *)
Lemma overlap_with_one_allowed_shift : ¬ overlap_only_when_both_allowed ex1.
Proof.
  intros H.
  destruct (H ex1_loc ex1_st (values ex1_values) 0 0 ex1_solved ex1_feasible)
    as [Hov _]; [evaluate..|].
  apply (Hov 1 2); try evaluate.
  split; evaluate.
Qed.

(** C6 as worded fails: on day 0 of [ex1], before the current period, A works shift 1 without
    being eligible for it. *)
Lemma ineligible_before_offset : ¬ ineligible_on_every_day ex1.
Proof.
  intros H.
  specialize (H ex1_loc ex1_st (values ex1_values) 0 1 0 ex1_solved ex1_feasible).
  assert (Hw : worked (work ex1_loc) (values ex1_values) 0 1 0 = 0).
  { apply H; evaluate. }
  vm_compute in Hw. discriminate Hw.
Qed.

(** C9 as worded fails: in [ex2], A works two weekends of the four: the variable is 1, the
    excess over 2 is 0. *)
Lemma second_weekend_already_penalized :
  ¬ penalty_is_excess_over_two_per_window ex2.
Proof.
  intros H.
  destruct (H ex2_loc ex2_st (values ex2_values) 0 0 ex2_solved ex2_feasible)
    as (x & Hx & Hval); [evaluate|vm_compute; split; discriminate|].
  vm_compute in Hx. injection Hx as <-.
  vm_compute in Hval. discriminate Hval.
Qed.

(** C4 at a failing input. In [ex1] the only seven-day window of the current
    period starts on day 7 ([offset = 7], [num_days = 14]); the loop over
    [range(offset, num_days - 7)] is empty, and A works two night shifts in
    that window in a feasible solution. *)
Theorem two_nights_in_last_window :
  offset ex1 ≤ 7 ∧ 7 + 6 ≤ num_days ex1 - 1 ∧
  Py.range (offset ex1) (num_days ex1 - 7) = [] ∧
  solve_shift_scheduling ex1 init = Some (ex1_loc, ex1_st) ∧
  feasible (values ex1_values) (model ex1_st) ∧
  nights_in_window ex1 (work ex1_loc) (values ex1_values) 0 7 = 2.
Proof.
  split_and!; [vm_compute; discriminate|vm_compute; discriminate|evaluate
              |exact ex1_solved|exact ex1_feasible|evaluate].
Qed.

(** ** The primitives on small sequences *)

Lemma ex8_ran :
  add_soft_sum_constraint ex8_works 2 4 3 6 8 2 ex8_st = Some (ex8_res, ex8_st').
Proof. vm_compute. reflexivity. Qed.

Lemma soft_sum_contribution_witness :
  2 ≤ works_sum (values ex8_sum3) ex8_works ≤ 8 ∧
  contribution (values ex8_sum3) ex8_res
  = 3 * Z.max 0 (4 - works_sum (values ex8_sum3) ex8_works)
    + 2 * Z.max 0 (works_sum (values ex8_sum3) ex8_works - 6) ∧
  (works_sum (values ex8_sum3) ex8_works = 3 →
   contribution (values ex8_sum3) ex8_res = 3) ∧
  (works_sum (values ex8_sum3) ex8_works = 7 →
   contribution (values ex8_sum3) ex8_res = 2) ∧
  (works_sum (values ex8_sum3) ex8_works = 5 →
   contribution (values ex8_sum3) ex8_res = 0).
Proof.
  apply (soft_sum_contribution ex8_works ex8_st ex8_st' ex8_res
           (values ex8_sum3) ex8_ran).
  apply feasibleb_sound. vm_compute. reflexivity.
Defined.

(** The three sums of the claim are all reached by feasible assignments,
    with the contributions 3, 0 and 2. *)
Example soft_sum_at_3_5_7 :
  (feasible (values ex8_sum3) (model ex8_st') ∧
   works_sum (values ex8_sum3) ex8_works = 3 ∧
   contribution (values ex8_sum3) ex8_res = 3) ∧
  (feasible (values ex8_sum5) (model ex8_st') ∧
   works_sum (values ex8_sum5) ex8_works = 5 ∧
   contribution (values ex8_sum5) ex8_res = 0) ∧
  (feasible (values ex8_sum7) (model ex8_st') ∧
   works_sum (values ex8_sum7) ex8_works = 7 ∧
   contribution (values ex8_sum7) ex8_res = 2).
Proof.
  split_and!; try (apply feasibleb_sound); vm_compute; reflexivity.
Qed.

(** On a sequence of length 10: runs of 2, of 3 and of 5 are accepted for
    their own bound and refused for the other two. *)
Example runs_on_length_10 :
  ex10_accepts 2 [1; 1; 0; 0; 1; 1; 0; 1; 1; 0] = true ∧
  ex10_accepts 3 [1; 1; 1; 0; 0; 0; 0; 1; 1; 1] = true ∧
  ex10_accepts 5 [0; 1; 1; 1; 1; 1; 0; 0; 0; 0] = true ∧
  ex10_accepts 2 [1; 1; 1; 0; 0; 0; 0; 1; 1; 1] = false ∧
  ex10_accepts 3 [1; 1; 0; 0; 1; 1; 0; 1; 1; 0] = false ∧
  ex10_accepts 5 [1; 1; 1; 1; 1; 1; 0; 0; 0; 0] = false ∧
  ex10_accepts 5 [1; 1; 1; 1; 0; 0; 0; 0; 0; 0] = false ∧
  ex10_accepts 3 [0; 0; 0; 0; 0; 0; 0; 0; 0; 0] = true.
Proof. vm_compute. repeat split. Qed.

(** * Further properties of the helpers, the primitives and the assembly *)

(** ** [test_overlap] and [in_nested_list] *)

Lemma overlap_minutes_common_minute a b c d :
  0 ≤ a < 1440 → 0 ≤ b < 1440 → 0 ≤ c < 1440 → 0 ≤ d < 1440 →
  a ≠ b → c ≠ d →
  overlap_minutes a b c d = true ↔
  ∃ m, 0 ≤ m < 1440 ∧ in_window a b m ∧ in_window c d m.
Proof.
  intros Ha Hb Hc Hd Hab Hcd. unfold overlap_minutes, in_window.
  destruct (b <? a) eqn:H1, (d <? c) eqn:H2;
    rewrite ?Z.ltb_lt, ?Z.ltb_ge in H1, H2.
  - split; [intros _|done]. exists (Z.max a c). lia.
  - rewrite orb_true_iff, !Z.ltb_lt. split.
    + intros [H|H]; [exists (Z.max a c)|exists c]; lia.
    + intros (m & Hm & H & H'). lia.
  - rewrite orb_true_iff, !Z.ltb_lt. split.
    + intros [H|H]; [exists (Z.max a c)|exists a]; lia.
    + intros (m & Hm & H & H'). lia.
  - destruct ((a >=? d) || (c >=? b)) eqn:H3.
    + apply orb_true_iff in H3. rewrite !Z.geb_le in H3. split; [done|].
      intros (m & Hm & H & H'). lia.
    + apply orb_false_iff in H3 as [H3 H4]. rewrite Z.geb_leb, Z.leb_gt in H3, H4.
      split; [intros _|done]. exists (Z.max a c). lia.
Qed.

(** X1. [test_overlap] on times of the day: two windows of positive
    length overlap exactly when some minute of the day lies in both. *)
Theorem test_overlap_common_minute t1_st t1_end t2_st t2_end a b c d :
  convert_to_minutes t1_st = Some a → convert_to_minutes t1_end = Some b →
  convert_to_minutes t2_st = Some c → convert_to_minutes t2_end = Some d →
  0 ≤ a < 1440 → 0 ≤ b < 1440 → 0 ≤ c < 1440 → 0 ≤ d < 1440 →
  a ≠ b → c ≠ d →
  test_overlap t1_st t1_end t2_st t2_end = Some true ↔
  ∃ m, 0 ≤ m < 1440 ∧ in_window a b m ∧ in_window c d m.
Proof.
  intros H1 H2 H3 H4 Ha Hb Hc Hd Hab Hcd. unfold test_overlap.
  rewrite H1, H2, H3, H4. simpl.
  rewrite <-(overlap_minutes_common_minute a b c d) by done.
  split; [by intros [= ->]|by intros ->].
Qed.

(** A window of zero length ([start = end]) is never taken as wrapping, and
    overlaps another window only when its instant lies strictly after the
    start or strictly before the end of that window. *)
Theorem test_overlap_zero_length t t2_st t2_end a c d :
  convert_to_minutes t = Some a →
  convert_to_minutes t2_st = Some c → convert_to_minutes t2_end = Some d →
  test_overlap t t t2_st t2_end
  = Some (if d <? c then (c <? a) || (a <? d) else (c <? a) && (a <? d)).
Proof.
  intros H1 H3 H4. unfold test_overlap. rewrite H1, H3, H4. simpl. f_equal.
  unfold overlap_minutes. rewrite Z.ltb_irrefl.
  destruct (d <? c); [done|].
  destruct (a >=? d) eqn:E1, (c >=? a) eqn:E2, (c <? a) eqn:E3, (a <? d) eqn:E4;
    try reflexivity; lia.
Qed.

Lemma split_length sep s : length (Py.split sep s) = S (count_char sep s).
Proof.
  induction s as [|x r IH]; [done|]. simpl.
  destruct (Ascii.eqb x sep); simpl; [by rewrite IH|].
  destruct (Py.split sep r) as [|h t]; [done|]. simpl in *. lia.
Qed.

Lemma convert_to_minutes_colon s m :
  convert_to_minutes s = Some m → count_char ":" s = 1%nat.
Proof.
  unfold convert_to_minutes. intros H.
  pose proof (split_length ":" s) as Hlen.
  destruct (Py.split ":" s) as [|h [|mi [|]]]; try done.
  simpl in Hlen. lia.
Qed.

(** [test_overlap] raises ([ValueError]) unless each of its four arguments
    contains exactly one [':']. *)
Theorem test_overlap_one_colon t1_st t1_end t2_st t2_end r :
  test_overlap t1_st t1_end t2_st t2_end = Some r →
  count_char ":" t1_st = 1%nat ∧ count_char ":" t1_end = 1%nat ∧
  count_char ":" t2_st = 1%nat ∧ count_char ":" t2_end = 1%nat.
Proof.
  unfold test_overlap. intros H.
  destruct (convert_to_minutes t1_st) eqn:H1; [|done].
  destruct (convert_to_minutes t1_end) eqn:H2; [|done].
  destruct (convert_to_minutes t2_st) eqn:H3; [|done].
  destruct (convert_to_minutes t2_end) eqn:H4; [|done].
  split_and!; by eapply convert_to_minutes_colon.
Qed.

(** [int] raises unless the string starts with white space, a sign or a
    digit. *)
Lemma int_first_character c r z :
  Py.int (String c r) = Some z →
  Py.is_space c = true ∨ c = "-"%char ∨ c = "+"%char ∨ is_Some (Py.digit_of c).
Proof.
  intros H. destruct (Py.is_space c) eqn:Hs; [by left|]. right.
  destruct (Py.digit_of c) eqn:Hd; [by right; right|].
  unfold Py.int in H. destruct (_ <? _); [done|].
  cbn [Py.lstrip] in H. rewrite Hs in H.
  destruct c as [[] [] [] [] [] [] [] []];
    try (by left); try (by right; left);
    cbn [Py.int_digits] in H; rewrite Hd in H; done.
Qed.

Lemma digit_char_spec n :
  0 ≤ n ≤ 9 →
  Py.digit_of (digit_char n) = Some n ∧
  Ascii.eqb (digit_char n) ":" = false ∧
  Py.is_space (digit_char n) = false ∧
  digit_char n ≠ "-"%char ∧ digit_char n ≠ "+"%char.
Proof.
  intros Hn.
  assert (n = 0 ∨ n = 1 ∨ n = 2 ∨ n = 3 ∨ n = 4 ∨ n = 5 ∨ n = 6 ∨ n = 7 ∨
          n = 8 ∨ n = 9) as H by lia.
  repeat (destruct H as [->|H]); try subst n; by vm_compute.
Qed.

Lemma int_two_digits x y :
  0 ≤ x ≤ 9 → 0 ≤ y ≤ 9 →
  Py.int (String (digit_char x) (String (digit_char y) EmptyString))
  = Some (10 * x + y).
Proof.
  intros (Hx & _ & Hsx & Hmx & Hpx)%digit_char_spec (Hy & _)%digit_char_spec.
  unfold Py.int.
  assert (Hcnt : Py.digit_count
            (String (digit_char x) (String (digit_char y) EmptyString)) = 2).
  { cbn [Py.digit_count]. by rewrite Hx, Hy. }
  rewrite Hcnt. change (Py.max_str_digits <? 2) with false. cbv iota.
  cbn [Py.lstrip]. rewrite Hsx.
  assert (Hgo : Py.int_digits 0 false
            (String (digit_char x) (String (digit_char y) EmptyString))
          = Some (10 * x + y)).
  { cbn [Py.int_digits]. rewrite Hx, Hy. by f_equal. }
  remember (digit_char x) as cx eqn:Hcx. clear Hcx Hx.
  destruct cx as [[] [] [] [] [] [] [] []]; done.
Qed.

(** X2. The nested [convert_to_minutes] reads every well-formed ['HH:MM']
    as [60 * HH + MM]. *)
Theorem convert_to_minutes_hh_mm h1 h2 m1 m2 :
  0 ≤ h1 ≤ 9 → 0 ≤ h2 ≤ 9 → 0 ≤ m1 ≤ 9 → 0 ≤ m2 ≤ 9 →
  convert_to_minutes (hh_mm h1 h2 m1 m2)
  = Some (60 * (10 * h1 + h2) + (10 * m1 + m2)).
Proof.
  intros Hh1 Hh2 Hm1 Hm2. unfold convert_to_minutes, hh_mm.
  destruct (digit_char_spec h1 Hh1) as (_ & E1 & _).
  destruct (digit_char_spec h2 Hh2) as (_ & E2 & _).
  destruct (digit_char_spec m1 Hm1) as (_ & E3 & _).
  destruct (digit_char_spec m2 Hm2) as (_ & E4 & _).
  cbn [Py.split]. rewrite E1, E2, E3, E4.
  change (Ascii.eqb ":" ":") with true. cbv iota.
  rewrite !int_two_digits by done. done.
Qed.

(** Induction on values, with the hypothesis for every element of a list. *)
Lemma pyval_nested_ind (P : pyval → Prop) :
  (∀ z, P (PInt z)) → (∀ s, P (PStr s)) →
  (∀ l, Forall P l → P (PList l)) → ∀ v, P v.
Proof.
  intros HI HS HL. fix IH 1. intros [z|s|l]; [apply HI|apply HS|].
  apply HL. induction l as [|x l IHl]; constructor; [apply IH|apply IHl].
Qed.

Lemma pyval_eqb_eq x y : pyval_eqb x y = true ↔ x = y.
Proof.
  revert y. induction x as [a|a|l IH] using pyval_nested_ind; intros [b|b|k];
    simpl; try (split; [discriminate|congruence]).
  - rewrite Z.eqb_eq. split; congruence.
  - rewrite String.eqb_eq. split; congruence.
  - revert k. induction IH as [|x l Hx _ IHl]; intros [|y k];
      try (split; [discriminate|congruence]); [done|].
    rewrite andb_true_iff, Hx, IHl. split; [intros [-> [= ->]]|intros [= -> ->]]; done.
Qed.

Lemma existsb_pyval_eqb item l : existsb (pyval_eqb item) l = true ↔ item ∈ l.
Proof.
  rewrite existsb_exists. setoid_rewrite pyval_eqb_eq.
  setoid_rewrite <-list_elem_of_In. naive_solver.
Qed.

Lemma in_nested_lists_of v item :
  in_nested v item = true ↔ ∃ k, k ∈ lists_of v ∧ item ∈ k.
Proof.
  induction v as [z|s|l IH] using pyval_nested_ind; simpl.
  - split; [done|]. by intros (k & []%elem_of_nil & _).
  - split; [done|]. by intros (k & []%elem_of_nil & _).
  - destruct (existsb (pyval_eqb item) l) eqn:Hex.
    + split; [intros _|done]. exists l. split; [by left|].
      by apply existsb_pyval_eqb.
    + assert (Hnot : item ∉ l).
      { intros Hin%existsb_pyval_eqb. congruence. }
      transitivity (∃ k, k ∈ flat_map lists_of l ∧ item ∈ k).
      2:{ split; intros (k & Hk & Hin); exists k; [by split; [right|]|].
          apply elem_of_cons in Hk as [->|Hk]; done. }
      clear Hex Hnot. induction IH as [|x l Hx _ IHl]; simpl.
      * split; [done|]. by intros (k & []%elem_of_nil & _).
      * setoid_rewrite elem_of_app.
        destruct x as [z|s|l0].
        -- rewrite IHl. simpl. split; intros (k & Hk & Hin); exists k; [by auto|].
           by destruct Hk as [[]%elem_of_nil|Hk].
        -- rewrite IHl. simpl. split; intros (k & Hk & Hin); exists k; [by auto|].
           by destruct Hk as [[]%elem_of_nil|Hk].
        -- rewrite orb_true_iff, Hx, IHl. naive_solver.
Qed.

(** X3. [in_nested_list] finds an item exactly when it is an element of
    the list itself or of a list nested in it at any depth. *)
Theorem in_nested_list_any_depth my_list item :
  in_nested_list my_list item = true ↔
  ∃ k, k ∈ lists_of (PList my_list) ∧ item ∈ k.
Proof. apply in_nested_lists_of. Qed.

Lemma for_inv {A} (l : list A) (body : A → M unit) x st st' :
  (∀ y, mono (body y)) → for_ l body st = Some ((), st') → x ∈ l →
  ∃ s1 s2, extends st s1 ∧ body x s1 = Some ((), s2) ∧ extends s2 st'.
Proof.
  intros Hb. revert st. induction l as [|y l IH]; intros st Hrun Hx.
  { by apply elem_of_nil in Hx. }
  simpl in Hrun. apply bind_inv in Hrun as ([] & sta & Hhd & Htl).
  apply elem_of_cons in Hx as [->|Hx].
  - exists st, sta. split_and!; [apply extends_refl|done|].
    by eapply (mono_for l body).
  - destruct (IH _ Htl Hx) as (s1 & s2 & E1 & Hrun & E2).
    exists s1, s2. split_and!; [|done..].
    eapply extends_trans; [by eapply Hb|done].
Qed.

(** ** [negated_bounded_span] *)

Lemma span_violated_by_run (works : list lit) (a : assignment)
    (start length : nat) :
  (0 < length)%nat → (start + length ≤ List.length works)%nat →
  ∃ span,
    negated_bounded_span works (Z.of_nat start) (Z.of_nat length) = Some span ∧
    (holds a (BoolOr span) = false ↔ maximal_run (truth works a) start length).
Proof.
  intros Hpos Hlen.
  destruct (negated_bounded_span_spec works a start length Hlen)
    as (span & Hspan & Hsem).
  exists span. split; [done|]. simpl. rewrite Hsem. unfold maximal_run.
  assert (Hl : List.length (truth works a) = List.length works)
    by (unfold truth; apply length_fmap).
  rewrite Hl. naive_solver.
Qed.

(** X4. For a span that fits in the sequence, the returned clause is
    violated exactly by the assignments in which the span is a maximal run
    of [true] values: all of its literals true, the literal before it and
    the literal after it false or absent. *)
Theorem negated_bounded_span_isolated_run (works : list lit) (a : assignment)
    (start length : nat) :
  (0 < length)%nat → (start + length ≤ List.length works)%nat →
  ∃ span,
    negated_bounded_span works (Z.of_nat start) (Z.of_nat length) = Some span ∧
    (holds a (BoolOr span) = false ↔ maximal_run (truth works a) start length).
Proof. apply span_violated_by_run. Qed.

(** X5. A span that runs past the end of the sequence raises
    ([IndexError]). *)
Theorem negated_bounded_span_out_of_range (works : list lit) (start length : Z) :
  0 ≤ start → 0 < length → len works < start + length →
  negated_bounded_span works start length = None.
Proof.
  intros Hs Hl Hlen. unfold negated_bounded_span.
  destruct (if start >? 0 then _ else _) as [lft|]; [|done]. simpl.
  assert (Hm : mapM (λ i, lit_not <$> Py.index works (start + i))
                    (Py.range 0 length) = None); [|by rewrite Hm].
  apply mapM_None, Exists_exists. unfold len in Hlen.
  exists (Z.max 0 (Z.of_nat (List.length works) - start)). split.
  - apply range_elem. lia.
  - apply fmap_None. unfold Py.index.
    rewrite (proj2 (Z.leb_le 0 _)) by lia. apply lookup_ge_None. lia.
Qed.

(** ** [add_soft_sequence_constraint] *)

Lemma pen_inv_extends works P costs st st' :
  extends st st' → pen_inv works P costs st → pen_inv works P costs st'.
Proof.
  intros Hext (Hlen & Hpos & Hp). split_and!; [done..|].
  intros l s c HP. destruct (Hp l s c HP) as (span & v & i & ? & ? & ? & Hc).
  exists span, v, i. split_and!; [done..|]. by apply Hext.
Qed.

Lemma pen_inv_weaken works (P P' : Z → Z → Z → Prop) costs st :
  (∀ l s c, P' l s c → P l s c) → pen_inv works P costs st → pen_inv works P' costs st.
Proof. intros HP (Hlen & Hpos & Hp). split_and!; auto. Qed.

Lemma pen_step works P costs st length start c costs' st' :
  0 < c → pen_inv works P costs st →
  (span ← try (negated_bounded_span works start length);
   lit ← NewBoolVar;
   AddBoolOr (span ++ [Pos lit]) ;;
   mret (costs.1 ++ [Pos lit], costs.2 ++ [c])) st = Some (costs', st') →
  pen_inv works (λ l s c', P l s c' ∨ (l = length ∧ s = start ∧ c' = c)) costs' st'.
Proof.
  intros Hc Hinv H. ext_of H E.
  apply (pen_inv_extends _ _ _ _ _ E) in Hinv as (Hlen & Hpos & Hp).
  apply bind_inv in H as (span & ? & [Hspan ->]%try_inv & H).
  apply bind_inv in H as (v & s1 & _ & H).
  apply bind_inv in H as (? & s2 & Hadd%add_constraint_spec & H).
  injection H as <- <-. split_and!; simpl.
  - rewrite !length_app. simpl. lia.
  - apply Forall_app. split; [done|]. by constructor.
  - intros l s c' [HP|(-> & -> & ->)].
    + destruct (Hp l s c' HP) as (span' & v' & i & ? & ? & ? & ?).
      exists span', v', i. split_and!; [done| | |done]; by apply lookup_app_l_Some.
    + exists span, v, (List.length costs.1). split_and!; [done| | |done].
      * by rewrite lookup_app_r, Nat.sub_diag.
      * rewrite Hlen. by rewrite lookup_app_r, Nat.sub_diag.
Qed.

Lemma pen_starts works P costs st length starts c costs' st' :
  0 < c → pen_inv works P costs st →
  fold_ starts costs (λ costs start,
    span ← try (negated_bounded_span works start length);
    lit ← NewBoolVar;
    AddBoolOr (span ++ [Pos lit]) ;;
    mret (costs.1 ++ [Pos lit], costs.2 ++ [c])) st = Some (costs', st') →
  pen_inv works (λ l s c', P l s c' ∨ (l = length ∧ s ∈ starts ∧ c' = c)) costs' st'.
Proof.
  intros Hc Hinv Hrun.
  apply (fold_invariant (λ starts costs st,
    pen_inv works (λ l s c', P l s c' ∨ (l = length ∧ s ∈ starts ∧ c' = c))
            costs st)) in Hrun; [done|..].
  - eapply pen_inv_weaken; [|done].
    by intros l s c' [HP|(_ & []%elem_of_nil & _)].
  - clear -Hc. intros pre start costs st costs1 st1 Hinv Hstep.
    eapply pen_inv_weaken; [|by eapply pen_step].
    intros l s c' [HP|(-> & [Hs| ->%list_elem_of_singleton]%elem_of_app & ->)];
      [by left; left|left; right; eauto|by right].
Qed.

Lemma pen_lengths works P costs st lengths (coef : Z → Z) costs' st' :
  (∀ l, l ∈ lengths → 0 < coef l) → pen_inv works P costs st →
  fold_ lengths costs (λ costs length,
    fold_ (Py.range 0 (len works - length + 1)) costs (λ costs start,
      span ← try (negated_bounded_span works start length);
      lit ← NewBoolVar;
      AddBoolOr (span ++ [Pos lit]) ;;
      mret (costs.1 ++ [Pos lit], costs.2 ++ [coef length]))) st
    = Some (costs', st') →
  pen_inv works (λ l s c, P l s c ∨
                   (l ∈ lengths ∧ s ∈ Py.range 0 (len works - l + 1) ∧ c = coef l))
          costs' st'.
Proof.
  intros Hcoef Hinv Hrun.
  apply (fold_invariant (λ lengths costs st,
    (∀ l, l ∈ lengths → 0 < coef l) →
    pen_inv works (λ l s c, P l s c ∨
                     (l ∈ lengths ∧ s ∈ Py.range 0 (len works - l + 1) ∧ c = coef l))
            costs st)) in Hrun.
  - done.
  - intros _. eapply pen_inv_weaken; [|done].
    by intros l s c [HP|([]%elem_of_nil & _)].
  - clear. intros pre length costs st costs1 st1 Hinv Hstep Hcoef.
    assert (Hc : 0 < coef length).
    { apply Hcoef, elem_of_app. right. by apply list_elem_of_singleton. }
    assert (Hpre : ∀ l, l ∈ pre → 0 < coef l).
    { intros l Hl. apply Hcoef, elem_of_app. by left. }
    apply Hinv in Hpre.
    eapply pen_inv_weaken; [|by eapply pen_starts].
    intros l s c [HP|([Hl| ->%list_elem_of_singleton]%elem_of_app & Hs & ->)];
      [by left; left|left; right; eauto|by right].
  - done.
Qed.

(** What a successful call has put in the model and returned. *)
Lemma soft_sequence_spec works hmin smin cmin smax hmax cmax st res st' :
  add_soft_sequence_constraint works hmin smin cmin smax hmax cmax st
    = Some (res, st') →
  pen_inv works (penalized_spans works hmin smin cmin smax hmax cmax) res st' ∧
  (∀ length start, 1 ≤ length < hmin → 0 ≤ start < len works - length + 1 →
     ∃ span, negated_bounded_span works start length = Some span ∧
             BoolOr span ∈ constraints (model st')) ∧
  (∀ start, 0 ≤ start < len works - hmax →
     ∃ window, mapM (λ i, lit_not <$> Py.index works i)
                    (Py.range start (start + hmax + 1)) = Some window ∧
               BoolOr window ∈ constraints (model st')).
Proof.
  intros H. unfold add_soft_sequence_constraint in H. cbv zeta in H.
  apply bind_inv in H as ([] & s1 & H1 & H). ext_of H E1.
  apply bind_inv in H as (costs1 & s2 & H2 & H). ext_of H E2.
  apply bind_inv in H as (costs2 & s3 & H3 & H). ext_of H E3.
  apply bind_inv in H as ([] & s4 & H4 & H). injection H as <- <-.
  split_and!.
  - ext_of H4 E4. apply (pen_inv_extends _ _ _ _ _ E4).
    assert (Hlow : pen_inv works (λ l s c, 0 < cmin ∧ hmin ≤ l < smin ∧
              0 ≤ s < len works - l + 1 ∧ c = cmin * (smin - l)) costs1 s2).
    { destruct (cmin >? 0) eqn:Hc.
      - apply Z.gtb_gt in Hc.
        apply (pen_lengths _ (λ _ _ _, False) _ _ _ (λ l, cmin * (smin - l)))
          in H2.
        + eapply pen_inv_weaken; [|exact H2].
          intros l s c (_ & Hl%range_elem & Hs%range_elem & ->). by right.
        + intros l Hl%range_elem. nia.
        + split_and!; [done|constructor|done].
      - injection H2 as <- <-. split_and!; [done|constructor|].
        intros l s c (Hpos & _). lia. }
    destruct (cmax >? 0) eqn:Hc.
    + apply Z.gtb_gt in Hc.
      eapply (pen_lengths _ _ _ _ _ (λ l, cmax * (l - smax))) in H3;
        [| |exact Hlow].
      * eapply pen_inv_weaken; [|exact H3].
        intros l s c [?|(? & Hl%range_elem & Hs%range_elem & ->)]; [by left|by right].
      * intros l Hl%range_elem. nia.
    + injection H3 as <- <-. eapply pen_inv_weaken; [|exact Hlow].
      intros l s c [?|(Hpos & _)]; [done|lia].
  - intros length start Hl%range_elem Hs%range_elem.
    eapply for_inv in H1 as (sa & sb & _ & H1 & Eb); [|intros ?; mono_solve|exact Hl].
    eapply for_inv in H1 as (sc & sd & _ & H1 & Ed); [|intros ?; mono_solve|exact Hs].
    apply bind_inv in H1 as (span & ? & [Hspan ->]%try_inv & Hadd%add_constraint_spec).
    exists span. split; [done|].
    apply E1, Eb, Ed, Hadd.
  - intros start Hs%range_elem.
    eapply for_inv in H4 as (sa & sb & _ & H4 & Eb); [|intros ?; mono_solve|exact Hs].
    apply bind_inv in H4 as (window & ? & [Hw ->]%try_inv & Hadd%add_constraint_spec).
    exists window. split; [done|]. apply Eb, Hadd.
Qed.

(** X6. Every maximal run of [true] values has a length within the hard
    bounds, whatever the soft bounds and the costs are. *)
Theorem soft_sequence_hard_bounds (works : list lit)
    (hard_min soft_min min_cost soft_max hard_max max_cost : Z)
    (st st' : State) (res : list lit * list Z) (a : assignment)
    (start length : nat) :
  add_soft_sequence_constraint works hard_min soft_min min_cost
                               soft_max hard_max max_cost st = Some (res, st') →
  feasible a (model st') →
  maximal_run (truth works a) start length →
  hard_min ≤ Z.of_nat length ≤ hard_max.
Proof.
  intros (_ & Hshort & Hlong)%soft_sequence_spec [_ Hcs] Hrun.
  assert (Hl : List.length (truth works a) = List.length works)
    by (unfold truth; apply length_fmap).
  pose proof Hrun as (Hpos & Hlen & Htrue & _). rewrite Hl in Hlen.
  split.
  - destruct (decide (hard_min ≤ Z.of_nat length)) as [|Hlt]; [done|exfalso].
    destruct (Hshort (Z.of_nat length) (Z.of_nat start)) as (span & Hspan & Hin);
      [lia|unfold len; lia|].
    destruct (span_violated_by_run works a start length Hpos Hlen)
      as (span' & Hspan' & Hsem).
    rewrite Hspan in Hspan'. injection Hspan' as <-.
    apply Hcs in Hin. apply Hsem in Hrun. congruence.
  - destruct (decide (Z.of_nat length ≤ hard_max)) as [|Hgt]; [done|exfalso].
    destruct (Hlong (Z.of_nat start)) as (window & Hw & Hin); [unfold len; lia|].
    apply Hcs in Hin. simpl in Hin.
    destruct (decide (0 ≤ hard_max)) as [Hnn|Hneg].
    + destruct (window_spec works a start (Z.to_nat hard_max))
        as (ws & Hws & Hsem); [lia|].
      rewrite Z2Nat.id in Hws by lia. rewrite Hw in Hws. injection Hws as <-.
      rewrite (proj2 Hsem) in Hin; [done|].
      intros i Hi. apply Htrue. lia.
    + unfold Py.range, seqZ in Hw. rewrite Z2Nat.nonpos in Hw by lia.
      simpl in Hw. by injection Hw as <-.
Qed.

(** X7. A maximal run whose length lies within the hard bounds but beyond
    a soft bound that carries a cost makes a returned penalty literal true,
    and the coefficient returned with that literal is the cost times the
    distance to the soft bound. *)
Theorem soft_sequence_run_penalized (works : list lit)
    (hard_min soft_min min_cost soft_max hard_max max_cost : Z)
    (st st' : State) (res : list lit * list Z) (a : assignment)
    (start length : nat) :
  add_soft_sequence_constraint works hard_min soft_min min_cost
                               soft_max hard_max max_cost st = Some (res, st') →
  feasible a (model st') →
  maximal_run (truth works a) start length →
  (0 < min_cost → hard_min ≤ Z.of_nat length < soft_min →
   ∃ i l, res.1 !! i = Some l ∧ lit_true a l = true ∧
          res.2 !! i = Some (min_cost * (soft_min - Z.of_nat length))) ∧
  (0 < max_cost → soft_max < Z.of_nat length ≤ hard_max →
   ∃ i l, res.1 !! i = Some l ∧ lit_true a l = true ∧
          res.2 !! i = Some (max_cost * (Z.of_nat length - soft_max))).
Proof.
  intros ((_ & _ & Hpen) & _)%soft_sequence_spec [_ Hcs] Hrun.
  assert (Hl : List.length (truth works a) = List.length works)
    by (unfold truth; apply length_fmap).
  pose proof Hrun as (Hpos & Hlen & _). rewrite Hl in Hlen.
  destruct (span_violated_by_run works a start length Hpos Hlen)
    as (span & Hspan & Hsem).
  apply Hsem in Hrun. simpl in Hrun.
  assert (Hone : ∀ c,
    penalized_spans works hard_min soft_min min_cost soft_max hard_max max_cost
                    (Z.of_nat length) (Z.of_nat start) c →
    ∃ i l, res.1 !! i = Some l ∧ lit_true a l = true ∧ res.2 !! i = Some c).
  { intros c (span' & v & i & Hspan' & Hl1 & Hl2 & Hin)%Hpen.
    rewrite Hspan in Hspan'. injection Hspan' as <-.
    apply Hcs in Hin. simpl in Hin.
    rewrite existsb_app, Hrun in Hin. simpl in Hin. rewrite orb_false_r in Hin.
    by exists i, (Pos v). }
  split; intros Hc Hb; apply Hone; [left|right]; unfold len; split_and!; lia.
Qed.

(** The two returned lists are parallel and every returned coefficient is
    positive: a penalty literal never rewards. *)
Theorem soft_sequence_costs_positive (works : list lit)
    (hard_min soft_min min_cost soft_max hard_max max_cost : Z)
    (st st' : State) (res : list lit * list Z) :
  add_soft_sequence_constraint works hard_min soft_min min_cost
                               soft_max hard_max max_cost st = Some (res, st') →
  List.length res.1 = List.length res.2 ∧ Forall (λ c, 0 < c) res.2.
Proof. by intros ((? & ? & _) & _)%soft_sequence_spec. Qed.

(** ** [add_soft_sum_constraint] for any bounds and costs *)

(** One penalized side: [delta], its defining equation, [excess] and the
    maximum with zero. *)
Lemma excess_block (dlo dhi : Z) (e : expr) (c : Z) (costs : list var * list Z)
    st costs' st' stf a :
  (delta ← NewIntVar dlo dhi;
   Add (V delta) Eq e ;;
   excess ← NewIntVar 0 7;
   AddMaxEquality (V excess) [V delta; Const 0] ;;
   mret (costs.1 ++ [excess], costs.2 ++ [c])) st = Some (costs', st') →
  extends st' stf → feasible a (model stf) →
  ∃ x, costs' = (costs.1 ++ [x], costs.2 ++ [c]) ∧
       a x = Z.max 0 (eval a e) ∧ 0 ≤ a x ≤ 7 ∧ dlo ≤ eval a e ≤ dhi.
Proof.
  intros H Hext Hfeas.
  apply bind_inv in H as (delta & s1 & Hv1%NewIntVar_spec & H). ext_of H E1.
  apply bind_inv in H as ([] & s2 & Hc1%add_constraint_spec & H). ext_of H E2.
  apply bind_inv in H as (excess & s3 & Hv2%NewIntVar_spec & H). ext_of H E3.
  apply bind_inv in H as ([] & s4 & Hc2%add_constraint_spec & H).
  injection H as <- <-. exists excess. split; [done|].
  apply E1, Hext in Hv1. apply E3, Hext in Hv2.
  apply E2, Hext in Hc1. apply Hext in Hc2.
  pose proof (feasible_domain _ _ _ _ _ Hfeas Hv1) as Hd1.
  pose proof (feasible_domain _ _ _ _ _ Hfeas Hv2) as Hd2.
  destruct Hfeas as [_ Hcs]. apply Hcs in Hc1, Hc2.
  cbn [holds forallb cmp_holds eval map fold_left] in Hc1, Hc2.
  apply Z.eqb_eq in Hc1, Hc2. rewrite <-Hc1. lia.
Qed.

(** What a successful call guarantees in every feasible assignment. *)
Lemma soft_sum_spec (works : list lit)
    (hard_min soft_min min_cost soft_max hard_max max_cost : Z)
    (st st' : State) (res : list var * list Z) (a : assignment) :
  add_soft_sum_constraint works hard_min soft_min min_cost
                          soft_max hard_max max_cost st = Some (res, st') →
  feasible a (model st') →
  let n := works_sum a works in
  hard_min ≤ n ≤ hard_max ∧
  ∃ lo hi : list var * list Z,
    res = (lo.1 ++ hi.1, lo.2 ++ hi.2) ∧
    (if lower_active hard_min soft_min min_cost
     then ∃ x, lo = ([x], [min_cost]) ∧ a x = Z.max 0 (soft_min - n) ∧
               0 ≤ a x ≤ 7 ∧ - len works ≤ soft_min - n ≤ len works
     else lo = ([], [])) ∧
    (if upper_active soft_max hard_max max_cost
     then ∃ x, hi = ([x], [max_cost]) ∧ a x = Z.max 0 (n - soft_max) ∧
               0 ≤ a x ≤ 7 ∧ -7 ≤ n - soft_max ≤ 7
     else hi = ([], [])).
Proof.
  intros H Hfeas n. unfold add_soft_sum_constraint in H. cbv zeta in H.
  fold (lower_active hard_min soft_min min_cost) in H.
  fold (upper_active soft_max hard_max max_cost) in H.
  apply bind_inv in H as (sum_var & s1 & Hv%NewIntVar_spec & H). ext_of H E1.
  apply bind_inv in H as ([] & s2 & Hc%add_constraint_spec & H). ext_of H E2.
  apply bind_inv in H as (costs1 & s3 & Hlo & H). ext_of H E3.
  apply bind_inv in H as (costs2 & s4 & Hhi & H). injection H as <- <-.
  apply E1 in Hv. apply E2 in Hc.
  pose proof (feasible_domain _ _ _ _ _ Hfeas Hv) as Hdom.
  pose proof (proj2 Hfeas _ Hc) as Hsum.
  cbn [holds forallb cmp_holds eval] in Hsum. apply Z.eqb_eq in Hsum.
  rewrite eval_esum in Hsum. fold (works_sum a works) in Hsum. fold n in Hsum.
  split; [lia|].
  assert (Hlow : if lower_active hard_min soft_min min_cost
     then ∃ x, costs1 = ([x], [min_cost]) ∧ a x = Z.max 0 (soft_min - n) ∧
               0 ≤ a x ≤ 7 ∧ - len works ≤ soft_min - n ≤ len works
     else costs1 = ([], [])).
  { destruct (lower_active _ _ _).
    - eapply excess_block in Hlo as (x & -> & Hx); [|exact E3|exact Hfeas].
      exists x. split; [done|]. cbn [eval] in Hx. by rewrite Hsum in Hx.
    - by injection Hlo as <- _. }
  assert (Hupp : ∃ hi, costs2 = (costs1.1 ++ hi.1, costs1.2 ++ hi.2) ∧
     if upper_active soft_max hard_max max_cost
     then ∃ x, hi = ([x], [max_cost]) ∧ a x = Z.max 0 (n - soft_max) ∧
               0 ≤ a x ≤ 7 ∧ -7 ≤ n - soft_max ≤ 7
     else hi = ([], [])).
  { destruct (upper_active _ _ _).
    - eapply excess_block in Hhi as (x & -> & Hx);
        [|apply extends_refl|exact Hfeas].
      exists ([x], [max_cost]). split; [done|]. exists x. split; [done|].
      cbn [eval] in Hx. by rewrite Hsum in Hx.
    - injection Hhi as <- _. exists ([], []). simpl. rewrite !app_nil_r.
      by destruct costs1. }
  destruct Hupp as (hi & -> & Hupp). by exists costs1, hi.
Qed.

(** X8. For any bounds and costs, in every feasible assignment the sum of
    [works] lies within the hard bounds, and the returned excess variables
    contribute [min_cost * max(0, soft_min - sum)] when the lower soft bound
    is active ([soft_min > hard_min] and [min_cost > 0]) plus
    [max_cost * max(0, sum - soft_max)] when the upper one is
    ([soft_max < hard_max] and [max_cost > 0]), and nothing otherwise. *)
Theorem soft_sum_contribution_any_bounds (works : list lit)
    (hard_min soft_min min_cost soft_max hard_max max_cost : Z)
    (st st' : State) (res : list var * list Z) (a : assignment) :
  add_soft_sum_constraint works hard_min soft_min min_cost
                          soft_max hard_max max_cost st = Some (res, st') →
  feasible a (model st') →
  hard_min ≤ works_sum a works ≤ hard_max ∧
  contribution a res
  = (if lower_active hard_min soft_min min_cost
     then min_cost * Z.max 0 (soft_min - works_sum a works) else 0)
    + (if upper_active soft_max hard_max max_cost
       then max_cost * Z.max 0 (works_sum a works - soft_max) else 0).
Proof.
  intros H Hfeas.
  destruct (soft_sum_spec _ _ _ _ _ _ _ _ _ _ _ H Hfeas)
    as (Hhard & lo & hi & -> & Hlo & Hhi).
  split; [done|]. unfold contribution, weighted_sum.
  destruct (lower_active _ _ _), (upper_active _ _ _).
  - destruct Hlo as (x & -> & Hx & _), Hhi as (y & -> & Hy & _).
    cbn [fst snd app fmap list_fmap zip_with foldr eval]. lia.
  - destruct Hlo as (x & -> & Hx & _). subst hi.
    cbn [fst snd app fmap list_fmap zip_with foldr eval]. lia.
  - destruct Hhi as (y & -> & Hy & _). subst lo.
    cbn [fst snd app fmap list_fmap zip_with foldr eval]. lia.
  - by subst lo hi.
Qed.

(** X9. The excess variables have the fixed domain [0, 7] and the upper
    [delta] the fixed domain [-7, 7]: an active soft bound also forbids every
    sum more than 7 away from it (for the lower bound: more than 7 below, or
    further away than the number of literals). *)
Theorem soft_sum_excess_limits (works : list lit)
    (hard_min soft_min min_cost soft_max hard_max max_cost : Z)
    (st st' : State) (res : list var * list Z) (a : assignment) :
  add_soft_sum_constraint works hard_min soft_min min_cost
                          soft_max hard_max max_cost st = Some (res, st') →
  feasible a (model st') →
  (lower_active hard_min soft_min min_cost = true →
   soft_min - 7 ≤ works_sum a works ∧
   soft_min - len works ≤ works_sum a works ≤ soft_min + len works) ∧
  (upper_active soft_max hard_max max_cost = true →
   soft_max - 7 ≤ works_sum a works ≤ soft_max + 7).
Proof.
  intros H Hfeas.
  destruct (soft_sum_spec _ _ _ _ _ _ _ _ _ _ _ H Hfeas)
    as (_ & lo & hi & _ & Hlo & Hhi).
  split; intros Hact.
  - rewrite Hact in Hlo. destruct Hlo as (x & _ & Hx & Hd & Hl). lia.
  - rewrite Hact in Hhi. destruct Hhi as (x & _ & Hx & Hd & Hl). lia.
Qed.

(** ** Boolean objective terms *)

Lemma keeps_bool_refl st : keeps_bool st st.
Proof. by constructor. Qed.

Lemma keeps_bool_trans st1 st2 st3 :
  keeps_bool st1 st2 → keeps_bool st2 st3 → keeps_bool st1 st3.
Proof. intros [] []. constructor; auto. Qed.

Lemma steady_ret {A} (x : A) : steady (mret x : M A).
Proof. intros st y st' [= _ <-]. apply keeps_bool_refl. Qed.

Lemma steady_bind {A B} (m : M A) (f : A → M B) :
  steady m → (∀ x, steady (f x)) → steady (m ≫= f).
Proof.
  intros Hm Hf st y st' (x & st1 & H1 & H2)%bind_inv.
  eapply keeps_bool_trans; [by eapply Hm | by eapply Hf].
Qed.

Lemma steady_try {A} (o : option A) : steady (try o).
Proof. intros st x st' [_ ->]%try_inv. apply keeps_bool_refl. Qed.

Lemma steady_when b (m : M unit) : steady m → steady (when b m).
Proof. destruct b; [done|]. intros _. apply steady_ret. Qed.

Lemma steady_for {A} (l : list A) (body : A → M unit) :
  (∀ x, steady (body x)) → steady (for_ l body).
Proof.
  intros Hb. induction l as [|x l IH]; simpl; [apply steady_ret|].
  apply steady_bind; auto.
Qed.

Lemma steady_fold {A B} (l : list A) (acc : B) (body : B → A → M B) :
  (∀ acc x, steady (body acc x)) → steady (fold_ l acc body).
Proof.
  intros Hb. revert acc. induction l as [|x l IH]; intros acc; simpl;
    [apply steady_ret|].
  apply steady_bind; auto.
Qed.

Lemma steady_NewIntVar lb ub : steady (NewIntVar lb ub).
Proof. intros st v st' [= _ <-]. by constructor. Qed.

Lemma steady_add_constraint c : steady (add_constraint c).
Proof. intros st v st' [= _ <-]. by constructor. Qed.

Lemma steady_obj_int_append v c : steady (obj_int_append v c).
Proof. intros st u st' [= _ <-]. by constructor. Qed.

Lemma steady_obj_bool_append l c : steady (obj_bool_append l c).
Proof.
  intros st u st' [= _ <-]. constructor; simpl; intros;
    by apply lookup_app_l_Some.
Qed.

Create HintDb steady.
#[global] Hint Resolve steady_NewIntVar steady_add_constraint
  steady_obj_int_append steady_obj_bool_append : steady.

(** Steadiness of a program follows its syntax. *)
Ltac steady_step :=
  cbv beta zeta;
  lazymatch goal with
  | |- steady (mret _) => apply steady_ret
  | |- steady (_ ≫= _) => apply steady_bind; [|intros ?]
  | |- steady (try _) => apply steady_try
  | |- steady (when _ _) => apply steady_when
  | |- steady (for_ _ _) => apply steady_for; intros ?
  | |- steady (fold_ _ _ _) => apply steady_fold; intros ? ?
  | |- steady (match ?x with _ => _ end) => destruct x
  | |- steady ((match ?x with _ => _ end) _) => destruct x
  | |- steady NewBoolVar => apply steady_NewIntVar
  | |- steady (Add _ _ _) => apply steady_add_constraint
  | |- steady (AddOnlyEnforceIf _ _ _ _) => apply steady_add_constraint
  | |- steady (AddBoolOr _) => apply steady_add_constraint
  | |- steady (AddMaxEquality _ _) => apply steady_add_constraint
  | |- steady (AddMinEquality _ _) => apply steady_add_constraint
  | |- steady _ => solve [auto with steady]
  end.
Ltac steady_solve := repeat steady_step.

Lemma steady_penalized_clause lits cost : steady (penalized_clause lits cost).
Proof. unfold penalized_clause. steady_solve. Qed.

Lemma steady_add_soft_sequence_constraint works hmin smin cmin smax hmax cmax :
  steady (add_soft_sequence_constraint works hmin smin cmin smax hmax cmax).
Proof. unfold add_soft_sequence_constraint. steady_solve. Qed.
#[global] Hint Resolve steady_penalized_clause
  steady_add_soft_sequence_constraint : steady.

Section AssemblySteady.
Variable D : Data.
Variable w : gmap (Z * Z * Z) var.

Lemma steady_transition f s c : steady (transition w f s c).
Proof. unfold transition. steady_solve. Qed.
Lemma steady_avoid e s d1 d2 c : steady (avoid w e s d1 d2 c).
Proof. unfold avoid. steady_solve. Qed.
Hint Resolve steady_transition steady_avoid : steady.

Lemma steady_create_work : steady (create_work D).
Proof. unfold create_work. steady_solve. Qed.
Lemma steady_max_shift_per_day : steady (max_shift_per_day D w).
Proof. unfold max_shift_per_day. steady_solve. Qed.
Lemma steady_short_shift_not_free : steady (short_shift_not_free D w).
Proof. unfold short_shift_not_free. steady_solve. Qed.
Lemma steady_dummy_min_one : steady (dummy_min_one D w).
Proof. unfold dummy_min_one. steady_solve. Qed.
Lemma steady_dummy_penalty : steady (dummy_penalty D w).
Proof. unfold dummy_penalty. steady_solve. Qed.
Lemma steady_no_overlap : steady (no_overlap D w).
Proof. unfold no_overlap. steady_solve. Qed.
Lemma steady_overlap_not_free : steady (overlap_not_free D w).
Proof. unfold overlap_not_free. steady_solve. Qed.
Lemma steady_fixed : steady (fixed D w).
Proof. unfold fixed. steady_solve. Qed.
Lemma steady_employee_requests : steady (employee_requests D w).
Proof. unfold employee_requests. steady_solve. Qed.
Lemma steady_cover : steady (cover D w).
Proof. unfold cover. steady_solve. Qed.
Lemma steady_rest_after_night : steady (rest_after_night D w).
Proof. unfold rest_after_night. steady_solve. Qed.
Lemma steady_max_one_night_in_7_days : steady (max_one_night_in_7_days D w).
Proof. unfold max_one_night_in_7_days. steady_solve. Qed.
Lemma steady_max_shifts_per_week : steady (max_shifts_per_week D w).
Proof. unfold max_shifts_per_week. steady_solve. Qed.
Lemma steady_max_hours : steady (max_hours D w).
Proof. unfold max_hours. steady_solve. Qed.
Lemma steady_weekend_of_week e loc wk : steady (weekend_of_week D w e loc wk).
Proof. unfold weekend_of_week. steady_solve. Qed.
Hint Resolve steady_weekend_of_week : steady.
Lemma steady_weekends_of_employee loc e : steady (weekends_of_employee D w loc e).
Proof. unfold weekends_of_employee. steady_solve. Qed.
Hint Resolve steady_weekends_of_employee : steady.
Lemma steady_weekends : steady (weekends D w).
Proof. unfold weekends. steady_solve. Qed.
Lemma steady_fairness : steady (fairness D w).
Proof. unfold fairness. steady_solve. Qed.
Lemma steady_limit_workhours : steady (limit_workhours D w).
Proof. unfold limit_workhours. steady_solve. Qed.
Lemma steady_skill_rules : steady (skill_rules D w).
Proof. unfold skill_rules. steady_solve. Qed.
Lemma steady_day_transitions : steady (day_transitions D w).
Proof. unfold day_transitions. steady_solve. Qed.
Lemma steady_shift_transitions : steady (shift_transitions D w).
Proof. unfold shift_transitions. steady_solve. Qed.
Lemma steady_avoid_consecutive_weekends : steady (avoid_consecutive_weekends D w).
Proof. unfold avoid_consecutive_weekends. steady_solve. Qed.
Lemma steady_shift_sequences : steady (shift_sequences D w).
Proof. unfold shift_sequences. steady_solve. Qed.
End AssemblySteady.

#[global] Hint Resolve steady_transition steady_avoid
  steady_weekend_of_week steady_weekends_of_employee
  steady_create_work steady_max_shift_per_day
  steady_short_shift_not_free steady_dummy_min_one steady_dummy_penalty
  steady_no_overlap steady_overlap_not_free steady_fixed
  steady_employee_requests steady_cover steady_rest_after_night
  steady_max_one_night_in_7_days steady_max_shifts_per_week steady_max_hours
  steady_weekends steady_fairness steady_limit_workhours steady_skill_rules
  steady_day_transitions steady_shift_transitions
  steady_avoid_consecutive_weekends steady_shift_sequences : steady.
#[global] Hint Resolve mono_transition mono_avoid : mono.

Lemma ranb_ran {A} (m : M A) x st : ranb m x st → ran m x st.
Proof. intros (st1 & st2 & ? & ? & ? & _). by exists st1, st2. Qed.

Lemma ranb_bind {A B} (m : M A) (f : A → M B) y st :
  mono m → (∀ x, mono (f x)) → (∀ x, steady (f x)) →
  ranb (m ≫= f) y st → ∃ x, ranb m x st ∧ ranb (f x) y st.
Proof.
  intros Hm Hf Hs (st1 & st2 & Hp & (x & sta & H1 & H2)%bind_inv & Hext & Hkb).
  exists x. split.
  - exists st1, sta. split_and!; [done..| |].
    + eapply extends_trans; [by eapply Hf | done].
    + eapply keeps_bool_trans; [by eapply Hs | done].
  - exists sta, st2. split_and!; [|done..].
    by eapply ext_parallel; [eapply Hm|].
Qed.

Lemma ranb_try {A B} (o : option A) (f : A → M B) y st :
  ranb (try o ≫= f) y st → ∃ x, o = Some x ∧ ranb (f x) y st.
Proof.
  intros (st1 & st2 & Hp & (x & sta & [-> ->]%try_inv & H2)%bind_inv & Hext).
  exists x. split; [done|]. by exists st1, st2.
Qed.

Lemma ranb_for {A} (l : list A) (body : A → M unit) x st :
  (∀ y, mono (body y)) → (∀ y, steady (body y)) →
  ranb (for_ l body) () st → x ∈ l → ranb (body x) () st.
Proof.
  intros Hb Hs. induction l as [|y l IH]; intros Hran Hx.
  { by apply elem_of_nil in Hx. }
  simpl in Hran. apply ranb_bind in Hran as ([] & Hhd & Htl);
    [|done|intros _; by apply mono_for|intros _; by apply steady_for].
  apply elem_of_cons in Hx as [->|Hx]; auto.
Qed.

Lemma ranb_obj_bool_append l c u st :
  ranb (obj_bool_append l c) u st → bool_term st l c.
Proof.
  intros (st1 & st2 & [_ Hp] & [= _ <-] & _ & Hkb).
  exists (length (obj_bool_vars st1)). split; apply Hkb; simpl.
  - by rewrite lookup_app_r, Nat.sub_diag.
  - rewrite Hp. by rewrite lookup_app_r, Nat.sub_diag.
Qed.

Lemma ran_obj_int_append v c u st :
  ran (obj_int_append v c) u st → int_term st v c.
Proof.
  intros (st1 & st2 & [Hp _] & [= _ <-] & Hext).
  exists (length (obj_int_vars st1)). split; apply Hext; simpl.
  - by rewrite lookup_app_r, Nat.sub_diag.
  - rewrite Hp. by rewrite lookup_app_r, Nat.sub_diag.
Qed.

Lemma ran_NewIntVar lb ub v st :
  ran (NewIntVar lb ub) v st → variables (model st) !! v = Some (lb, ub).
Proof. intros (st1 & st2 & _ & Hv%NewIntVar_spec & Hext). by apply Hext. Qed.

(** Taking a [ranb] hypothesis apart along the program text. *)
Ltac ranb_bind H x H1 H2 :=
  apply ranb_bind in H as (x & H1 & H2);
    [|mono_solve|intros ?; mono_solve|intros ?; steady_solve].
Ltac ranb_skip H :=
  let x := fresh in let H1 := fresh in
  apply ranb_bind in H as (x & H1 & H);
    [clear H1|mono_solve|intros ?; mono_solve|intros ?; steady_solve].
Ltac ranb_for H Hin :=
  eapply ranb_for in H; [|intros ?; mono_solve|intros ?; steady_solve|exact Hin];
  cbv beta in H.
Ltac ranb_try H x Hx :=
  apply ranb_try in H as (x & Hx & H).

Lemma solve_assembled_rest D loc st :
  solve_shift_scheduling D init = Some (loc, st) → assembled_rest D loc st.
Proof.
  intros Hrun.
  assert (H : ranb (solve_shift_scheduling D) loc st).
  { exists init, st.
    split_and!; [done|done|apply extends_refl|apply keeps_bool_refl]. }
  clear Hrun. unfold solve_shift_scheduling in H.
  apply ranb_try in H as ([] & _ & H).
  ranb_bind H w Hw H.
  ranb_skip H.
  ranb_bind H u2 H2 H. ranb_bind H u3 H3 H. ranb_bind H u4 H4 H.
  ranb_skip H. ranb_skip H.
  ranb_bind H u7 H7 H. ranb_bind H u8 H8 H.
  ranb_skip H. ranb_skip H. ranb_skip H.
  ranb_bind H u12 H12 H. ranb_bind H u13 H13 H.
  ranb_bind H loc' H14 H.
  ranb_bind H u15 H15 H. ranb_bind H u16 H16 H.
  ranb_skip H.
  ranb_bind H u18 H18 H. ranb_bind H u19 H19 H. ranb_bind H u20 H20 H.
  ranb_skip H.
  destruct H as (? & ? & _ & [= -> _] & _).
  destruct u2, u3, u4, u7, u8, u12, u13, u15, u16, u18, u19, u20.
  pose proof (weekends_work _ _ _ _ (ranb_ran _ _ _ H14)) as Hwork. subst w.
  by constructor.
Qed.

(** ** The decision cube *)

Lemma cube_keys_weaken (P P' : Z * Z * Z → Prop) w st :
  (∀ k, P k → P' k) → cube_keys P w st → cube_keys P' w st.
Proof.
  intros HP [Hk Hinj]. split; [|done].
  intros k v Hv. destruct (Hk k v Hv). auto.
Qed.

Lemma cube_keys_step P e s d w st w' st' :
  cube_keys P w st →
  (NewBoolVar ≫= λ v, mret (<[(e, s, d) := v]> w)) st = Some (w', st') →
  cube_keys (λ k, P k ∨ k = (e, s, d)) w' st'.
Proof.
  intros [Hk Hinj] (v & sta & [= <- <-] & [= <- <-])%bind_inv. split; simpl.
  - intros k v. rewrite length_app. simpl.
    destruct (decide (k = (e, s, d))) as [->|Hne].
    + rewrite lookup_insert_eq. intros [= <-]. split; [by right|lia].
    + rewrite lookup_insert_ne by done. intros Hv.
      destruct (Hk k v Hv). split; [by left|lia].
  - intros k1 k2 v.
    destruct (decide (k1 = (e, s, d))) as [->|Hne1],
             (decide (k2 = (e, s, d))) as [->|Hne2]; [done|..];
      rewrite ?lookup_insert_eq, ?lookup_insert_ne by done.
    + intros [= <-] Hv. apply Hk in Hv as [_ Hv]. lia.
    + intros Hv [= <-]. apply Hk in Hv as [_ Hv]. lia.
    + apply Hinj.
Qed.

Lemma cube_keys_days P e s ds w st w' st' :
  cube_keys P w st →
  fold_ ds w (λ work d, v ← NewBoolVar; mret (<[(e, s, d) := v]> work)) st
    = Some (w', st') →
  cube_keys (λ k, P k ∨ ∃ d, d ∈ ds ∧ k = (e, s, d)) w' st'.
Proof.
  intros Hinv Hrun.
  apply (fold_invariant (λ ds w st,
    cube_keys (λ k, P k ∨ ∃ d, d ∈ ds ∧ k = (e, s, d)) w st)) in Hrun; [done|..].
  - eapply cube_keys_weaken; [|done]. by left.
  - clear. intros pre d w st w1 st1 Hinv Hstep.
    eapply cube_keys_weaken; [|by eapply cube_keys_step].
    intros k [[HP|(d' & Hd' & ->)]| ->]; [by left|right..].
    + exists d'. split; [|done]. apply elem_of_app. by left.
    + exists d. split; [|done]. apply elem_of_app. right.
      by apply list_elem_of_singleton.
Qed.

Lemma cube_keys_shifts P e ss ds w st w' st' :
  cube_keys P w st →
  fold_ ss w (λ work s,
    fold_ ds work (λ work d, v ← NewBoolVar; mret (<[(e, s, d) := v]> work))) st
    = Some (w', st') →
  cube_keys (λ k, P k ∨ ∃ s d, s ∈ ss ∧ d ∈ ds ∧ k = (e, s, d)) w' st'.
Proof.
  intros Hinv Hrun.
  apply (fold_invariant (λ ss w st,
    cube_keys (λ k, P k ∨ ∃ s d, s ∈ ss ∧ d ∈ ds ∧ k = (e, s, d)) w st))
    in Hrun; [done|..].
  - eapply cube_keys_weaken; [|done]. by left.
  - clear. intros pre s w st w1 st1 Hinv Hstep.
    eapply cube_keys_weaken; [|by eapply cube_keys_days].
    intros k [[HP|(s' & d & Hs' & Hd & ->)]|(d & Hd & ->)]; [by left|right..].
    + exists s', d. split_and!; [|done..]. apply elem_of_app. by left.
    + exists s, d. split_and!; [|done..]. apply elem_of_app. right.
      by apply list_elem_of_singleton.
Qed.

Lemma create_work_keys D st w st' :
  create_work D st = Some (w, st') →
  (∀ e s d, is_Some (w !! (e, s, d)) →
            0 ≤ e < num_employees_dummy D ∧ 0 ≤ s < num_shifts D ∧
            0 ≤ d < num_days D) ∧
  (∀ k1 k2 v, w !! k1 = Some v → w !! k2 = Some v → k1 = k2).
Proof.
  unfold create_work. intros Hrun.
  apply (fold_invariant (λ es w st,
    cube_keys (λ k, ∃ e s d, e ∈ es ∧ s ∈ Py.range 0 (num_shifts D) ∧
                             d ∈ Py.range 0 (num_days D) ∧ k = (e, s, d)) w st))
    in Hrun.
  - destruct Hrun as [Hk Hinj]. split; [|done].
    intros e s d [v Hv]. apply Hk in Hv as [(e' & s' & d' & He & Hs & Hd & [= -> -> ->]) _].
    by rewrite !range_elem in *.
  - split; intros ?; intros; by rewrite lookup_empty in *.
  - clear. intros pre e w st w1 st1 Hinv Hstep.
    apply cube_keys_shifts with (P := λ k, ∃ e s d, e ∈ pre ∧
      s ∈ Py.range 0 (num_shifts D) ∧ d ∈ Py.range 0 (num_days D) ∧ k = (e, s, d))
      in Hstep; [|done].
    eapply cube_keys_weaken; [|done].
    intros k [(e' & s & d & He' & Hs & Hd & ->)|(s & d & Hs & Hd & ->)].
    + exists e', s, d. split_and!; [|done..]. apply elem_of_app. by left.
    + exists e, s, d. split_and!; [|done..]. apply elem_of_app. right.
      by apply list_elem_of_singleton.
Qed.

(** X10. The decision cube has exactly one Boolean variable for every
    employee (the dummy included), shift type and day of the horizon, and no
    two keys share a variable. *)
Theorem work_cube_exact D loc st :
  solve_shift_scheduling D init = Some (loc, st) →
  (∀ e s d, is_Some (work loc !! (e, s, d)) ↔
            0 ≤ e < num_employees_dummy D ∧ 0 ≤ s < num_shifts D ∧
            0 ≤ d < num_days D) ∧
  (∀ k1 k2 v, work loc !! k1 = Some v → work loc !! k2 = Some v → k1 = k2) ∧
  (∀ k v, work loc !! k = Some v → variables (model st) !! v = Some (0, 1)).
Proof.
  intros Hasm%solve_assembled.
  destruct Hasm as [(st1 & st2 & _ & Hrun & Hext) _ _ _ _ _ _ _ _].
  destruct (create_work_spec _ _ _ _ Hrun) as [Hdef Hbool].
  destruct (create_work_keys _ _ _ _ Hrun) as [Hkeys Hinj].
  split_and!; [|done|].
  - intros e s d. split; [apply Hkeys|]. intros (? & ? & ?). by apply Hdef.
  - intros k v Hv. by apply Hext, (Hbool k).
Qed.

(** ** Fixed assignments and requests *)

(** X11. A fixed assignment [(e, s, d)] of the current period
    ([d >= offset]) is honoured in every feasible solution. *)
Theorem fixed_assignment_honoured D loc st a e s d :
  solve_shift_scheduling D init = Some (loc, st) →
  feasible a (model st) →
  (e, s, d) ∈ fixed_assignments D → offset D ≤ d →
  worked (work loc) a e s d = 1.
Proof.
  intros Hasm%solve_assembled_rest Hfeas Hin Hd.
  pose proof (asm_fixed _ _ _ Hasm) as H%ranb_ran. unfold fixed in H.
  ran_for H Hin. cbn beta iota in H.
  rewrite (proj2 (Z.gtb_lt _ _)) in H by lia. cbn [when] in H.
  ran_try H x Hx. eapply feasible_ran_add in H; [|done]. simpl in H.
  apply Z.eqb_eq in H. by rewrite <-(W_eval _ a _ _ _ _ Hx).
Qed.

(** X12. A request [(e, s, d, w)] of the current period is a hard
    assignment when its weight is zero, and otherwise puts the term
    [w * work[e, s, d]] in the objective. *)
Theorem request_honoured_or_weighted D loc st e s d w :
  solve_shift_scheduling D init = Some (loc, st) →
  (e, s, d, w) ∈ requests D → offset D ≤ d →
  ∃ x, work loc !! (e, s, d) = Some x ∧
       if w =? 0 then ∀ a, feasible a (model st) → a x = 1
       else bool_term st (Pos x) w.
Proof.
  intros Hasm%solve_assembled_rest Hin Hd.
  pose proof (asm_employee_requests _ _ _ Hasm) as H.
  unfold employee_requests in H.
  ranb_for H Hin. cbn beta iota in H.
  rewrite (proj2 (Z.gtb_lt _ _)) in H by lia. cbn [when] in H.
  destruct (w =? 0).
  - ranb_try H x Hx. apply fmap_Some in Hx as (v & Hv & ->).
    exists v. split; [done|]. intros a Hfeas. apply ranb_ran in H.
    eapply feasible_ran_add in H; [|done]. simpl in H. by apply Z.eqb_eq in H.
  - ranb_try H l Hl. apply fmap_Some in Hl as (v & Hv & ->).
    exists v. split; [done|]. by eapply ranb_obj_bool_append.
Qed.

(** X13. A fixed assignment or a request of the current period that names
    an employee, shift or day outside the cube makes the assembly raise
    ([KeyError]). *)
Theorem assignment_outside_cube_raises D e s d :
  ((e, s, d) ∈ fixed_assignments D ∨ ∃ w, (e, s, d, w) ∈ requests D) →
  offset D ≤ d →
  ¬ (0 ≤ e < num_employees_dummy D ∧ 0 ≤ s < num_shifts D ∧ 0 ≤ d < num_days D) →
  solve_shift_scheduling D init = None.
Proof.
  intros Hin Hd Hout.
  destruct (solve_shift_scheduling D init) as [[loc st]|] eqn:Hrun; [|done].
  exfalso. apply Hout.
  pose proof (solve_assembled _ _ _ Hrun) as [(st1 & st2 & _ & Hw & _) _ _ _ _ _ _ _ _].
  apply create_work_keys in Hw as [Hkeys _]. apply Hkeys.
  apply solve_assembled_rest in Hrun as Hasm.
  destruct Hin as [Hin|[w Hin]].
  - pose proof (asm_fixed _ _ _ Hasm) as H%ranb_ran. unfold fixed in H.
    ran_for H Hin. cbn beta iota in H.
    rewrite (proj2 (Z.gtb_lt _ _)) in H by lia. cbn [when] in H.
    ran_try H x Hx. by apply fmap_Some in Hx as (v & -> & _).
  - pose proof (asm_employee_requests _ _ _ Hasm) as H%ranb_ran.
    unfold employee_requests in H.
    ran_for H Hin. cbn beta iota in H.
    rewrite (proj2 (Z.gtb_lt _ _)) in H by lia. cbn [when] in H.
    destruct (w =? 0); ran_try H x Hx; by apply fmap_Some in Hx as (v & -> & _).
Qed.

(** ** Short shifts and the dummy employee *)

(** X14. A real employee who works a shift shorter than six hours works
    exactly two shift types that day, and the off shift is not one of
    them. *)
Theorem short_shift_is_combined D loc st a e s d :
  solve_shift_scheduling D init = Some (loc, st) →
  feasible a (model st) →
  0 ≤ e < num_employees D → 0 ≤ d < num_days D → 1 ≤ s < num_shifts D →
  short_shift D s = Some true →
  worked (work loc) a e s d = 1 →
  length (assigned_shifts (work loc) a e d (Py.range 0 (num_shifts D))) = 2%nat ∧
  worked (work loc) a e 0 d = 0.
Proof.
  intros Hrun Hfeas He%range_elem Hd%range_elem Hs%range_elem Hshort Hw.
  pose proof (solve_assembled _ _ _ Hrun) as Hasm.
  pose proof (solve_assembled_rest _ _ _ Hrun) as Hrest.
  pose proof (λ s, worked_bool D loc st a e s d Hasm Hfeas) as Hbool.
  split.
  - destruct Hasm as [_ H _ _ _ _ _ _ _]. unfold max_shift_per_day in H.
    ran_for H He. ran_for H Hd.
    ran_try H t1 Ht1. ran_bind H u1 H1 H.
    ran_try H t2 Ht2. ran_skip H.
    ran_try H t3 Ht3. ran_skip H.
    ran_for H Hs. ran_try H short Hshort'.
    rewrite Hshort in Hshort'. injection Hshort' as <-. cbn [when] in H.
    ran_try H t4 Ht4. ran_try H l Hl.
    apply (feasible_ran_add a) in H1; [|done].
    apply (feasible_ran_add a) in H; [|done].
    simpl in H1, H. rewrite (L_true _ _ _ _ _ _ Hl), Hw in H. simpl in H.
    apply Z.leb_le in H1. apply Z.gtb_lt in H.
    pose proof (λ ss t, gen_sum_eval (λ s, W (work loc) e s d)
      (λ s, worked (work loc) a e s d) a ss t
      (λ s x _, W_eval (work loc) a e s d x)) as Hsum.
    rewrite (Hsum _ _ Ht1) in H1. rewrite (Hsum _ _ Ht4) in H.
    rewrite sum_assigned in H1, H by done. lia.
  - pose proof (asm_short_shift_not_free _ _ _ Hrest) as H%ranb_ran.
    unfold short_shift_not_free in H.
    ran_for H Hs. ran_try H short Hshort'.
    rewrite Hshort in Hshort'. injection Hshort' as <-. cbn [when] in H.
    ran_for H Hd. ran_for H He.
    ran_try H l1 Hl1. ran_try H l2 Hl2.
    eapply feasible_ran_add in H; [|done].
    pose proof (not_both _ _ _ _ _ _ _ _ Hl1 Hl2 H) as Hnot.
    destruct (Hbool 0); [done|]. by destruct Hnot.
Qed.

(** X15. The dummy employee is assigned at least one shift type (possibly
    the off shift) on every day. *)
Theorem dummy_assigned_every_day D loc st a d :
  solve_shift_scheduling D init = Some (loc, st) →
  feasible a (model st) →
  0 ≤ d < num_days D →
  (1 ≤ length (assigned_shifts (work loc) a (num_employees_dummy D - 1) d
                 (Py.range 0 (num_shifts D))))%nat.
Proof.
  intros Hrun Hfeas Hd%range_elem.
  pose proof (solve_assembled _ _ _ Hrun) as Hasm.
  pose proof (solve_assembled_rest _ _ _ Hrun) as Hrest.
  pose proof (λ s, worked_bool D loc st a (num_employees_dummy D - 1) s d
                     Hasm Hfeas) as Hbool.
  pose proof (asm_dummy_min_one _ _ _ Hrest) as H%ranb_ran.
  unfold dummy_min_one in H. ran_for H Hd. ran_try H t Ht.
  eapply feasible_ran_add in H; [|done]. simpl in H. apply Z.geb_le in H.
  rewrite (gen_sum_eval _ (λ s, worked (work loc) a (num_employees_dummy D - 1) s d)
             a _ _ (λ s x _, W_eval (work loc) a _ s d x) Ht) in H.
  rewrite sum_assigned in H by done. lia.
Qed.

(** X16. The objective carries, with coefficient 300, a variable equal to
    the number of non-off assignments of the dummy employee from [offset]
    on. *)
Theorem dummy_assignments_penalized D loc st a :
  solve_shift_scheduling D init = Some (loc, st) →
  feasible a (model st) →
  ∃ x, int_term st x 300 ∧ a x = dummy_assignments D (work loc) a.
Proof.
  intros Hasm%solve_assembled_rest Hfeas.
  pose proof (asm_dummy_penalty _ _ _ Hasm) as H%ranb_ran.
  unfold dummy_penalty in H. ran_try H nd Hnd.
  ran_bind H x Hx H. ran_bind H u Hadd H.
  exists x. split; [by eapply ran_obj_int_append|].
  eapply feasible_ran_add in Hadd; [|done]. simpl in Hadd.
  apply Z.eqb_eq in Hadd. rewrite Hadd. unfold dummy_assignments.
  eapply gen_sum_eval; [|done]. intros [s d] ? _. apply W_eval.
Qed.

(** ** Hours *)

Lemma hours_of_eval D w a e x :
  hours_of D w e = Some x → eval a x = hours_worked_by D w a e.
Proof.
  intros Hx. unfold hours_worked_by. eapply gen_sum_eval; [|exact Hx].
  intros [s d] y _ (v & Hv & (h & Hh & [= <-])%bind_Some)%bind_Some.
  simpl. by rewrite (W_eval _ _ _ _ _ _ Hv), Hh.
Qed.

(** X17. The hours a real employee works from [offset] on never exceed
    [int(37 * normtid / ansat_arbejdstid[e][1])], and the objective carries
    the unused hours with coefficient -10. *)
Theorem hours_within_ceiling D loc st a e :
  solve_shift_scheduling D init = Some (loc, st) →
  feasible a (model st) →
  0 ≤ e < num_employees D →
  ∃ ceiling, workhour_ceiling D e = Some ceiling ∧
    0 ≤ hours_worked_by D (work loc) a e ≤ ceiling ∧
    ∃ x, int_term st x (-10) ∧
         a x = ceiling - hours_worked_by D (work loc) a e.
Proof.
  intros Hasm%solve_assembled_rest Hfeas He%range_elem.
  pose proof (asm_max_hours _ _ _ Hasm) as H%ranb_ran.
  unfold max_hours in H. ran_for H He. cbv zeta in H.
  ran_try H nh Hnh. ran_try H ceiling Hceil.
  ran_bind H hw Hhw H. ran_bind H u1 Hadd1 H.
  ran_bind H x Hx H. ran_bind H u2 Hadd2 H.
  exists ceiling. split; [done|].
  apply ran_NewIntVar in Hhw.
  pose proof (feasible_domain _ _ _ _ _ Hfeas Hhw) as Hdom.
  eapply feasible_ran_add in Hadd1; [|done].
  eapply feasible_ran_add in Hadd2; [|done].
  simpl in Hadd1, Hadd2. apply Z.eqb_eq in Hadd1, Hadd2.
  rewrite (hours_of_eval _ _ _ _ _ Hnh) in Hadd1.
  split; [lia|]. exists x. split; [by eapply ran_obj_int_append|lia].
Qed.

(** X18. The hours a real employee works from [offset] on lie between
    [int(normtid * 0.01 * h / 37)] and [int(normtid * 1.2 * h / 37)], [h]
    being the employee's weekly hours. *)
Theorem month_hours_within_bounds D loc st a e :
  solve_shift_scheduling D init = Some (loc, st) →
  feasible a (model st) →
  0 ≤ e < num_employees D →
  ∃ lo hi, month_bound D 0.01 e = Some lo ∧ month_bound D 1.2 e = Some hi ∧
           lo ≤ hours_worked_by D (work loc) a e ≤ hi.
Proof.
  intros Hasm%solve_assembled_rest Hfeas He%range_elem.
  pose proof (asm_limit_workhours _ _ _ Hasm) as (st1 & st2 & _ & H & Hext & _).
  unfold limit_workhours in H.
  apply bind_inv in H as (meh & s1 & Hfold & H).
  assert (Hinv : ∀ e, e ∈ Py.range 0 (num_employees D) →
    ∃ v lo hi, meh !! e = Some v ∧
      month_bound D 0.01 e = Some lo ∧ month_bound D 1.2 e = Some hi ∧
      variables (model s1) !! v = Some (lo, hi)).
  { eapply (fold_invariant (λ es (meh : gmap Z var) s,
      ∀ e, e ∈ es → ∃ v lo hi, meh !! e = Some v ∧
        month_bound D 0.01 e = Some lo ∧ month_bound D 1.2 e = Some hi ∧
        variables (model s) !! v = Some (lo, hi))); [| |exact Hfold].
    - by intros e' []%elem_of_nil.
    - clear. intros pre e meh s meh1 s1 Hinv Hstep e' He'.
      apply bind_inv in Hstep as (lo & ? & [Hlo ->]%try_inv & Hstep).
      apply bind_inv in Hstep as (hi & ? & [Hhi ->]%try_inv & Hstep).
      apply bind_inv in Hstep as (v & s2 & Hv & Hstep). injection Hstep as <- <-.
      destruct (decide (e' = e)) as [->|Hne].
      + exists v, lo, hi. rewrite lookup_insert_eq.
        split_and!; [done..|]. by eapply NewIntVar_spec.
      + apply elem_of_app in He' as [He'|?%list_elem_of_singleton]; [|done].
        destruct (Hinv e' He') as (v' & lo' & hi' & ? & ? & ? & Hdom).
        exists v', lo', hi'. rewrite lookup_insert_ne by done.
        split_and!; [done..|]. by eapply mono_NewIntVar. }
  destruct (Hinv e He) as (v & lo & hi & Hv & Hlo & Hhi & Hdom).
  exists lo, hi. split; [done|]. split; [done|].
  eapply for_inv in H as (sa & sb & Ea & H & Eb); [|intros ?; mono_solve|exact He].
  ext_of H Eab.
  apply bind_inv in H as (tmp & ? & [Htmp ->]%try_inv & H).
  apply bind_inv in H as (v' & ? & [Hv' ->]%try_inv & Hadd%add_constraint_spec).
  rewrite Hv in Hv'. injection Hv' as <-.
  apply Eb, Hext in Hadd. apply Ea, Eab, Eb, Hext in Hdom.
  pose proof (feasible_domain _ _ _ _ _ Hfeas Hdom) as Hb.
  apply (proj2 Hfeas) in Hadd. simpl in Hadd. apply Z.eqb_eq in Hadd.
  by rewrite Hadd, (hours_of_eval _ _ _ _ _ Htmp) in Hb.
Qed.

(** X19. For every weekly cap [(s, max)], real employee and week, the
    objective carries with coefficient 4 a variable equal to [max] minus the
    number of days among the first six of the week on which the employee
    works [s]; its domain keeps that difference within [-7, 7]. *)
Theorem weekly_cap_term D loc st a e s max wk :
  solve_shift_scheduling D init = Some (loc, st) →
  feasible a (model st) →
  0 ≤ e < num_employees D → (s, max) ∈ funktioner_max_uge D →
  0 ≤ wk < num_weeks D →
  ∃ x, int_term st x 4 ∧
       a x = max - counted_in_week (work loc) a e s wk ∧ -7 ≤ a x ≤ 7.
Proof.
  intros Hasm%solve_assembled_rest Hfeas He%range_elem Hin Hwk%range_elem.
  pose proof (asm_max_shifts_per_week _ _ _ Hasm) as H%ranb_ran.
  unfold max_shifts_per_week in H.
  ran_for H He. ran_for H Hin. cbn beta iota in H. ran_for H Hwk.
  cbv zeta in H. ran_try H sw Hsw.
  ran_bind H y Hy H. ran_bind H u1 Hadd1 H.
  ran_bind H x Hx H. ran_bind H u2 Hadd2 H.
  exists x. split; [by eapply ran_obj_int_append|].
  apply ran_NewIntVar in Hx.
  pose proof (feasible_domain _ _ _ _ _ Hfeas Hx) as Hdom.
  eapply feasible_ran_add in Hadd1; [|done].
  eapply feasible_ran_add in Hadd2; [|done].
  simpl in Hadd1, Hadd2. apply Z.eqb_eq in Hadd1, Hadd2.
  rewrite (gen_sum_eval _ (λ x, worked (work loc) a e s x) a _ _
             (λ d y _, W_eval (work loc) a e s d y) Hsw) in Hadd1.
  unfold counted_in_week. split; [|done]. lia.
Qed.

(** ** Transitions *)

Lemma transition_rule w e1 s1 d1 e2 s2 d2 cost st a :
  ranb (transition w (e1, s1, d1) (e2, s2, d2) cost) () st →
  feasible a (model st) →
  if cost =? 0
  then worked w a e1 s1 d1 = 1 → worked w a e2 s2 d2 = 1
  else ∃ v, bool_term st (Pos v) (-1 * cost) ∧
            (worked w a e1 s1 d1 = 1 → worked w a e2 s2 d2 = 0 → a v = 1).
Proof.
  intros H Hfeas. unfold transition in H.
  ranb_try H l1 Hl1. ranb_try H l2 Hl2.
  pose proof (L_true _ a _ _ _ _ Hl1) as Ht1.
  pose proof (L_true _ a _ _ _ _ Hl2) as Ht2.
  destruct (cost =? 0).
  - intros Hw. apply ranb_ran in H.
    eapply feasible_ran_add in H; [|done]. simpl in H.
    rewrite Ht1, Hw in H. simpl in H. apply Z.eqb_eq in H.
    apply fmap_Some in Hl2 as (v & Hv & ->). simpl in H.
    unfold worked. by rewrite Hv.
  - ranb_bind H v Hv H. ranb_bind H u Hc H.
    exists v. split; [by eapply ranb_obj_bool_append|].
    intros Hw1 Hw2. apply ranb_ran in Hv, Hc.
    apply ran_NewIntVar in Hv.
    eapply feasible_ran_add in Hc; [|done]. simpl in Hc.
    rewrite lit_true_not, Ht1, Ht2, Hw1, Hw2 in Hc. simpl in Hc.
    rewrite orb_false_r in Hc. apply negb_true_iff, Z.eqb_neq in Hc.
    destruct (feasible_bool _ _ _ Hfeas Hv); [done|done].
Qed.

(** X20. A desired day transition [(first_shift, first_weekday,
    second_shift, second_weekday, cost)] binds every real employee in every
    week: with cost 0, working the first shift on the first weekday forces
    the second shift on the second weekday; with another cost, a Boolean
    with coefficient [-cost] in the objective is forced to 1 whenever the
    first is worked and the second is not. *)
Theorem day_transition_rule D loc st a fs fw ss sw cost e wk :
  solve_shift_scheduling D init = Some (loc, st) →
  feasible a (model st) →
  (fs, fw, ss, sw, cost) ∈ desired_day_transistions D →
  0 ≤ e < num_employees D → 0 ≤ wk < num_weeks D →
  if cost =? 0
  then worked (work loc) a e fs (7 * wk + fw) = 1 →
       worked (work loc) a e ss (7 * wk + sw) = 1
  else ∃ v, bool_term st (Pos v) (-1 * cost) ∧
            (worked (work loc) a e fs (7 * wk + fw) = 1 →
             worked (work loc) a e ss (7 * wk + sw) = 0 → a v = 1).
Proof.
  intros Hasm%solve_assembled_rest Hfeas Hin He%range_elem Hwk%range_elem.
  pose proof (asm_day_transitions _ _ _ Hasm) as H.
  unfold day_transitions in H.
  ranb_for H Hin. cbn beta iota in H. ranb_for H He. ranb_for H Hwk.
  by apply transition_rule.
Qed.

(** X21. A desired shift transition [(first_shift, first_day, next_shift,
    next_day, cost)] binds every real employee on every day
    [d < num_days - next_day] in the same way, between days [d + first_day]
    and [d + next_day]. *)
Theorem shift_transition_rule D loc st a fs fd ns nd cost e d :
  solve_shift_scheduling D init = Some (loc, st) →
  feasible a (model st) →
  (fs, fd, ns, nd, cost) ∈ desired_shift_transitions D →
  0 ≤ e < num_employees D → 0 ≤ d < num_days D - nd →
  if cost =? 0
  then worked (work loc) a e fs (d + fd) = 1 →
       worked (work loc) a e ns (d + nd) = 1
  else ∃ v, bool_term st (Pos v) (-1 * cost) ∧
            (worked (work loc) a e fs (d + fd) = 1 →
             worked (work loc) a e ns (d + nd) = 0 → a v = 1).
Proof.
  intros Hasm%solve_assembled_rest Hfeas Hin He%range_elem Hd%range_elem.
  pose proof (asm_shift_transitions _ _ _ Hasm) as H.
  unfold shift_transitions in H.
  ranb_for H Hin. cbn beta iota in H. ranb_for H He. ranb_for H Hd.
  by apply transition_rule.
Qed.

(** ** Consecutive weekends *)

Lemma avoid_rule w e s d1 d2 cost st a :
  ranb (avoid w e s d1 d2 cost) () st →
  feasible a (model st) →
  ∃ v, bool_term st (Pos v) cost ∧
       (worked w a e s d1 = 1 → worked w a e 0 d2 = 0 → a v = 1).
Proof.
  intros H Hfeas. unfold avoid, penalized_clause in H.
  ranb_try H l1 Hl1. ranb_try H l2 Hl2.
  pose proof (L_true _ a _ _ _ _ Hl1) as Ht1.
  pose proof (L_true _ a _ _ _ _ Hl2) as Ht2.
  ranb_bind H v Hv H. ranb_bind H u Hc H.
  exists v. split; [by eapply ranb_obj_bool_append|].
  intros Hw1 Hw2. apply ranb_ran in Hv, Hc.
  apply ran_NewIntVar in Hv.
  eapply feasible_ran_add in Hc; [|done]. simpl in Hc.
  rewrite lit_true_not, Ht1, Ht2, Hw1, Hw2 in Hc. simpl in Hc.
  rewrite orb_false_r in Hc. apply negb_true_iff, Z.eqb_neq in Hc.
  destruct (feasible_bool _ _ _ Hfeas Hv); [done|done].
Qed.


(** ** What the assembly needs of its input *)

Lemma fold_inv {A B} (l : list A) (acc : B) (body : B → A → M B) x st acc' st' :
  fold_ l acc body st = Some (acc', st') → x ∈ l →
  ∃ acc0 s0 acc1 s1, body acc0 x s0 = Some (acc1, s1).
Proof.
  revert acc st. induction l as [|y l IH]; intros acc st Hrun Hx.
  { by apply elem_of_nil in Hx. }
  simpl in Hrun. apply bind_inv in Hrun as (acc1 & s1 & Hhd & Htl).
  apply elem_of_cons in Hx as [->|Hx]; eauto.
Qed.

Lemma gen_sum_defined {A} (f : A → option expr) l e x :
  gen_sum f l = Some e → x ∈ l → is_Some (f x).
Proof.
  unfold gen_sum. intros (es & Hes%mapM_Some & _)%fmap_Some Hx.
  induction Hes as [|y e' l es Hy Hes IH]; [by apply elem_of_nil in Hx|].
  apply elem_of_cons in Hx as [->|Hx]; eauto.
Qed.

(** X23. The weekend bookkeeping looks up the Saturday and Sunday of every
    declared week: with a real employee and a non-off shift, the assembly
    raises ([KeyError]) unless the horizon holds [7 * number_of_weeks]
    days. *)
Theorem horizon_covers_weeks D loc st :
  solve_shift_scheduling D init = Some (loc, st) →
  0 < num_employees D → 1 < num_shifts D → 0 < number_of_weeks D →
  7 * number_of_weeks D ≤ num_days D.
Proof.
  intros Hasm%solve_assembled He Hs Hw.
  destruct Hasm as [(? & ? & _ & Hcube & _) _ _ _ _ _ _
                    (st1 & st2 & _ & Hrun & _) _].
  apply create_work_keys in Hcube as [Hkeys _].
  unfold weekends in Hrun.
  apply bind_inv in Hrun as (loc0 & s0 & Hfold & _).
  eapply (fold_inv _ _ _ 0) in Hfold as (la & sa & lb & sb & Hemp);
    [|apply range_elem; lia].
  unfold weekends_of_employee in Hemp. cbv zeta in Hemp.
  apply bind_inv in Hemp as (loc1 & s1 & Hweeks & _).
  eapply (fold_inv _ _ _ (number_of_weeks D - 1)) in Hweeks
    as (lc & sc & ld & sd & Hweek); [|apply range_elem; lia].
  unfold weekend_of_week in Hweek.
  do 4 (apply bind_inv in Hweek as (? & ? & _ & Hweek)).
  apply bind_inv in Hweek as (satsun & ? & [Hsatsun _]%try_inv & _).
  eapply (gen_sum_defined _ _ _ 1) in Hsatsun as [ex Hex]; [|apply range_elem; lia].
  apply bind_Some in Hex as (sat & _ & (sun & Hsun & _)%bind_Some).
  apply fmap_Some in Hsun as (v & Hv & _).
  destruct (Hkeys 0 1 ((number_of_weeks D - 1) * 7 + 6)) as (_ & _ & Hd); [by eexists|].
  lia.
Qed.

(** X24. The assembly raises ([KeyError], [IndexError]) unless shift ['1']
    has a duration and a time window and [ansat_arbejdstid] has a first
    entry (the early [print] calls read them), every non-off shift type has
    a time window, and, when there is a real employee and a day in the
    current period, every non-off shift type has a duration. *)
Theorem assembly_needs_shift_data D loc st :
  solve_shift_scheduling D init = Some (loc, st) →
  (is_Some (funktioner_varighed D !! "1"%string) ∧
   is_Some (funktioner_tider D !! "1"%string) ∧
   is_Some (Py.index (ansat_arbejdstid D) 0)) ∧
  (∀ s, 1 ≤ s < num_shifts D → is_Some (funktioner_tider D !! Py.str s)) ∧
  (0 < num_employees D → offset D < num_days D →
   ∀ s, 1 ≤ s < num_shifts D → is_Some (funktioner_varighed D !! Py.str s)).
Proof.
  intros Hrun. split; [|split].
  - unfold solve_shift_scheduling in Hrun.
    apply bind_inv in Hrun as ([] & ? & [Hp _]%try_inv & _).
    unfold printed_lookups in Hp.
    apply bind_Some in Hp as (? & H1 & Hp).
    apply bind_Some in Hp as (? & H2 & Hp).
    apply bind_Some in Hp as (? & H3 & _).
    apply fmap_Some in H3 as (? & H3 & _).
    split_and!; by eexists.
  - intros s Hs%range_elem. apply solve_assembled_rest in Hrun as Hasm.
    pose proof (asm_short_shift_not_free _ _ _ Hasm) as H%ranb_ran.
    unfold short_shift_not_free in H. ran_for H Hs. ran_try H short Hshort.
    apply bind_Some in Hshort as (t & Ht & _). by eexists.
  - intros He Hd s Hs. apply solve_assembled_rest in Hrun as Hasm.
    pose proof (asm_max_hours _ _ _ Hasm) as H%ranb_ran.
    unfold max_hours in H.
    assert (He0 : 0 ∈ Py.range 0 (num_employees D)) by (apply range_elem; lia).
    ran_for H He0. ran_try H nh Hnh. unfold hours_of in Hnh.
    eapply (gen_sum_defined _ _ _ (s, offset D)) in Hnh as [ex Hex].
    + apply bind_Some in Hex as (? & _ & (h & Hh & _)%bind_Some). by eexists.
    + unfold pairs. apply list_elem_of_In, in_flat_map. exists s. split.
      * apply list_elem_of_In, range_elem. lia.
      * apply in_map, list_elem_of_In, range_elem. lia.
Qed.

(** ** Spread penalties *)

Lemma tally_inv_extends f P m st st' :
  extends st st' → tally_inv f P m st → tally_inv f P m st'.
Proof.
  intros Hext Hinv e HP. destruct (Hinv e HP) as (v & Hv & Hsem).
  exists v. split; [done|]. intros a Hfeas. by eapply Hsem, feasible_extends.
Qed.

Lemma tally_insert f P m st e v :
  tally_inv f P m st → (∀ a, feasible a (model st) → a v = f a e) →
  tally_inv f (λ e', P e' ∨ e' = e) (<[e := v]> m) st.
Proof.
  intros Hinv Hv e' HP. destruct (decide (e' = e)) as [->|Hne].
  - rewrite lookup_insert_eq. by exists v.
  - rewrite lookup_insert_ne by done. destruct HP as [HP|?]; [by apply Hinv|done].
Qed.

Lemma tally_eval f P (m : gmap Z var) st a x e :
  tally_inv f P m st → feasible a (model st) → P x →
  V <$> m !! x = Some e → eval a e = f a x.
Proof.
  intros Hinv Hfeas HP (v & Hv & ->)%fmap_Some.
  destruct (Hinv x HP) as (v' & Hv' & Hsem).
  rewrite Hv in Hv'. injection Hv' as <-. by apply Hsem.
Qed.

Lemma mapM_eval {B} (g : B → option expr) (h : B → Z) a l es :
  mapM g l = Some es →
  (∀ x e, x ∈ l → g x = Some e → eval a e = h x) →
  map (eval a) es = h <$> l.
Proof.
  intros Hes%mapM_Some Hg.
  induction Hes as [|x e l es Hx Hes IH]; [done|].
  rewrite fmap_cons. simpl. f_equal.
  - apply Hg; [by left|done].
  - apply IH. intros x' e' Hx'. apply Hg. by right.
Qed.

(** A counter: a variable set equal to a sum. *)
Lemma counter_insert f P (m : gmap Z var) e st stf v c :
  tally_inv f P m st → extends st stf →
  Linear (V v) Eq c [] ∈ constraints (model stf) →
  (∀ a, feasible a (model stf) → eval a c = f a e) →
  tally_inv f (λ e', P e' ∨ e' = e) (<[e := v]> m) stf.
Proof.
  intros Hinv Hext Hadd Hsem. apply tally_insert.
  - by eapply tally_inv_extends.
  - intros a Hfeas. apply (proj2 Hfeas) in Hadd. simpl in Hadd.
    apply Z.eqb_eq in Hadd. rewrite Hadd. by apply Hsem.
Qed.

Lemma min_equality a x es :
  holds a (MinEquality (V x) es) = true → a x = min_of (map (eval a) es).
Proof.
  simpl. destruct (map (eval a) es); [done|]. by intros ?%Z.eqb_eq.
Qed.

Lemma max_equality a x es :
  holds a (MaxEquality (V x) es) = true → a x = max_of (map (eval a) es).
Proof.
  simpl. destruct (map (eval a) es); [done|]. by intros ?%Z.eqb_eq.
Qed.

(** The block that the spread penalties end with: the minimum and the
    maximum of the counters and their difference. *)
Lemma spread_block {A B} (h : B → Z) (g1 g2 : B → option expr) lb ub
    (l : list B) (k : var → M A) y st a :
  (∀ d, mono (k d)) →
  ran (mn ← NewIntVar lb ub;
       mx ← NewIntVar lb ub;
       mins ← try (mapM g1 l);
       AddMinEquality (V mn) mins ;;
       maxs ← try (mapM g2 l);
       AddMaxEquality (V mx) maxs ;;
       diff ← NewIntVar lb ub;
       Add (V diff) Eq (Minus (V mx) (V mn)) ;;
       k diff) y st →
  (∀ x e, x ∈ l → g1 x = Some e → eval a e = h x) →
  (∀ x e, x ∈ l → g2 x = Some e → eval a e = h x) →
  feasible a (model st) →
  ∃ x, ran (k x) y st ∧ a x = max_of (h <$> l) - min_of (h <$> l).
Proof.
  intros Hk H Hg1 Hg2 Hfeas.
  ran_bind H mn Hmn H. ran_bind H mx Hmx H.
  ran_try H mins Hmins. ran_bind H u1 Hmin H.
  ran_try H maxs Hmaxs. ran_bind H u2 Hmax H.
  ran_bind H diff Hdiff H. ran_bind H u3 Hadd H.
  exists diff. split; [done|].
  eapply feasible_ran_add in Hmin; [|done].
  eapply feasible_ran_add in Hmax; [|done].
  eapply feasible_ran_add in Hadd; [|done].
  apply min_equality in Hmin. apply max_equality in Hmax.
  simpl in Hadd. apply Z.eqb_eq in Hadd.
  rewrite (mapM_eval _ _ _ _ _ Hmins Hg1) in Hmin.
  rewrite (mapM_eval _ _ _ _ _ Hmaxs Hg2) in Hmax.
  by rewrite Hadd, Hmin, Hmax.
Qed.

(** *** Night shifts *)

Lemma count_of_eval D w a e ss c :
  count_of D w e ss = Some c →
  eval a c = sumZ ((λ '(s, d), worked w a e s d)
                     <$> pairs ss (Py.range (offset D) (num_days D))).
Proof.
  intros Hc. eapply gen_sum_eval; [|exact Hc]. intros [s d] ? _. apply W_eval.
Qed.

(** X25. For every night-classified shift the objective carries with
    coefficient 4 a variable equal to the largest minus the smallest number
    of night shifts, from [offset] on, among the real employees (the same
    difference for each entry of [night_shifts]). *)
Theorem night_spread_penalized D loc st a s :
  solve_shift_scheduling D init = Some (loc, st) →
  feasible a (model st) →
  s ∈ night_shifts D →
  ∃ x, int_term st x 4 ∧
       a x = max_of (night_count D (work loc) a <$> Py.range 0 (num_employees D))
             - min_of (night_count D (work loc) a <$> Py.range 0 (num_employees D)).
Proof.
  intros Hasm%solve_assembled_rest Hfeas Hs.
  pose proof (asm_fairness _ _ _ Hasm) as H%ranb_ran.
  unfold fairness in H.
  ran_bind H acc Hfold1 H. destruct acc as [sos soe].
  ran_bind H sosn Hfold2 H. ran_bind H u Hfor Hrest. destruct u.
  clear Hrest. rename Hfor into H.
  ran_for H Hs. cbv zeta in H.
  assert (H1 : tally_inv (night_count D (work loc))
                 (λ e, e ∈ Py.range 0 (num_employees D)) sos st).
  { destruct Hfold1 as (sa & sb & _ & Hrun & Hext).
    eapply tally_inv_extends; [exact Hext|].
    apply (fold_invariant (λ es (acc : gmap Z var * gmap Z var) s,
      tally_inv (night_count D (work loc)) (λ e, e ∈ es) acc.1 s)) in Hrun;
      [done|by intros e []%elem_of_nil|].
    clear. intros pre e [sos soe] s [sos1 soe1] s1 Hinv Hstep.
    apply bind_inv in Hstep as (v & sa & Hv & Hstep). ext_of Hv Ev.
    apply bind_inv in Hstep as (c & ? & [Hc ->]%try_inv & Hstep).
    apply bind_inv in Hstep as ([] & sb & Hadd & Hstep).
    ext_of Hstep Eb.
    repeat (apply bind_inv in Hstep as (? & ? & _ & Hstep)).
    injection Hstep as <- _ <-. simpl in *.
    intros e' He'. eapply (counter_insert _ (λ e, e ∈ pre)); [done| | |..].
    - eapply extends_trans; [exact Ev|].
      eapply extends_trans; [by eapply mono_add_constraint|exact Eb].
    - by eapply Eb, add_constraint_spec.
    - intros a _. by apply count_of_eval.
    - by apply elem_of_app in He' as [?|?%list_elem_of_singleton]; [left|right]. }
  assert (H2 : tally_inv (night_count D (work loc))
                 (λ e, e ∈ Py.range 0 (num_employees D)) sosn st).
  { destruct Hfold2 as (sa & sb & _ & Hrun & Hext).
    eapply tally_inv_extends; [exact Hext|].
    apply (fold_invariant (λ es (acc : gmap Z var) s,
      tally_inv (night_count D (work loc)) (λ e, e ∈ es) acc s)) in Hrun;
      [done|by intros e []%elem_of_nil|].
    clear. intros pre e sosn s sosn1 s1 Hinv Hstep.
    apply bind_inv in Hstep as (v & sa & Hv & Hstep). ext_of Hv Ev.
    apply bind_inv in Hstep as (c & ? & [Hc ->]%try_inv & Hstep).
    apply bind_inv in Hstep as ([] & sb & Hadd & Hstep).
    injection Hstep as <- <-.
    intros e' He'. eapply (counter_insert _ (λ e, e ∈ pre)); [done| | |..].
    - eapply extends_trans; [exact Ev|by eapply mono_add_constraint].
    - by eapply add_constraint_spec.
    - intros a _. by apply count_of_eval.
    - by apply elem_of_app in He' as [?|?%list_elem_of_singleton]; [left|right]. }
  eapply (spread_block (night_count D (work loc) a)) in H
    as (x & Hobj & Hx); [|intros ?; mono_solve| | |exact Hfeas].
  2, 3: intros e y He; by eapply tally_eval.
  exists x. split; [by eapply ran_obj_int_append|done].
Qed.

(** *** Weekends over the lookback and the horizon *)

Lemma weekend_weeks_total D w e wks loc st loc1 st1 :
  fold_ wks loc (weekend_of_week D w e) st = Some (loc1, st1) →
  total_weekends loc1 = total_weekends loc.
Proof.
  intros Hrun.
  apply (fold_invariant (λ _ loc' _, total_weekends loc' = total_weekends loc))
    in Hrun; [done|done|].
  clear. intros _ wk loc' st' loc1 st1 Heq Hstep. rewrite <-Heq.
  unfold weekend_of_week in Hstep.
  repeat (apply bind_inv in Hstep as (? & ? & _ & Hstep)).
  by injection Hstep as <- _.
Qed.

Lemma total_weekends_step D w P Q (T : Z → Prop) loc e st loc1 st1 :
  wk_inv D w P Q loc st →
  tally_inv (weekends_with_lookback D w) T (total_weekends loc) st →
  weekends_of_employee D w loc e st = Some (loc1, st1) →
  tally_inv (weekends_with_lookback D w) (λ e', T e' ∨ e' = e)
            (total_weekends loc1) st1.
Proof.
  intros Hinv Htally H.
  assert (Hext : extends st st1) by (by eapply mono_weekends_of_employee).
  unfold weekends_of_employee in H. cbv zeta in H.
  apply bind_inv in H as (loc' & s0 & Hweeks & H).
  pose proof (weekend_weeks_total _ _ _ _ _ _ _ _ Hweeks) as Htot_eq.
  apply (weekend_weeks _ _ _ _ _ _ _ _ _ _ Hinv) in Hweeks as [Hinv' _].
  ext_of H E0.
  apply (wk_inv_extends _ _ _ _ _ _ _ E0) in Hinv' as (_ & Hww & _).
  do 5 (apply bind_inv in H as (? & ? & _ & H)).
  apply bind_inv in H as (tw & s5 & _ & H).
  apply bind_inv in H as (carried & ? & [Hcar ->]%try_inv & H).
  apply bind_inv in H as (tot & ? & [Htot ->]%try_inv & H).
  apply bind_inv in H as ([] & s6 & Hadd%add_constraint_spec & H).
  injection H as <- <-. simpl. rewrite Htot_eq.
  eapply counter_insert; [exact Htally|exact Hext|exact Hadd|].
  intros a Hfeas. simpl. unfold weekends_with_lookback, carried_in.
  rewrite Hcar. simpl. f_equal.
  eapply weekends_sum_eval; [|exact Htot|exact Hfeas].
  intros e' wk HP. apply Hww. by right.
Qed.

(** X26. The objective carries with coefficient 4 a variable equal to the
    largest minus the smallest, among the real employees, of the number of
    weekends worked over the horizon plus the number carried in from the
    eight weeks before it. *)
Theorem weekend_spread_penalized D loc st a :
  solve_shift_scheduling D init = Some (loc, st) →
  feasible a (model st) →
  ∃ x, int_term st x 4 ∧
       a x = max_of (weekends_with_lookback D (work loc) a
                       <$> Py.range 0 (num_employees D))
             - min_of (weekends_with_lookback D (work loc) a
                         <$> Py.range 0 (num_employees D)).
Proof.
  intros Hasm%solve_assembled Hfeas.
  destruct Hasm as [_ _ _ _ _ _ _ H _].
  set (w := work loc) in *.
  unfold weekends in H. ran_bind H loc0 Hfold H. cbv zeta in H.
  assert (Ht : tally_inv (weekends_with_lookback D w)
                 (λ e, e ∈ Py.range 0 (num_employees D)) (total_weekends loc0) st).
  { destruct Hfold as (sa & sb & Hp & Hrun & Hext).
    eapply tally_inv_extends; [exact Hext|].
    apply (fold_invariant (λ es loc s,
      wk_inv D w (λ k, ∃ e wk, e ∈ es ∧
               wk ∈ Py.range 0 (number_of_weeks D) ∧ k = (e, wk))
             (λ e, e ∈ es) loc s ∧
      tally_inv (weekends_with_lookback D w) (λ e, e ∈ es)
                (total_weekends loc) s)) in Hrun.
    - apply Hrun.
    - split; [split_and!; [done|..]|].
      + by intros e wk (e' & wk' & []%elem_of_nil & _).
      + by intros e []%elem_of_nil.
      + by intros e []%elem_of_nil.
    - clear. intros pre e l0 s0 l1 s1 [Hinv Ht] Hstep. split.
      + eapply wk_inv_weaken; [| |by eapply weekends_of_employee_step].
        * intros k (e' & wk & [He'| ->%list_elem_of_singleton]%elem_of_app & Hwk & ->);
            [left|right]; eauto.
        * intros e' [He'| ->%list_elem_of_singleton]%elem_of_app; [by left|by right].
      + intros e' He'. eapply total_weekends_step; [done..|].
        by apply elem_of_app in He' as [?|?%list_elem_of_singleton]; [left|right]. }
  eapply (spread_block (weekends_with_lookback D w a)) in H
    as (x & Hobj & Hx); [|intros ?; mono_solve| | |exact Hfeas].
  2, 3: intros e y He; by eapply tally_eval.
  exists x. split; [|done].
  ran_take Hobj. by eapply ran_obj_int_append.
Qed.

(** *** Two worked weekends in a row *)

(** [keeps_bool] between the state a remaining program starts from and
    the state it ends in. *)
Ltac kb_of H K :=
  cbv beta in H;
  lazymatch type of H with
  | ?m ?s = Some (_, ?s') =>
      assert (K : keeps_bool s s')
        by (cut (steady m); [intros Hm; exact (Hm _ _ _ H)|steady_solve])
  end.

Lemma for_inv_bool {A} (l : list A) (body : A → M unit) x st st' :
  (∀ y, mono (body y)) → (∀ y, steady (body y)) →
  for_ l body st = Some ((), st') → x ∈ l →
  ∃ s1 s2, extends st s1 ∧ body x s1 = Some ((), s2) ∧
           extends s2 st' ∧ keeps_bool s2 st'.
Proof.
  intros Hb Hs. revert st. induction l as [|y l IH]; intros st Hrun Hx.
  { by apply elem_of_nil in Hx. }
  simpl in Hrun. apply bind_inv in Hrun as ([] & sta & Hhd & Htl).
  apply elem_of_cons in Hx as [->|Hx].
  - exists st, sta. split_and!; [apply extends_refl|done| |].
    + by eapply (mono_for l body).
    + by eapply (steady_for l body).
  - destruct (IH _ Htl Hx) as (s1 & s2 & E1 & Hrun & E2 & K2).
    exists s1, s2. split_and!; [|done..].
    eapply extends_trans; [by eapply Hb|done].
Qed.

Lemma bool_term_keeps st st' l c :
  keeps_bool st st' → bool_term st l c → bool_term st' l c.
Proof. intros Hkb (i & H1 & H2). exists i. split; by apply Hkb. Qed.

Lemma row_inv_grows D w Q st st' :
  extends st st' → keeps_bool st st' → row_inv D w Q st → row_inv D w Q st'.
Proof.
  intros Hext Hkb Hinv e wc HQ Hwc.
  destruct (Hinv e wc HQ Hwc) as (v & Hterm & Hsem).
  exists v. split; [by eapply bool_term_keeps|].
  intros a Hfeas. by eapply Hsem, feasible_extends.
Qed.

Lemma weekends_in_a_row_step D w P Q (R : Z → Prop) loc e st loc1 st1 :
  wk_inv D w P Q loc st → row_inv D w R st →
  weekends_of_employee D w loc e st = Some (loc1, st1) →
  row_inv D w (λ e', R e' ∨ e' = e) st1.
Proof.
  intros Hinv Hrow H.
  assert (Hext : extends st st1) by (by eapply mono_weekends_of_employee).
  assert (Hkb : keeps_bool st st1) by (by eapply steady_weekends_of_employee).
  apply (row_inv_grows _ _ _ _ _ Hext Hkb) in Hrow.
  intros e' wc [HR| ->] Hwc; [by apply Hrow|]. clear Hrow.
  unfold weekends_of_employee in H. cbv zeta in H.
  apply bind_inv in H as (loc' & s0 & Hweeks & H). ext_of H E0.
  apply (weekend_weeks _ _ _ _ _ _ _ _ _ _ Hinv) in Hweeks as [(Hp & Hww & _) _].
  apply bind_inv in H as ([] & s1 & Hfor & H). ext_of H E1. kb_of H K1.
  eapply (for_inv_bool _ _ wc) in Hfor as (sa & sb & Ea & Hbody & Eb & Kb);
    [|intros ?; mono_solve|intros ?; steady_solve|by apply range_elem].
  assert (Hpa : parallel sa) by (by eapply ext_parallel).
  apply bind_inv in Hbody as (w1 & ? & [Hw1 ->]%try_inv & Hbody).
  apply bind_inv in Hbody as (w2 & ? & [Hw2 ->]%try_inv & Hbody).
  unfold penalized_clause in Hbody.
  apply bind_inv in Hbody as (v & s2 & Hv & Hbody).
  apply bind_inv in Hbody as ([] & s3 & Hadd & Hbody).
  injection Hbody as <-.
  assert (E23 : extends s2 s3) by (by eapply mono_add_constraint).
  assert (Es : extends s3 st1).
  { eapply extends_trans; [|exact E1]. eapply extends_trans; [|exact Eb].
    by eapply (mono_obj_bool_append (Pos v) 8 s3). }
  exists v. split.
  - eapply bool_term_keeps; [exact K1|]. eapply bool_term_keeps; [exact Kb|].
    assert (Hp3 : length (obj_bool_vars s3) = length (obj_bool_coeffs s3)).
    { injection Hv as _ <-. injection Hadd as <-. simpl. apply Hpa. }
    exists (length (obj_bool_vars s3)). simpl.
    split; [|rewrite Hp3]; by rewrite lookup_app_r, Nat.sub_diag.
  - intros a Hfeas Hwk1 Hwk2.
    apply NewIntVar_spec in Hv. apply E23, Es in Hv.
    apply add_constraint_spec in Hadd. apply Es in Hadd.
    apply (proj2 Hfeas) in Hadd. simpl in Hadd.
    destruct (Hww e wc) as (x1 & Hx1 & Hs1); [right; exists wc; by rewrite range_elem; split; [lia|]|].
    destruct (Hww e (wc + 1)) as (x2 & Hx2 & Hs2);
      [right; exists (wc + 1); by rewrite range_elem; split; [lia|]|].
    rewrite Hx1 in Hw1. rewrite Hx2 in Hw2. injection Hw1 as <-. injection Hw2 as <-.
    pose proof (feasible_extends _ _ _ E0 Hfeas) as Hf0.
    rewrite (Hs1 a Hf0), Hwk1, (Hs2 a Hf0), Hwk2 in Hadd. simpl in Hadd.
    rewrite orb_false_r in Hadd. apply negb_true_iff, Z.eqb_neq in Hadd.
    destruct (feasible_bool _ _ _ Hfeas Hv); done.
Qed.


(** *** Employees sharing a function *)

Lemma ran_fold {A B} (l : list A) (acc : B) (body : B → A → M B) x acc' st :
  (∀ acc y, mono (body acc y)) →
  ran (fold_ l acc body) acc' st → x ∈ l →
  ∃ acc0 acc1, ran (body acc0 x) acc1 st.
Proof.
  intros Hb. revert acc. induction l as [|y l IH]; intros acc Hran Hx.
  { by apply elem_of_nil in Hx. }
  simpl in Hran. apply ran_bind in Hran as (acc1 & Hhd & Htl);
    [|done|intros ?; by apply mono_fold].
  apply elem_of_cons in Hx as [->|Hx]; eauto.
Qed.

Lemma list_index_range {A} `{EqDecision A} (x : A) (l : list A) i :
  Py.list_index x l = Some i → 0 ≤ i < len l.
Proof.
  unfold len. revert i. induction l as [|y l IH]; intros i; simpl; [done|].
  destruct (decide (x = y)); [intros [= <-]; lia|].
  intros (j & Hj & ->)%fmap_Some. apply IH in Hj. lia.
Qed.

(** X28. For every entry [(s, names)] of [equalfunctionsansatte] the
    objective carries with coefficient 12 a variable equal to the largest
    minus the smallest, among the named employees, of the number of shifts
    of [equalfunctions] worked from [offset] on (the counts made earlier for
    all of [equalfunctions], not the counts of [s] made in this loop). *)
Theorem equal_functions_spread_penalized D loc st a s names :
  solve_shift_scheduling D init = Some (loc, st) →
  feasible a (model st) →
  (s, names) ∈ equalfunctionsansatte D →
  ∃ x, int_term st x 12 ∧
       a x = max_of ((λ name, equal_count D (work loc) a (index_of D name))
                       <$> names)
             - min_of ((λ name, equal_count D (work loc) a (index_of D name))
                         <$> names).
Proof.
  intros Hasm%solve_assembled_rest Hfeas Hin.
  pose proof (asm_fairness _ _ _ Hasm) as H%ranb_ran.
  set (w := work loc) in *.
  unfold fairness in H.
  ran_bind H acc Hfold1 H. destruct acc as [sos soe].
  ran_skip H. ran_skip H. ran_take H.
  eapply ran_fold in H as (acc0 & acc1 & H);
    [|intros ? []; mono_solve|exact Hin].
  cbn beta iota in H. ran_skip H. cbv zeta in H.
  assert (Hsoe : tally_inv (equal_count D w)
                   (λ e, e ∈ Py.range 0 (num_employees D)) soe st).
  { destruct Hfold1 as (sa & sb & _ & Hrun & Hext).
    eapply tally_inv_extends; [exact Hext|].
    apply (fold_invariant (λ es (acc : gmap Z var * gmap Z var) s,
      tally_inv (equal_count D w) (λ e, e ∈ es) acc.2 s)) in Hrun;
      [done|by intros e []%elem_of_nil|].
    clear. intros pre e [sos soe] s [sos1 soe1] s1 Hinv Hstep.
    ext_of Hstep E0.
    do 3 (apply bind_inv in Hstep as (? & ? & _ & Hstep)).
    apply bind_inv in Hstep as (u & sa & Hu & Hstep).
    apply bind_inv in Hstep as (c & ? & [Hc ->]%try_inv & Hstep).
    apply bind_inv in Hstep as ([] & sb & Hadd%add_constraint_spec & Hstep).
    injection Hstep as _ <- <-. simpl in *.
    intros e' He'. eapply (counter_insert _ (λ e, e ∈ pre)); [done|exact E0|done| |].
    - intros a _. by apply count_of_eval.
    - by apply elem_of_app in He' as [?|?%list_elem_of_singleton]; [left|right]. }
  eapply (spread_block (λ name, equal_count D w a (index_of D name))) in H
    as (x & Hobj & Hx); [|intros ?; mono_solve| | |exact Hfeas].
  - exists x. split; [|done]. ran_take Hobj. by eapply ran_obj_int_append.
  - intros name y _ (i & Hi & Hy)%bind_Some.
    unfold index_of. rewrite Hi. simpl.
    eapply tally_eval; [exact Hsoe|exact Hfeas| |exact Hy].
    apply range_elem. by apply list_index_range in Hi.
  - intros name y _ (i & Hi & Hy)%bind_Some.
    unfold index_of. rewrite Hi. simpl.
    eapply tally_eval; [exact Hsoe|exact Hfeas| |exact Hy].
    apply range_elem. by apply list_index_range in Hi.
Qed.

(** * The further instances, evaluated *)

Lemma ex3_solved : solve_shift_scheduling ex3 init = Some (ex3_loc, ex3_st).
Proof. vm_compute. reflexivity. Qed.

Lemma ex3_feasible : feasible (values ex3_values) (model ex3_st).
Proof. apply feasibleb_sound. vm_compute. reflexivity. Qed.

Lemma ex4_solved : solve_shift_scheduling ex4 init = Some (ex4_loc, ex4_st).
Proof. vm_compute. reflexivity. Qed.

Lemma ex4_feasible : feasible (values ex4_values) (model ex4_st).
Proof. apply feasibleb_sound. vm_compute. reflexivity. Qed.

(** The three spreads at [ex4]: the counts of A and of B. *)
Lemma ex4_counts :
  night_count ex4 (work ex4_loc) (values ex4_values)
    <$> Py.range 0 (num_employees ex4) = [1; 0] ∧
  weekends_with_lookback ex4 (work ex4_loc) (values ex4_values)
    <$> Py.range 0 (num_employees ex4) = [3; 1] ∧
  (λ name, equal_count ex4 (work ex4_loc) (values ex4_values)
             (index_of ex4 name)) <$> ["A"; "B"]%string = [4; 2].
Proof. split_and!; vm_compute; reflexivity. Qed.

(** A time with a separator character (31) before its digits: [int]
    raises. *)
Lemma test_overlap_separator_raises :
  test_overlap "08:00" "16:00" "10:00" (String "031" "18:00") = None.
Proof. vm_compute. reflexivity. Qed.

Lemma ex10_soft_ran :
  add_soft_sequence_constraint ex10_works 1 3 2 4 5 3 ex10_st
  = Some (ex10_soft_res, ex10_soft_st).
Proof. vm_compute. reflexivity. Qed.

Lemma ex10_soft_feasible : feasible (values ex10_runs) (model ex10_soft_st).
Proof. apply feasibleb_sound. vm_compute. reflexivity. Qed.

Lemma ex10_run_of_two : maximal_run (truth ex10_works (values ex10_runs)) 0 2.
Proof.
  split_and!; [lia|vm_compute; lia| |by left|by right].
  intros i Hi. assert (i = 0 ∨ i = 1)%nat as [-> | ->] by lia; reflexivity.
Qed.

Lemma ex8_sum3_feasible : feasible (values ex8_sum3) (model ex8_st').
Proof. apply feasibleb_sound. vm_compute. reflexivity. Qed.

(** Closed side conditions on integers, by evaluation. *)
Ltac compare_closed :=
  lazymatch goal with
  | |- _ ≤ _ < _ => vm_compute; split; [discriminate|reflexivity]
  | |- _ ≤ _ ≤ _ => vm_compute; split; discriminate
  | |- _ < _ => vm_compute; reflexivity
  | |- _ ≤ _ => vm_compute; discriminate
  | |- (_ < _)%nat => vm_compute; lia
  | |- (_ ≤ _)%nat => vm_compute; lia
  | |- _ => evaluate
  end.

(** * The further properties at the instances *)

Lemma test_overlap_common_minute_witness :
  test_overlap "22:00" "06:00" "05:00" "07:00" = Some true ↔
  ∃ m, 0 ≤ m < 1440 ∧ in_window 1320 360 m ∧ in_window 300 420 m.
Proof.
  apply (test_overlap_common_minute "22:00" "06:00" "05:00" "07:00"
           1320 360 300 420); compare_closed.
Defined.

Lemma convert_to_minutes_hh_mm_witness :
  convert_to_minutes (hh_mm 2 2 3 0) = Some (60 * (10 * 2 + 2) + (10 * 3 + 0)).
Proof. apply (convert_to_minutes_hh_mm 2 2 3 0); compare_closed. Defined.

Lemma negated_bounded_span_isolated_run_witness :
  ∃ span,
    negated_bounded_span ex10_works (Z.of_nat 0) (Z.of_nat 2) = Some span ∧
    (holds (values ex10_runs) (BoolOr span) = false ↔
     maximal_run (truth ex10_works (values ex10_runs)) 0 2).
Proof.
  apply (negated_bounded_span_isolated_run ex10_works (values ex10_runs) 0 2);
    compare_closed.
Defined.

Lemma negated_bounded_span_out_of_range_witness :
  negated_bounded_span ex10_works 8 3 = None.
Proof. apply (negated_bounded_span_out_of_range ex10_works 8 3); compare_closed. Defined.

Lemma soft_sequence_hard_bounds_witness : 1 ≤ Z.of_nat 2 ≤ 5.
Proof.
  exact (soft_sequence_hard_bounds ex10_works 1 3 2 4 5 3 ex10_st ex10_soft_st
           ex10_soft_res (values ex10_runs) 0 2
           ex10_soft_ran ex10_soft_feasible ex10_run_of_two).
Defined.

Lemma soft_sequence_run_penalized_witness :
  (0 < 2 → 1 ≤ Z.of_nat 2 < 3 →
   ∃ i l, ex10_soft_res.1 !! i = Some l ∧
          lit_true (values ex10_runs) l = true ∧
          ex10_soft_res.2 !! i = Some (2 * (3 - Z.of_nat 2))) ∧
  (0 < 3 → 4 < Z.of_nat 2 ≤ 5 →
   ∃ i l, ex10_soft_res.1 !! i = Some l ∧
          lit_true (values ex10_runs) l = true ∧
          ex10_soft_res.2 !! i = Some (3 * (Z.of_nat 2 - 4))).
Proof.
  exact (soft_sequence_run_penalized ex10_works 1 3 2 4 5 3 ex10_st ex10_soft_st
           ex10_soft_res (values ex10_runs) 0 2
           ex10_soft_ran ex10_soft_feasible ex10_run_of_two).
Defined.

Lemma soft_sum_contribution_any_bounds_witness :
  2 ≤ works_sum (values ex8_sum3) ex8_works ≤ 8 ∧
  contribution (values ex8_sum3) ex8_res
  = (if lower_active 2 4 3
     then 3 * Z.max 0 (4 - works_sum (values ex8_sum3) ex8_works) else 0)
    + (if upper_active 6 8 2
       then 2 * Z.max 0 (works_sum (values ex8_sum3) ex8_works - 6) else 0).
Proof.
  exact (soft_sum_contribution_any_bounds ex8_works 2 4 3 6 8 2 ex8_st ex8_st'
           ex8_res (values ex8_sum3) ex8_ran ex8_sum3_feasible).
Defined.

Lemma soft_sum_excess_limits_witness :
  (lower_active 2 4 3 = true →
   4 - 7 ≤ works_sum (values ex8_sum3) ex8_works ∧
   4 - len ex8_works ≤ works_sum (values ex8_sum3) ex8_works ≤ 4 + len ex8_works) ∧
  (upper_active 6 8 2 = true →
   6 - 7 ≤ works_sum (values ex8_sum3) ex8_works ≤ 6 + 7).
Proof.
  exact (soft_sum_excess_limits ex8_works 2 4 3 6 8 2 ex8_st ex8_st'
           ex8_res (values ex8_sum3) ex8_ran ex8_sum3_feasible).
Defined.

Lemma work_cube_exact_witness :
  (∀ e s d, is_Some (work ex1_loc !! (e, s, d)) ↔
            0 ≤ e < num_employees_dummy ex1 ∧ 0 ≤ s < num_shifts ex1 ∧
            0 ≤ d < num_days ex1) ∧
  (∀ k1 k2 v, work ex1_loc !! k1 = Some v → work ex1_loc !! k2 = Some v →
              k1 = k2) ∧
  (∀ k v, work ex1_loc !! k = Some v →
          variables (model ex1_st) !! v = Some (0, 1)).
Proof. exact (work_cube_exact ex1 ex1_loc ex1_st ex1_solved). Defined.

Lemma fixed_assignment_honoured_witness :
  worked (work ex3_loc) (values ex3_values) 0 1 0 = 1.
Proof.
  apply (fixed_assignment_honoured ex3 ex3_loc ex3_st (values ex3_values) 0 1 0
           ex3_solved ex3_feasible); compare_closed.
Defined.

Lemma request_honoured_or_weighted_witness :
  ∃ x, work ex3_loc !! (0, 1, 2) = Some x ∧
       if -2 =? 0 then ∀ a, feasible a (model ex3_st) → a x = 1
       else bool_term ex3_st (Pos x) (-2).
Proof.
  apply (request_honoured_or_weighted ex3 ex3_loc ex3_st 0 1 2 (-2) ex3_solved);
    compare_closed.
Defined.

Lemma assignment_outside_cube_raises_witness :
  solve_shift_scheduling ex2_fixed_past_horizon init = None.
Proof.
  apply (assignment_outside_cube_raises ex2_fixed_past_horizon 0 1 28).
  - left. compare_closed.
  - compare_closed.
  - intros (_ & _ & _ & Hd). vm_compute in Hd. discriminate Hd.
Defined.

Lemma short_shift_is_combined_witness :
  length (assigned_shifts (work ex3_loc) (values ex3_values) 0 2
            (Py.range 0 (num_shifts ex3))) = 2%nat ∧
  worked (work ex3_loc) (values ex3_values) 0 0 2 = 0.
Proof.
  apply (short_shift_is_combined ex3 ex3_loc ex3_st (values ex3_values) 0 2 2
           ex3_solved ex3_feasible); compare_closed.
Defined.

Lemma dummy_assigned_every_day_witness :
  (1 ≤ length (assigned_shifts (work ex1_loc) (values ex1_values)
                 (num_employees_dummy ex1 - 1) 9
                 (Py.range 0 (num_shifts ex1))))%nat.
Proof.
  apply (dummy_assigned_every_day ex1 ex1_loc ex1_st (values ex1_values) 9
           ex1_solved ex1_feasible); compare_closed.
Defined.

Lemma dummy_assignments_penalized_witness :
  ∃ x, int_term ex1_st x 300 ∧
       values ex1_values x = dummy_assignments ex1 (work ex1_loc) (values ex1_values).
Proof.
  exact (dummy_assignments_penalized ex1 ex1_loc ex1_st (values ex1_values)
           ex1_solved ex1_feasible).
Defined.

Lemma hours_within_ceiling_witness :
  ∃ ceiling, workhour_ceiling ex1 0 = Some ceiling ∧
    0 ≤ hours_worked_by ex1 (work ex1_loc) (values ex1_values) 0 ≤ ceiling ∧
    ∃ x, int_term ex1_st x (-10) ∧
         values ex1_values x
         = ceiling - hours_worked_by ex1 (work ex1_loc) (values ex1_values) 0.
Proof.
  apply (hours_within_ceiling ex1 ex1_loc ex1_st (values ex1_values) 0
           ex1_solved ex1_feasible); compare_closed.
Defined.

Lemma month_hours_within_bounds_witness :
  ∃ lo hi, month_bound ex1 0.01 0 = Some lo ∧ month_bound ex1 1.2 0 = Some hi ∧
           lo ≤ hours_worked_by ex1 (work ex1_loc) (values ex1_values) 0 ≤ hi.
Proof.
  apply (month_hours_within_bounds ex1 ex1_loc ex1_st (values ex1_values) 0
           ex1_solved ex1_feasible); compare_closed.
Defined.

Lemma weekly_cap_term_witness :
  ∃ x, int_term ex3_st x 4 ∧
       values ex3_values x
       = 5 - counted_in_week (work ex3_loc) (values ex3_values) 0 1 0 ∧
       -7 ≤ values ex3_values x ≤ 7.
Proof.
  apply (weekly_cap_term ex3 ex3_loc ex3_st (values ex3_values) 0 1 5 0
           ex3_solved ex3_feasible); compare_closed.
Defined.

Lemma day_transition_rule_witness :
  if 0 =? 0
  then worked (work ex3_loc) (values ex3_values) 0 1 (7 * 0 + 0) = 1 →
       worked (work ex3_loc) (values ex3_values) 0 1 (7 * 0 + 1) = 1
  else ∃ v, bool_term ex3_st (Pos v) (-1 * 0) ∧
            (worked (work ex3_loc) (values ex3_values) 0 1 (7 * 0 + 0) = 1 →
             worked (work ex3_loc) (values ex3_values) 0 1 (7 * 0 + 1) = 0 →
             values ex3_values v = 1).
Proof.
  apply (day_transition_rule ex3 ex3_loc ex3_st (values ex3_values) 1 0 1 1 0 0 0
           ex3_solved ex3_feasible); compare_closed.
Defined.

Lemma shift_transition_rule_witness :
  if 3 =? 0
  then worked (work ex3_loc) (values ex3_values) 0 1 (2 + 0) = 1 →
       worked (work ex3_loc) (values ex3_values) 0 1 (2 + 1) = 1
  else ∃ v, bool_term ex3_st (Pos v) (-1 * 3) ∧
            (worked (work ex3_loc) (values ex3_values) 0 1 (2 + 0) = 1 →
             worked (work ex3_loc) (values ex3_values) 0 1 (2 + 1) = 0 →
             values ex3_values v = 1).
Proof.
  apply (shift_transition_rule ex3 ex3_loc ex3_st (values ex3_values) 1 0 1 1 3 0 2
           ex3_solved ex3_feasible); compare_closed.
Defined.


Lemma horizon_covers_weeks_witness : 7 * number_of_weeks ex1 ≤ num_days ex1.
Proof.
  apply (horizon_covers_weeks ex1 ex1_loc ex1_st ex1_solved); compare_closed.
Defined.

Lemma assembly_needs_shift_data_witness :
  (is_Some (funktioner_varighed ex1 !! "1"%string) ∧
   is_Some (funktioner_tider ex1 !! "1"%string) ∧
   is_Some (Py.index (ansat_arbejdstid ex1) 0)) ∧
  (∀ s, 1 ≤ s < num_shifts ex1 → is_Some (funktioner_tider ex1 !! Py.str s)) ∧
  (0 < num_employees ex1 → offset ex1 < num_days ex1 →
   ∀ s, 1 ≤ s < num_shifts ex1 → is_Some (funktioner_varighed ex1 !! Py.str s)).
Proof. exact (assembly_needs_shift_data ex1 ex1_loc ex1_st ex1_solved). Defined.

Lemma night_spread_penalized_witness :
  ∃ x, int_term ex4_st x 4 ∧
       values ex4_values x
       = max_of (night_count ex4 (work ex4_loc) (values ex4_values)
                   <$> Py.range 0 (num_employees ex4))
         - min_of (night_count ex4 (work ex4_loc) (values ex4_values)
                     <$> Py.range 0 (num_employees ex4)) ∧
       values ex4_values x = 1.
Proof.
  destruct (night_spread_penalized ex4 ex4_loc ex4_st (values ex4_values) 2
              ex4_solved ex4_feasible) as (x & Hterm & Hx); [compare_closed|].
  exists x. split_and!; [done..|]. rewrite Hx. vm_compute. reflexivity.
Defined.

Lemma weekend_spread_penalized_witness :
  ∃ x, int_term ex4_st x 4 ∧
       values ex4_values x
       = max_of (weekends_with_lookback ex4 (work ex4_loc) (values ex4_values)
                   <$> Py.range 0 (num_employees ex4))
         - min_of (weekends_with_lookback ex4 (work ex4_loc) (values ex4_values)
                     <$> Py.range 0 (num_employees ex4)) ∧
       values ex4_values x = 2.
Proof.
  destruct (weekend_spread_penalized ex4 ex4_loc ex4_st (values ex4_values)
              ex4_solved ex4_feasible) as (x & Hterm & Hx).
  exists x. split_and!; [done..|]. rewrite Hx. vm_compute. reflexivity.
Defined.


Lemma equal_functions_spread_penalized_witness :
  ∃ x, int_term ex4_st x 12 ∧
       values ex4_values x
       = max_of ((λ name, equal_count ex4 (work ex4_loc) (values ex4_values)
                            (index_of ex4 name)) <$> ["A"; "B"]%string)
         - min_of ((λ name, equal_count ex4 (work ex4_loc) (values ex4_values)
                              (index_of ex4 name)) <$> ["A"; "B"]%string) ∧
       values ex4_values x = 2.
Proof.
  destruct (equal_functions_spread_penalized ex4 ex4_loc ex4_st
              (values ex4_values) 1 ["A"; "B"]%string ex4_solved ex4_feasible)
    as (x & Hterm & Hx); [compare_closed|].
  exists x. split_and!; [done..|]. rewrite Hx. vm_compute. reflexivity.
Defined.

Lemma one_night_in_constrained_windows_witness :
  nights_in_window ex3 (work ex3_loc) (values ex3_values) 0 7 ≤ 1.
Proof.
  apply (one_night_in_constrained_windows ex3 ex3_loc ex3_st (values ex3_values)
           0 7 ex3_solved ex3_feasible); compare_closed.
Defined.

Lemma worked_weekends_between_1_and_3_witness :
  1 ≤ weekends_worked ex2 (work ex2_loc) (values ex2_values) 0
        (Py.range 0 (number_of_weeks ex2)) ≤ 3.
Proof.
  apply (worked_weekends_between_1_and_3 ex2 ex2_loc ex2_st (values ex2_values) 0
           ex2_solved ex2_feasible); compare_closed.
Defined.
